(** * Zeroconf discovery engine of Home Assistant: a shallow embedding

    The development follows [homeassistant/components/zeroconf/__init__.py]:
    the normalizer [info_from_service], the address scan
    [_first_non_link_local_or_v6_address], the HomeKit classifier
    [async_get_homekit_discovery_domain], the dispatcher
    [ZeroconfDiscovery.async_service_update] with its task body
    [_process_service_update], and the start-up type list of
    [ZeroconfDiscovery.async_setup].

    Python values are modelled as the code has them: [bytes] are lists of
    bytes, [str] is a list of Unicode code points, a [dict] is an
    insertion-ordered association list with unique keys, an exception is an
    explicit [Raised] outcome. *)

From Stdlib Require Import List Bool NArith ZArith Lia.
From Stdlib Require Import Strings.String Strings.Ascii Strings.Byte.
Import ListNotations.

Set Implicit Arguments.

(** ** Python values *)

Definition bytes := list byte.

(** A Python [str]: the sequence of its code points. *)
Definition str := list N.

(** [lit "md"] is the Python literal ["md"], [blit "md"] the literal [b"md"]. *)
Definition blit (s : string) : bytes := list_byte_of_string s.
Definition lit (s : string) : str := map Byte.to_N (list_byte_of_string s).

Definition str_eq_dec : forall a b : str, {a = b} + {a <> b} :=
  list_eq_dec N.eq_dec.

Definition str_eqb (a b : str) : bool :=
  if str_eq_dec a b then true else false.

Definition bytes_eq_dec : forall a b : bytes, {a = b} + {a <> b} :=
  list_eq_dec Byte.byte_eq_dec.

(** [s.startswith(p)] *)
Fixpoint startswith (s p : str) {struct p} : bool :=
  match p, s with
  | [], _ => true
  | _ :: _, [] => false
  | c :: p', d :: s' => N.eqb c d && startswith s' p'
  end.

(** ** Exceptions and outcomes *)

Inductive exn : Type :=
  | TypeError
  | ValueError
  | KeyError
  | AttributeError
  | UnicodeDecodeError.

Inductive result (A : Type) : Type :=
  | Returned (a : A)
  | Raised (e : exn).

Arguments Returned {A} a.
Arguments Raised {A} e.

Definition rbind {A B} (m : result A) (f : A -> result B) : result B :=
  match m with
  | Returned a => f a
  | Raised e => Raised e
  end.

(** ** Insertion-ordered dictionaries *)

Section Dict.
Variable V : Type.

Definition pydict := list (str * V).

(** [d.get(k)], [None] when the key is missing. *)
Fixpoint dict_get (d : pydict) (k : str) : option V :=
  match d with
  | [] => None
  | (k', v) :: d' => if str_eq_dec k k' then Some v else dict_get d' k
  end.

(** [k in d] *)
Definition dict_in (k : str) (d : pydict) : bool :=
  match dict_get d k with Some _ => true | None => false end.

(** [d[k] = v]: an existing key keeps its position, a new key goes last. *)
Fixpoint dict_set (d : pydict) (k : str) (v : V) : pydict :=
  match d with
  | [] => [(k, v)]
  | (k', v') :: d' =>
      if str_eq_dec k k' then (k', v) :: d' else (k', v') :: dict_set d' k v
  end.

(** [list(d)]: the keys in insertion order. *)
Definition dict_keys (d : pydict) : list str := map fst d.

(** [d[k]], raising [KeyError] when the key is missing. *)
Definition dict_item (d : pydict) (k : str) : result V :=
  match dict_get d k with
  | Some v => Returned v
  | None => Raised KeyError
  end.
End Dict.

Arguments dict_get {V} d k.
Arguments dict_in {V} k d.
Arguments dict_set {V} d k v.
Arguments dict_keys {V} d.
Arguments dict_item {V} d k.

(** ** Decoding *)

(** [b.decode("ascii")] *)
Definition decode_ascii (b : bytes) : result str :=
  if forallb (fun x => Byte.to_N x <? 128)%N b
  then Returned (map Byte.to_N b)
  else Raised UnicodeDecodeError.

Definition in_range (lo hi x : N) : bool := ((lo <=? x) && (x <=? hi))%N.

(** Continuation byte [10xxxxxx]. *)
Definition cont (x : N) : bool := in_range 128 191 x.

Definition low6 (x : N) : N := N.land x 63.

(** [b.decode("utf-8")] in strict mode, on byte values: well-formed
    sequences only (no overlong forms, no surrogates, nothing above
    U+10FFFF), [None] standing for [UnicodeDecodeError]. *)
Fixpoint utf8_points (b : list N) : option str :=
  match b with
  | [] => Some []
  | b0 :: r0 =>
      if (b0 <? 128)%N then option_map (cons b0) (utf8_points r0)
      else if in_range 194 223 b0 then
        match r0 with
        | b1 :: r1 =>
            if cont b1
            then option_map (cons (N.land b0 31 * 64 + low6 b1)%N) (utf8_points r1)
            else None
        | _ => None
        end
      else if in_range 224 239 b0 then
        match r0 with
        | b1 :: b2 :: r2 =>
            if in_range (if (b0 =? 224)%N then 160 else 128)
                        (if (b0 =? 237)%N then 159 else 191) b1 && cont b2
            then option_map
                   (cons (N.land b0 15 * 4096 + low6 b1 * 64 + low6 b2)%N)
                   (utf8_points r2)
            else None
        | _ => None
        end
      else if in_range 240 244 b0 then
        match r0 with
        | b1 :: b2 :: b3 :: r3 =>
            if in_range (if (b0 =? 240)%N then 144 else 128)
                        (if (b0 =? 244)%N then 143 else 191) b1
               && cont b2 && cont b3
            then option_map
                   (cons (N.land b0 7 * 262144 + low6 b1 * 4096
                          + low6 b2 * 64 + low6 b3)%N)
                   (utf8_points r3)
            else None
        | _ => None
        end
      else None
  end.

Definition decode_utf8 (b : bytes) : result str :=
  match utf8_points (map Byte.to_N b) with
  | Some s => Returned s
  | None => Raised UnicodeDecodeError
  end.

(** ** IP addresses ([ipaddress.ip_address] on packed bytes) *)

Inductive ip_addr : Type :=
  | IPv4Address (ip : N)
  | IPv6Address (ip : N).

(** [int.from_bytes(b, "big")] *)
Definition int_from_bytes (b : bytes) : N :=
  fold_left (fun acc x => acc * 256 + Byte.to_N x)%N b 0%N.

(** A packed address is 4 bytes (IPv4) or 16 bytes (IPv6); any other
    length makes [ip_address] raise [ValueError]. *)
Definition ip_address (address : bytes) : result ip_addr :=
  if Nat.eqb (List.length address) 4 then Returned (IPv4Address (int_from_bytes address))
  else if Nat.eqb (List.length address) 16 then Returned (IPv6Address (int_from_bytes address))
  else Raised ValueError.

Definition version (a : ip_addr) : N :=
  match a with IPv4Address _ => 4 | IPv6Address _ => 6 end%N.

(** [169.254.0.0/16] for IPv4, [fe80::/10] for IPv6. *)
Definition is_link_local (a : ip_addr) : bool :=
  match a with
  | IPv4Address ip => (N.shiftr ip 16 =? 43518)%N
  | IPv6Address ip => (N.shiftr ip 118 =? 1018)%N
  end.

Fixpoint digits (base : N) (fuel : nat) (n : N) (acc : str) : str :=
  match fuel with
  | O => acc
  | S fuel' =>
      let d := (n mod base)%N in
      let acc' := (if (d <? 10)%N then 48 + d else 87 + d)%N :: acc in
      if (n <? base)%N then acc' else digits base fuel' (n / base)%N acc'
  end.

(** ["%d" % n] and ["%x" % n] *)
Definition dec_str (n : N) : str := digits 10 (S (N.to_nat (N.log2 n))) n [].
Definition hex_str (n : N) : str := digits 16 (S (N.to_nat (N.log2 n))) n [].

(** [sep.join(parts)] *)
Fixpoint join (sep : str) (parts : list str) : str :=
  match parts with
  | [] => []
  | [p] => p
  | p :: rest => p ++ sep ++ join sep rest
  end.

Definition octets (ip : N) : list N :=
  map (fun i => N.land (N.shiftr ip (8 * i)) 255)%N [3; 2; 1; 0]%N.

Definition hextets (ip : N) : list str :=
  map (fun i => hex_str (N.land (N.shiftr ip (16 * i)) 65535))%N
      [7; 6; 5; 4; 3; 2; 1; 0]%N.

(** The scan of [_compress_hextets]: the first longest run of ["0"] groups. *)
Record zero_run : Type := {
  best_doublecolon_start : Z;
  best_doublecolon_len : Z;
  doublecolon_start : Z;
  doublecolon_len : Z
}.

Definition zero_run_step (st : zero_run * Z) (hextet : str) : zero_run * Z :=
  let (r, index) := st in
  (if str_eqb hextet (lit "0") then
     let len := (doublecolon_len r + 1)%Z in
     let start := if (doublecolon_start r =? -1)%Z then index
                  else doublecolon_start r in
     if (len >? best_doublecolon_len r)%Z
     then {| best_doublecolon_start := start; best_doublecolon_len := len;
             doublecolon_start := start; doublecolon_len := len |}
     else {| best_doublecolon_start := best_doublecolon_start r;
             best_doublecolon_len := best_doublecolon_len r;
             doublecolon_start := start; doublecolon_len := len |}
   else {| best_doublecolon_start := best_doublecolon_start r;
           best_doublecolon_len := best_doublecolon_len r;
           doublecolon_start := -1; doublecolon_len := 0 |},
   (index + 1)%Z).

Definition _compress_hextets (hs : list str) : list str :=
  let r := fst (fold_left zero_run_step hs
                  ({| best_doublecolon_start := -1; best_doublecolon_len := 0;
                      doublecolon_start := -1; doublecolon_len := 0 |}, 0%Z)) in
  if (best_doublecolon_len r >? 1)%Z then
    let best_end := (best_doublecolon_start r + best_doublecolon_len r)%Z in
    let hs1 := if (best_end =? Z.of_nat (List.length hs))%Z then hs ++ [[]] else hs in
    let hs2 := firstn (Z.to_nat (best_doublecolon_start r)) hs1
               ++ [[]] ++ skipn (Z.to_nat best_end) hs1 in
    if (best_doublecolon_start r =? 0)%Z then [] :: hs2 else hs2
  else hs.

(** [str(ip_addr)] *)
Definition ip_str (a : ip_addr) : str :=
  match a with
  | IPv4Address ip => join (lit ".") (map dec_str (octets ip))
  | IPv6Address ip => join (lit ":") (_compress_hextets (hextets ip))
  end.

Example ip_str_v4 :
  ip_str (IPv4Address 167772165) = lit "10.0.0.5".
Proof. reflexivity. Qed.

Example ip_str_v6_link_local :
  ip_str (IPv6Address (338288524927261089654018896841347694593%N)) = lit "fe80::1".
Proof. vm_compute. reflexivity. Qed.

Example ip_str_v6_unspecified : ip_str (IPv6Address 0) = lit "::".
Proof. vm_compute. reflexivity. Qed.

Example ip_str_v6_tail :
  ip_str (IPv6Address (N.shiftl 8193 112 + N.shiftl 3512 96)) = lit "2001:db8::".
Proof. vm_compute. reflexivity. Qed.

(** ** Built-ins of the Python runtime

    [str.lower], [str.upper], [int] and [fnmatch.fnmatch] belong to the
    Python runtime, not to this module; their full Unicode behaviour is
    left open.  The one law used is that [str.lower] on an all-ASCII string
    lower-cases the letters [A]-[Z] and nothing else. *)

Definition ascii_lower (c : N) : N :=
  if in_range 65 90 c then (c + 32)%N else c.

Definition ascii_upper (c : N) : N :=
  if in_range 97 122 c then (c - 32)%N else c.

Definition is_ascii (s : str) : Prop := Forall (fun c => c < 128)%N s.

Class Builtins : Type := {
  str_lower : str -> str;
  str_upper : str -> str;
  (** [int(s)]: [None] stands for [ValueError]. *)
  int_of_str : str -> option Z;
  (** [fnmatch.fnmatch(name, pat)] *)
  fnmatch : str -> str -> bool;
  str_lower_ascii : forall s, is_ascii s -> str_lower s = map ascii_lower s
}.

(** ** Constants of the module *)

Definition ZEROCONF_TYPE : str := lit "_home-assistant._tcp.local.".
Definition HOMEKIT_TYPES : list str :=
  [lit "_hap._tcp.local."; lit "_hap._udp.local."].

Definition HOMEKIT_PAIRED_STATUS_FLAG : str := lit "sf".
Definition HOMEKIT_MODEL : str := lit "md".

(** ** Records *)

(** The resolved mDNS record ([zeroconf.asyncio.AsyncServiceInfo]).  A
    property value is [Some b] for a [bytes] value and [None] for a value
    that is not [bytes] (a key advertised without a value).  [_addresses]
    holds the record's candidate addresses of both families, packed, in
    advertisement order. *)
Module AsyncServiceInfo.
Record t : Type := {
  type : str;
  name : str;
  server : str;
  port : option Z;
  _addresses : list bytes;
  properties : list (bytes * option bytes)
}.

(** A packed address of 16 bytes is an IPv6 address. *)
Definition _is_v6_address (addr : bytes) : bool :=
  Nat.eqb (List.length addr) 16.

(** The property [service.addresses], which is what the component reads.
    It belongs to the zeroconf library, not to this repository, and is
    modelled from the library's documentation: "IPv4 addresses of this
    service.  Only IPv4 addresses are returned for backward compatibility",
    that is, the candidates that are not IPv6, in their order. *)
Definition addresses (service : t) : list bytes :=
  filter (fun address => negb (_is_v6_address address)) (_addresses service).
End AsyncServiceInfo.

(** What the typed bag holds: a decoded string, or, under ["_raw"], the
    raw bag itself. *)
Inductive pyval : Type :=
  | VStr (s : str)
  | VDict (raw : pydict (option bytes)).

Module ZeroconfServiceInfo.
Record t : Type := {
  host : str;
  port : option Z;
  hostname : str;
  type : str;
  name : str;
  properties : pydict pyval
}.
End ZeroconfServiceInfo.

(** ** The normalizer *)

(** The body of the loop over [service.properties.items()]. *)
Definition store_property (properties : pydict pyval)
    (item : bytes * option bytes) : result (pydict pyval) :=
  let (key, value) := item in
  match decode_ascii key with
  | Raised _ => Returned properties
  | Returned key =>
      (* properties["_raw"][key] = value *)
      match dict_get properties (lit "_raw") with
      | None => Raised KeyError
      | Some (VStr _) => Raised TypeError
      | Some (VDict raw) =>
          let properties :=
            dict_set properties (lit "_raw") (VDict (dict_set raw key value)) in
          match value with
          | Some b =>
              match decode_utf8 b with
              | Returned s => Returned (dict_set properties key (VStr s))
              | Raised _ => Returned properties
              end
          | None => Returned properties
          end
      end
  end.

Fixpoint decode_properties (properties : pydict pyval)
    (items : list (bytes * option bytes)) : result (pydict pyval) :=
  match items with
  | [] => Returned properties
  | item :: rest =>
      rbind (store_property properties item)
            (fun properties => decode_properties properties rest)
  end.

Fixpoint _first_non_link_local_or_v6_address (addresses : list bytes)
    : result (option str) :=
  match addresses with
  | [] => Returned None
  | address :: rest =>
      rbind (ip_address address) (fun ip_addr =>
        if negb (is_link_local ip_addr) || (version ip_addr =? 6)%N
        then Returned (Some (ip_str ip_addr))
        else _first_non_link_local_or_v6_address rest)
  end.

Definition info_from_service (service : AsyncServiceInfo.t)
    : result (option ZeroconfServiceInfo.t) :=
  rbind (decode_properties [(lit "_raw", VDict [])]
                           (AsyncServiceInfo.properties service))
    (fun properties =>
       match AsyncServiceInfo.addresses service with
       | [] => Returned None
       | addresses =>
           rbind (_first_non_link_local_or_v6_address addresses) (fun host =>
             match host with
             | None => Returned None
             | Some host =>
                 Returned (Some
                   {| ZeroconfServiceInfo.host := host;
                      ZeroconfServiceInfo.port := AsyncServiceInfo.port service;
                      ZeroconfServiceInfo.hostname := AsyncServiceInfo.server service;
                      ZeroconfServiceInfo.type := AsyncServiceInfo.type service;
                      ZeroconfServiceInfo.name := AsyncServiceInfo.name service;
                      ZeroconfServiceInfo.properties := properties |})
             end)
       end).

(** ** Discovery flows *)

Inductive source : Type := SOURCE_HOMEKIT | SOURCE_ZEROCONF.

(** One call of [discovery_flow.async_create_flow(hass, domain, {"source": source}, info)]. *)
Record flow : Type := {
  flow_domain : str;
  flow_source : source;
  flow_info : ZeroconfServiceInfo.t
}.

Inductive ServiceStateChange : Type := Added | Removed | Updated.

Definition ServiceStateChange_eqb (a b : ServiceStateChange) : bool :=
  match a, b with
  | Added, Added | Removed, Removed | Updated, Updated => true
  | _, _ => false
  end.

(** The network as the dispatcher sees it: what
    [AsyncServiceInfo(service_type, name).async_request(zeroconf, 3000)]
    leaves in the record. *)
Definition HaZeroconf := str -> str -> AsyncServiceInfo.t.

Record ZeroconfDiscovery : Type := {
  zeroconf_types : pydict (list (pydict str));
  homekit_models : pydict str;
  ipv6 : bool
}.

Section Engine.
Context {B : Builtins}.

(** *** The HomeKit classifier *)

(** The first loop: the value under the first key whose lower-cased form
    is ["md"]; [props[key]] inside a loop over the keys of [props] is the
    value stored with that key. *)
Fixpoint find_model (props : pydict pyval) : option pyval :=
  match props with
  | [] => None
  | (key, value) :: rest =>
      if str_eqb (str_lower key) HOMEKIT_MODEL then Some value
      else find_model rest
  end.

(** The test that makes the second loop [continue]. *)
Definition model_differs (model test_model : str) : bool :=
  negb (str_eqb model test_model)
  && negb (startswith model (test_model ++ lit " ")
           || startswith model (test_model ++ lit "-"))
  && negb (fnmatch model test_model).

(** The second loop; [homekit_models[test_model]] is the value stored
    with the key the loop is at. *)
Fixpoint scan_models (model : str) (homekit_models : pydict str)
    : option str :=
  match homekit_models with
  | [] => None
  | (test_model, domain) :: rest =>
      if model_differs model test_model then scan_models model rest
      else Some domain
  end.

Definition async_get_homekit_discovery_domain
    (homekit_models : pydict str) (props : pydict pyval)
    : result (option str) :=
  match find_model props with
  | None => Returned None
  | Some (VStr model) => Returned (scan_models model homekit_models)
  | Some (VDict _) =>
      (* a dict differs from every str and has no startswith *)
      match homekit_models with
      | [] => Returned None
      | _ :: _ => Raised AttributeError
      end
  end.

(** *** The matcher *)

(** [props[k].lower()] or [.upper()] when [k in props], else [None]. *)
Definition normalized (props : pydict pyval) (k : str) (f : str -> str)
    : result (option str) :=
  match dict_get props k with
  | None => Returned None
  | Some (VStr s) => Returned (Some (f s))
  | Some (VDict _) => Raised AttributeError
  end.

Record fields : Type := {
  uppercase_mac : option str;
  lowercase_name : option str;
  lowercase_manufacturer : option str;
  lowercase_model : option str
}.

(** ["name"] is always a key of the [ZeroconfServiceInfo] built by
    [info_from_service], so [lowercase_name] is never [None]. *)
Definition fields_of (info : ZeroconfServiceInfo.t) : result fields :=
  let props := ZeroconfServiceInfo.properties info in
  let lowercase_name := Some (str_lower (ZeroconfServiceInfo.name info)) in
  rbind (normalized props (lit "macaddress") str_upper) (fun uppercase_mac =>
  rbind (normalized props (lit "manufacturer") str_lower) (fun lowercase_manufacturer =>
  rbind (normalized props (lit "model") str_lower) (fun lowercase_model =>
  Returned {| uppercase_mac := uppercase_mac;
              lowercase_name := lowercase_name;
              lowercase_manufacturer := lowercase_manufacturer;
              lowercase_model := lowercase_model |}))).

(** [k in matcher and (field is None or not fnmatch.fnmatch(field, matcher[k]))] *)
Definition filter_fails (matcher : pydict str) (k : str)
    (field : option str) : bool :=
  match dict_get matcher k with
  | Some pattern =>
      match field with
      | None => true
      | Some value => negb (fnmatch value pattern)
      end
  | None => false
  end.

(** [false] where the loop body reaches [continue]. *)
Definition rule_matches (f : fields) (matcher : pydict str) : bool :=
  if (1 <? List.length matcher)%nat then
    if filter_fails matcher (lit "macaddress") (uppercase_mac f) then false
    else if filter_fails matcher (lit "name") (lowercase_name f) then false
    else if filter_fails matcher (lit "manufacturer") (lowercase_manufacturer f)
    then false
    else if filter_fails matcher (lit "model") (lowercase_model f) then false
    else true
  else true.

(** The loop over [self.zeroconf_types.get(service_type, [])]: the flows
    created so far and how the loop ended. *)
Fixpoint match_rules (info : ZeroconfServiceInfo.t) (f : fields)
    (matchers : list (pydict str)) : list flow * result unit :=
  match matchers with
  | [] => ([], Returned tt)
  | matcher :: rest =>
      if rule_matches f matcher then
        match dict_item matcher (lit "domain") with
        | Raised e => ([], Raised e)
        | Returned domain =>
            let (flows, r) := match_rules info f rest in
            ({| flow_domain := domain; flow_source := SOURCE_ZEROCONF;
                flow_info := info |} :: flows, r)
        end
      else match_rules info f rest
  end.

Definition rules_for (self : ZeroconfDiscovery) (service_type : str)
    : list (pydict str) :=
  match dict_get (zeroconf_types self) service_type with
  | Some matchers => matchers
  | None => []
  end.

(** Lines 385-439: generic matching. *)
Definition generic_dispatch (self : ZeroconfDiscovery) (service_type : str)
    (info : ZeroconfServiceInfo.t) : list flow * result unit :=
  match fields_of info with
  | Raised e => ([], Raised e)
  | Returned f => match_rules info f (rules_for self service_type)
  end.

(** *** The task body *)

(** [int(props["sf"])] *)
Definition int_of (v : pyval) : result Z :=
  match v with
  | VStr s =>
      match int_of_str s with
      | Some n => Returned n
      | None => Raised ValueError
      end
  | VDict _ => Raised TypeError
  end.

(** Truth value of [domain]: neither [None] nor the empty string. *)
Definition truthy (domain : option str) : bool :=
  match domain with
  | Some (_ :: _) => true
  | _ => false
  end.

Definition homekit_flow (domain : str) (info : ZeroconfServiceInfo.t) : flow :=
  {| flow_domain := domain; flow_source := SOURCE_HOMEKIT; flow_info := info |}.

Definition _process_service_update (self : ZeroconfDiscovery)
    (zeroconf : HaZeroconf) (service_type name : str)
    : list flow * result unit :=
  let async_service_info := zeroconf service_type name in
  match info_from_service async_service_info with
  | Raised e => ([], Raised e)
  | Returned None => ([], Returned tt)
  | Returned (Some info) =>
      if existsb (str_eqb service_type) HOMEKIT_TYPES then
        let props := ZeroconfServiceInfo.properties info in
        match async_get_homekit_discovery_domain (homekit_models self) props with
        | Raised e => ([], Raised e)
        | Returned domain =>
            let created :=
              match domain with
              | Some d => if truthy domain then [homekit_flow d info] else []
              | None => []
              end in
            let continue_generic :=
              let (flows, r) := generic_dispatch self service_type info in
              (created ++ flows, r) in
            if truthy domain && dict_in HOMEKIT_PAIRED_STATUS_FLAG props then
              match rbind (dict_item props HOMEKIT_PAIRED_STATUS_FLAG) int_of with
              | Returned n =>
                  if (n =? 0)%Z then continue_generic
                  else (created, Returned tt)
              | Raised ValueError => (created, Returned tt)
              | Raised e => (created, Raised e)
              end
            else continue_generic
        end
      else generic_dispatch self service_type info
  end.
End Engine.

(** ** The dispatcher *)

(** The event loop as the dispatcher uses it: the tasks handed to
    [asyncio.create_task], in creation order, and the flows created so far. *)
Record event_loop : Type := {
  tasks : list (HaZeroconf * str * str);
  created_flows : list flow
}.

(** A call of the listener's handler. *)
Record service_event : Type := {
  ev_zeroconf : HaZeroconf;
  ev_service_type : str;
  ev_name : str;
  ev_state_change : ServiceStateChange
}.

(** What [async_setup] hands to [HaAsyncServiceBrowser]. *)
Record HaAsyncServiceBrowser : Type := {
  browser_ipv6 : bool;
  browser_types : list str
}.

Definition async_setup (self : ZeroconfDiscovery) : HaAsyncServiceBrowser :=
  let types := dict_keys (zeroconf_types self) in
  let types :=
    fold_left
      (fun types hk_type =>
         if dict_in hk_type (zeroconf_types self) then types
         else types ++ [hk_type])
      (ZEROCONF_TYPE :: HOMEKIT_TYPES) types in
  {| browser_ipv6 := ipv6 self; browser_types := types |}.

Definition async_service_update (self : ZeroconfDiscovery)
    (zeroconf : HaZeroconf) (service_type name : str)
    (state_change : ServiceStateChange) (loop : event_loop) : event_loop :=
  if ServiceStateChange_eqb state_change Removed then loop
  else {| tasks := tasks loop ++ [(zeroconf, service_type, name)];
          created_flows := created_flows loop |}.

(** The listener delivering a sequence of events. *)
Definition deliver (self : ZeroconfDiscovery) (events : list service_event)
    (loop : event_loop) : event_loop :=
  fold_left
    (fun loop ev =>
       async_service_update self (ev_zeroconf ev) (ev_service_type ev)
         (ev_name ev) (ev_state_change ev) loop)
    events loop.

Section Loop.
Context {B : Builtins}.

(** Running one scheduled task: its flows are created whether it returns
    or dies with an exception. *)
Definition run_task (self : ZeroconfDiscovery)
    (task : HaZeroconf * str * str) : list flow :=
  let '(zeroconf, service_type, name) := task in
  fst (_process_service_update self zeroconf service_type name).

(** The loop running every scheduled task. *)
Definition drain (self : ZeroconfDiscovery) (loop : event_loop) : event_loop :=
  {| tasks := [];
     created_flows :=
       created_flows loop ++ flat_map (run_task self) (tasks loop) |}.
End Loop.

(** ** A reference runtime for ASCII text

    An instance of [Builtins] that computes: case mapping of the ASCII
    letters, the decimal syntax of [int] (surrounding white space, a sign,
    digits with single underscores between them) and shell globbing with
    [*], [?] and bracket sets.  It is used to run the engine on concrete
    records. *)

Module Reference.
Definition is_space (c : N) : bool := in_range 9 13 c || (c =? 32)%N.

Fixpoint lstrip (s : str) : str :=
  match s with
  | c :: r => if is_space c then lstrip r else s
  | [] => []
  end.

Definition strip (s : str) : str := rev (lstrip (rev (lstrip s))).

Fixpoint parse_digits (s : str) (acc : Z) (after_digit : bool) : option Z :=
  match s with
  | [] => if after_digit then Some acc else None
  | c :: r =>
      if in_range 48 57 c
      then parse_digits r (acc * 10 + Z.of_N (c - 48))%Z true
      else if (c =? 95)%N && after_digit then parse_digits r acc false
      else None
  end.

Definition int_of_str (s : str) : option Z :=
  match strip s with
  | c :: r =>
      if (c =? 43)%N then parse_digits r 0 false
      else if (c =? 45)%N then option_map Z.opp (parse_digits r 0 false)
      else parse_digits (c :: r) 0 false
  | [] => None
  end.

Inductive token : Type :=
  | Star
  | Any
  | Lit (c : N)
  | Set_ (negated : bool) (stuff : str).

(** The text up to the next ']' and what follows it. *)
Fixpoint until_close (p : str) : option (str * str) :=
  match p with
  | [] => None
  | c :: r =>
      if (c =? 93)%N then Some ([], r)
      else option_map (fun '(body, rest) => (c :: body, rest)) (until_close r)
  end.

Definition bracket (p : str) : option (bool * str * str) :=
  let (negated, p1) :=
    match p with
    | c :: r => if (c =? 33)%N then (true, r) else (false, p)
    | [] => (false, p)
    end in
  let (lead, p2) :=
    match p1 with
    | c :: r => if (c =? 93)%N then ([c], r) else ([], p1)
    | [] => ([], p1)
    end in
  option_map (fun '(body, rest) => (negated, lead ++ body, rest))
             (until_close p2).

Fixpoint tokens (fuel : nat) (p : str) : list token :=
  match fuel, p with
  | S fuel', c :: r =>
      if (c =? 42)%N then Star :: tokens fuel' r
      else if (c =? 63)%N then Any :: tokens fuel' r
      else if (c =? 91)%N then
        match bracket r with
        | Some (negated, stuff, rest) => Set_ negated stuff :: tokens fuel' rest
        | None => Lit c :: tokens fuel' r
        end
      else Lit c :: tokens fuel' r
  | _, _ => []
  end.

Fixpoint in_set (c : N) (stuff : str) : bool :=
  match stuff with
  | [] => false
  | lo :: r =>
      match r with
      | dash :: hi :: r' =>
          if (dash =? 45)%N then in_range lo hi c || in_set c r'
          else (lo =? c)%N || in_set c r
      | _ => (lo =? c)%N || in_set c r
      end
  end.

Fixpoint glob (p : list token) (s : str) : bool :=
  match p with
  | [] => match s with [] => true | _ => false end
  | Star :: p' =>
      (fix skip (s : str) : bool :=
         glob p' s || match s with [] => false | _ :: s' => skip s' end) s
  | Any :: p' => match s with _ :: s' => glob p' s' | [] => false end
  | Lit c :: p' =>
      match s with d :: s' => (c =? d)%N && glob p' s' | [] => false end
  | Set_ negated stuff :: p' =>
      match s with
      | d :: s' => xorb negated (in_set d stuff) && glob p' s'
      | [] => false
      end
  end.

Definition fnmatch (name pat : str) : bool :=
  glob (tokens (List.length pat) pat) name.
End Reference.

#[export] Instance reference_builtins : Builtins := {|
  str_lower := map ascii_lower;
  str_upper := map ascii_upper;
  int_of_str := Reference.int_of_str;
  fnmatch := Reference.fnmatch;
  str_lower_ascii := fun s _ => eq_refl
|}.

Example int_of_str_examples :
  Reference.int_of_str (lit "0") = Some 0%Z
  /\ Reference.int_of_str (lit " 1_0 ") = Some 10%Z
  /\ Reference.int_of_str (lit "-7") = Some (-7)%Z
  /\ Reference.int_of_str (lit "1__0") = None
  /\ Reference.int_of_str (lit "") = None
  /\ Reference.int_of_str (lit "paired") = None.
Proof. repeat split. Qed.

Example fnmatch_examples :
  Reference.fnmatch (lit "acme corp") (lit "acme*") = true
  /\ Reference.fnmatch (lit "best co") (lit "acme*") = false
  /\ Reference.fnmatch (lit "AA:BB:CC") (lit "AA:??:[A-C]C") = true
  /\ Reference.fnmatch (lit "x") (lit "[!a-c]") = true
  /\ Reference.fnmatch (lit "b") (lit "[!a-c]") = false.
Proof. repeat split. Qed.

(** ** Announcing the instance: names and property values *)

Definition MAX_PROPERTY_VALUE_LEN : nat := 230.
Definition MAX_NAME_LEN : nat := 63.

(** The UTF-8 bytes of one code point, as byte values; [None] for a
    surrogate (or a value that is no code point), which makes
    [s.encode("utf-8")] raise [UnicodeEncodeError]. *)
Definition encode_point (c : N) : option (list N) :=
  if (c <? 128)%N then Some [c]
  else if (c <? 2048)%N then Some [192 + c / 64; 128 + c mod 64]%N
  else if (c <? 65536)%N then
    if in_range 55296 57343 c then None
    else Some [224 + c / 4096; 128 + (c / 64) mod 64; 128 + c mod 64]%N
  else if (c <? 1114112)%N then
    Some [240 + c / 262144; 128 + (c / 4096) mod 64;
          128 + (c / 64) mod 64; 128 + c mod 64]%N
  else None.

(** [s.encode("utf-8")] *)
Fixpoint encode_utf8 (s : str) : option (list N) :=
  match s with
  | [] => Some []
  | c :: rest =>
      match encode_point c, encode_utf8 rest with
      | Some head, Some tail => Some (head ++ tail)
      | _, _ => None
      end
  end.

(** The second byte a three-byte or four-byte lead admits. *)
Definition second_of_three (b0 b1 : N) : bool :=
  in_range (if (b0 =? 224)%N then 160 else 128)
           (if (b0 =? 237)%N then 159 else 191) b1.

Definition second_of_four (b0 b1 : N) : bool :=
  in_range (if (b0 =? 240)%N then 144 else 128)
           (if (b0 =? 244)%N then 143 else 191) b1.

(** [b.decode("utf-8", "ignore")] on byte values: an invalid start byte is
    skipped, an invalid continuation byte makes the bytes of the sequence
    read so far skipped and decoding resume at that byte, a sequence cut
    off by the end of the data is dropped. *)
Fixpoint decode_utf8_ignore (b : list N) : str :=
  match b with
  | [] => []
  | b0 :: r0 =>
      if (b0 <? 128)%N then b0 :: decode_utf8_ignore r0
      else if (b0 <? 194)%N then decode_utf8_ignore r0
      else if (b0 <? 224)%N then
        match r0 with
        | [] => []
        | b1 :: r1 =>
            if cont b1
            then (N.land b0 31 * 64 + low6 b1)%N :: decode_utf8_ignore r1
            else decode_utf8_ignore r0
        end
      else if (b0 <? 240)%N then
        match r0 with
        | [] => []
        | b1 :: r1 =>
            if second_of_three b0 b1 then
              match r1 with
              | [] => []
              | b2 :: r2 =>
                  if cont b2
                  then (N.land b0 15 * 4096 + low6 b1 * 64 + low6 b2)%N
                       :: decode_utf8_ignore r2
                  else decode_utf8_ignore r1
              end
            else decode_utf8_ignore r0
        end
      else if (b0 <? 245)%N then
        match r0 with
        | [] => []
        | b1 :: r1 =>
            if second_of_four b0 b1 then
              match r1 with
              | [] => []
              | b2 :: r2 =>
                  if cont b2 then
                    match r2 with
                    | [] => []
                    | b3 :: r3 =>
                        if cont b3
                        then (N.land b0 7 * 262144 + low6 b1 * 4096
                              + low6 b2 * 64 + low6 b3)%N
                             :: decode_utf8_ignore r3
                        else decode_utf8_ignore r2
                    end
                  else decode_utf8_ignore r1
              end
            else decode_utf8_ignore r0
        end
      else decode_utf8_ignore r0
  end.

(** [None] when encoding the name raises. *)
Definition _truncate_location_name_to_valid (location_name : str)
    : option str :=
  match encode_utf8 location_name with
  | None => None
  | Some encoded =>
      if (List.length encoded <? MAX_NAME_LEN)%nat then Some location_name
      else Some (decode_utf8_ignore (firstn MAX_NAME_LEN encoded))
  end.

(** A value of the announced properties: a string, or something else
    (the announcement has the boolean [requires_api_password]). *)
Inductive param : Type :=
  | PStr (s : str)
  | PBool (b : bool).

(** The loop body of [_suppress_invalid_properties]; [None] when encoding
    a value raises. *)
Definition suppress_property (properties : pydict param)
    (item : str * param) : option (pydict param) :=
  let (prop, prop_value) := item in
  match prop_value with
  | PBool _ => Some properties
  | PStr s =>
      match encode_utf8 s with
      | None => None
      | Some encoded =>
          if (MAX_PROPERTY_VALUE_LEN <? List.length encoded)%nat
          then Some (dict_set properties prop (PStr []))
          else Some properties
      end
  end.

Fixpoint suppress_items (properties : pydict param)
    (items : list (str * param)) : option (pydict param) :=
  match items with
  | [] => Some properties
  | item :: rest =>
      match suppress_property properties item with
      | Some properties => suppress_items properties rest
      | None => None
      end
  end.

(** The loop runs over the items the dictionary has when it starts;
    assigning to a key that is present does not disturb the iteration. *)
Definition _suppress_invalid_properties (properties : pydict param)
    : option (pydict param) :=
  suppress_items properties properties.

(** ** Announcing the instance: addresses and the zeroconf arguments *)

(** [addr.is_unspecified]: 0.0.0.0 and ::. *)
Definition is_unspecified (a : ip_addr) : bool :=
  match a with
  | IPv4Address ip => (ip =? 0)%N
  | IPv6Address ip => (ip =? 0)%N
  end.

(** [addr.is_loopback]: 127.0.0.0/8 and ::1. *)
Definition is_loopback (a : ip_addr) : bool :=
  match a with
  | IPv4Address ip => (N.shiftr ip 24 =? 127)%N
  | IPv6Address ip => (ip =? 1)%N
  end.

Definition byte_of_N (n : N) : byte :=
  match Byte.of_N (n mod 256) with
  | Some b => b
  | None => x00
  end.

(** [n.to_bytes(length, "big")] for [n] below [256 ^ length]. *)
Fixpoint to_bytes (length : nat) (n : N) : bytes :=
  match length with
  | O => []
  | S length' => to_bytes length' (n / 256) ++ [byte_of_N n]
  end.

(** [addr.packed] *)
Definition packed_address (a : ip_addr) : bytes :=
  match a with
  | IPv4Address ip => to_bytes 4 ip
  | IPv6Address ip => to_bytes 16 ip
  end.

(** An adapter as the network component reports it; a configured address
    is kept as its text. *)
Module Adapter.
Record t : Type := {
  enabled : bool;
  ipv6 : list str;
  ipv4 : list str
}.
End Adapter.

Inductive IPVersion : Type := V4Only | V6Only | All.

Inductive interface_choice : Type :=
  | InterfaceChoice_Default
  | Interfaces (sources : list str).

Record zc_args : Type := {
  ip_version : IPVersion;
  interfaces : interface_choice
}.

Definition IPVersion_eqb (a b : IPVersion) : bool :=
  match a, b with
  | V4Only, V4Only | V6Only, V6Only | All, All => true
  | _, _ => false
  end.

(** [sys.platform] is neither FreeBSD nor macOS. *)
Definition _async_zc_has_functional_dual_stack (platform : str) : bool :=
  negb (startswith platform (lit "freebsd"))
  && negb (startswith platform (lit "darwin")).

(** Truth value of a list. *)
Definition nonempty {A} (l : list A) : bool :=
  match l with [] => false | _ :: _ => true end.

Section Network.
(** From outside this module: [ipaddress.ip_address] on the text of an
    address, [socket.inet_pton(socket.AF_INET, text)], [addr.is_global],
    and [network.async_only_default_interface_enabled]. *)
Variable ip_address_of_text : str -> result ip_addr.
Variable inet_pton : str -> result bytes.
Variable is_global : ip_addr -> bool.
Variable async_only_default_interface_enabled : list Adapter.t -> bool.

(** The part of [async_setup] that chooses the arguments of the zeroconf
    instance, with the [ipv6] flag handed to the discovery. *)
Definition async_setup_zc_args (platform : str) (adapters : list Adapter.t)
    (enabled_source_ips : list ip_addr) : zc_args * bool :=
  let '(version0, ipv6_0) :=
    if _async_zc_has_functional_dual_stack platform then
      if existsb (fun adapter => Adapter.enabled adapter
                                 && nonempty (Adapter.ipv6 adapter)) adapters
      then (All, true)
      else (V4Only, false)
    else if negb (existsb (fun adapter => Adapter.enabled adapter
                                          && nonempty (Adapter.ipv4 adapter))
                          adapters)
    then (V6Only, true)
    else (V4Only, false) in
  if negb ipv6_0 && async_only_default_interface_enabled adapters
  then ({| ip_version := version0; interfaces := InterfaceChoice_Default |},
        ipv6_0)
  else
    ({| ip_version := version0;
        interfaces :=
          Interfaces
            (map ip_str
               (filter
                  (fun source_ip =>
                     negb (is_loopback source_ip)
                     && negb ((version source_ip =? 6)%N && is_global source_ip)
                     && negb ((version source_ip =? 6)%N
                              && IPVersion_eqb version0 V4Only)
                     && negb ((version source_ip =? 4)%N
                              && IPVersion_eqb version0 V6Only))
                  enabled_source_ips)) |},
     ipv6_0).

(** The inner list of [_get_announced_addresses]: the addresses of the
    enabled adapters, IPv6 before IPv4 within an adapter. *)
Fixpoint parse_all (texts : list str) : result (list ip_addr) :=
  match texts with
  | [] => Returned []
  | text :: rest =>
      rbind (ip_address_of_text text) (fun addr =>
      rbind (parse_all rest) (fun addrs => Returned (addr :: addrs)))
  end.

Definition adapter_addresses (adapters : list Adapter.t)
    : result (list ip_addr) :=
  parse_all
    (flat_map (fun adapter => Adapter.ipv6 adapter ++ Adapter.ipv4 adapter)
              (filter Adapter.enabled adapters)).

(** A Python set is kept as a list without duplicates; the order in which
    the set is iterated is not specified, and nothing proved depends on the
    order chosen here. *)
Definition _get_announced_addresses (adapters : list Adapter.t)
    (first_ip : option bytes) : result (list bytes) :=
  rbind (adapter_addresses adapters) (fun addrs =>
    let addresses :=
      nodup bytes_eq_dec
        (map packed_address
           (filter (fun addr => negb (is_unspecified addr || is_loopback addr))
                   addrs)) in
    match first_ip with
    | Some (b :: r) =>
        Returned ((b :: r) :: remove bytes_eq_dec (b :: r) addresses)
    | _ => Returned addresses
    end).
End Network.

(** ** Announcing the instance: the registered record *)

(** The [AsyncServiceInfo] that is registered. *)
Module Announcement.
Record t : Type := {
  type : str;
  name : str;
  server : str;
  addresses : list bytes;
  port : Z;
  properties : pydict param
}.
End Announcement.

(** Truth value of a string that may be [None]. *)
Definition str_or (a : option str) (b : str) : str :=
  match a with
  | Some (c :: s) => c :: s
  | _ => b
  end.

(** An encoder's error is a [ValueError] ([UnicodeEncodeError] is one of
    its subclasses). *)
Definition encoded_or_raise {A} (o : option A) : result A :=
  match o with
  | Some a => Returned a
  | None => Raised ValueError
  end.

Section Register.
Variable ip_address_of_text : str -> result ip_addr.
Variable inet_pton : str -> result bytes.

(** [external_url] and [internal_url] are what [get_url] returns, [None]
    when it raises [NoURLAvailableError]; [host_ip] is the source address
    found for the mDNS target, if any. *)
Definition _async_register_hass_zc_service
    (location_name : option str) (uuid version : str)
    (external_url internal_url : option str)
    (adapters : list Adapter.t) (host_ip : option str) (server_port : Z)
    : result Announcement.t :=
  rbind (encoded_or_raise
           (_truncate_location_name_to_valid
              (str_or location_name (lit "Home"))))
    (fun valid_location_name =>
  let params : pydict param :=
    [(lit "location_name", PStr valid_location_name);
     (lit "uuid", PStr uuid);
     (lit "version", PStr version);
     (lit "external_url", PStr []);
     (lit "internal_url", PStr []);
     (lit "base_url", PStr []);
     (lit "requires_api_password", PBool true)] in
  let params :=
    match external_url with
    | Some url => dict_set params (lit "external_url") (PStr url)
    | None => params
    end in
  let params :=
    match internal_url with
    | Some url => dict_set params (lit "internal_url") (PStr url)
    | None => params
    end in
  let base_url :=
    match dict_get params (lit "external_url") with
    | Some (PStr (c :: url)) => PStr (c :: url)
    | _ => match dict_get params (lit "internal_url") with
           | Some value => value
           | None => PStr []
           end
    end in
  let params := dict_set params (lit "base_url") base_url in
  rbind (match host_ip with
         | Some (c :: text) => rbind (inet_pton (c :: text))
                                     (fun p => Returned (Some p))
         | _ => Returned None
         end)
    (fun host_ip_pton =>
  rbind (_get_announced_addresses ip_address_of_text adapters host_ip_pton)
    (fun address_list =>
  rbind (encoded_or_raise (_suppress_invalid_properties params))
    (fun params =>
  Returned
    {| Announcement.type := ZEROCONF_TYPE;
       Announcement.name := valid_location_name ++ lit "." ++ ZEROCONF_TYPE;
       Announcement.server := uuid ++ lit ".local.";
       Announcement.addresses := address_list;
       Announcement.port := server_port;
       Announcement.properties := params |})))).
End Register.

(** ** The shared instance *)

(** The zeroconf instance: the keyword arguments it was built with (none
    for a call without arguments) and its place among the instances
    built. *)
Record HaAsyncZeroconf : Type := {
  built_with : option zc_args;
  serial : nat
}.

(** What [_async_get_instance] reads and writes of [hass]: the entry
    [hass.data["zeroconf"]], the instances built so far, and the instances
    a stop listener will close. *)
Record hass_state : Type := {
  data_zeroconf : option HaAsyncZeroconf;
  built : nat;
  stop_listeners : list HaAsyncZeroconf
}.

Definition _async_get_instance (hass : hass_state) (zcargs : option zc_args)
    : HaAsyncZeroconf * hass_state :=
  match data_zeroconf hass with
  | Some aio_zc => (aio_zc, hass)
  | None =>
      let aio_zc := {| built_with := zcargs; serial := built hass |} in
      (aio_zc,
       {| data_zeroconf := Some aio_zc;
          built := S (built hass);
          stop_listeners := stop_listeners hass ++ [aio_zc] |})
  end.

(** [async_get_instance] and [async_get_async_instance] *)
Definition async_get_async_instance (hass : hass_state)
    : HaAsyncZeroconf * hass_state :=
  _async_get_instance hass None.

(** A sequence of calls, each with its arguments. *)
Fixpoint get_instances (hass : hass_state) (calls : list (option zc_args))
    : list HaAsyncZeroconf * hass_state :=
  match calls with
  | [] => ([], hass)
  | zcargs :: rest =>
      let (aio_zc, hass) := _async_get_instance hass zcargs in
      let (others, hass) := get_instances hass rest in
      (aio_zc :: others, hass)
  end.

(** * Properties *)

Unset Implicit Arguments.

Arguments str_eq_dec : simpl never.
Arguments lit : simpl never.
Arguments blit : simpl never.

(** ** Dictionaries and strings *)

Lemma str_eqb_eq (a b : str) : str_eqb a b = true <-> a = b.
Proof.
  unfold str_eqb. destruct (str_eq_dec a b); split; congruence.
Qed.

Lemma str_eqb_neq (a b : str) : str_eqb a b = false <-> a <> b.
Proof.
  unfold str_eqb. destruct (str_eq_dec a b); split; congruence.
Qed.

Lemma dict_get_in_keys V (d : pydict V) k :
  dict_get d k <> None <-> In k (dict_keys d).
Proof.
  induction d as [|[k' v] d IH]; simpl.
  - split; [congruence | tauto].
  - destruct (str_eq_dec k k') as [->|Hne].
    + split; [auto | congruence].
    + rewrite IH. split; [auto | intros [H|H]; congruence || exact H].
Qed.

Lemma dict_in_keys V (d : pydict V) k :
  dict_in k d = true <-> In k (dict_keys d).
Proof.
  rewrite <- dict_get_in_keys. unfold dict_in.
  destruct (dict_get d k); split; congruence.
Qed.

Lemma dict_in_false V (d : pydict V) k :
  dict_in k d = false <-> ~ In k (dict_keys d).
Proof.
  rewrite <- dict_in_keys. destruct (dict_in k d); split; congruence.
Qed.

Lemma dict_get_In V (d : pydict V) k v :
  dict_get d k = Some v -> In (k, v) d.
Proof.
  induction d as [|[k' v'] d IH]; simpl; [congruence|].
  destruct (str_eq_dec k k') as [->|Hne]; intros H.
  - left. congruence.
  - right. auto.
Qed.

Lemma In_dict_get V (d : pydict V) k v :
  NoDup (dict_keys d) -> In (k, v) d -> dict_get d k = Some v.
Proof.
  induction d as [|[k' v'] d IH]; simpl; [tauto|].
  intros Hnd [Heq|Hin]; inversion Hnd as [|? ? Hk Hnd']; subst.
  - inversion Heq; subst. destruct (str_eq_dec k k); congruence.
  - destruct (str_eq_dec k k') as [->|Hne]; [|auto].
    exfalso. apply Hk. change (In (fst (k', v)) (map fst d)).
    apply in_map. exact Hin.
Qed.

Lemma dict_get_set_same V (d : pydict V) k v :
  dict_get (dict_set d k v) k = Some v.
Proof.
  induction d as [|[k' v'] d IH]; simpl.
  - destruct (str_eq_dec k k); congruence.
  - destruct (str_eq_dec k k') as [->|Hne]; simpl.
    + destruct (str_eq_dec k' k'); congruence.
    + destruct (str_eq_dec k k'); congruence.
Qed.

Lemma dict_get_set_other V (d : pydict V) k k' v :
  k' <> k -> dict_get (dict_set d k v) k' = dict_get d k'.
Proof.
  intros Hne. induction d as [|[k0 v0] d IH]; simpl.
  - destruct (str_eq_dec k' k); congruence.
  - destruct (str_eq_dec k k0) as [->|Hk]; simpl.
    + destruct (str_eq_dec k' k0); congruence.
    + destruct (str_eq_dec k' k0); congruence.
Qed.

Lemma startswith_iff (s p : str) :
  startswith s p = true <-> exists rest, s = p ++ rest.
Proof.
  revert s. induction p as [|c p IH]; intros s; simpl.
  - split; [intros _; exists s; reflexivity | intros _; reflexivity].
  - destruct s as [|d s].
    + split; [congruence | intros [rest H]; discriminate].
    + rewrite andb_true_iff, N.eqb_eq, IH. split.
      * intros [-> [rest ->]]. eauto.
      * intros [rest H]. inversion H; subst. eauto.
Qed.

(** ** Start-up: the browsed service types *)

(** C8: the types handed to the browser are the configured types followed
    by those of the host-announcement type and the two HomeKit types that
    are not configured; as a set this is the union of the three, and no
    type is listed twice. *)
Theorem async_setup_types (self : ZeroconfDiscovery) :
  let configured := dict_keys (zeroconf_types self) in
  let types := browser_types (async_setup self) in
  types = configured
          ++ filter (fun t => negb (dict_in t (zeroconf_types self)))
                    (ZEROCONF_TYPE :: HOMEKIT_TYPES)
  /\ (forall t, In t types <->
                In t configured \/ t = ZEROCONF_TYPE \/ In t HOMEKIT_TYPES)
  /\ (NoDup configured -> NoDup types).
Proof.
  intros configured types.
  assert (Htypes : types = configured
            ++ filter (fun t => negb (dict_in t (zeroconf_types self)))
                      (ZEROCONF_TYPE :: HOMEKIT_TYPES)).
  { subst types configured. unfold async_setup, HOMEKIT_TYPES. simpl.
    destruct (dict_in ZEROCONF_TYPE _), (dict_in (lit "_hap._tcp.local.") _),
      (dict_in (lit "_hap._udp.local.") _); simpl;
      repeat rewrite <- app_assoc; simpl; rewrite ?app_nil_r; reflexivity. }
  split; [exact Htypes|]. rewrite Htypes. split.
  - intros t. rewrite in_app_iff, filter_In, negb_true_iff, dict_in_false.
    fold configured. simpl. split.
    + intros [H|[[H|[H|[H|[]]]] _]]; auto.
    + intros H. destruct (in_dec str_eq_dec t configured) as [Hin|Hout];
        [left; exact Hin|right]. split; [|exact Hout].
      destruct H as [H|[H|[H|[H|[]]]]]; auto; contradiction.
  - intros Hnd. apply NoDup_app; [exact Hnd| |].
    + apply NoDup_filter. unfold ZEROCONF_TYPE, HOMEKIT_TYPES.
      repeat constructor; simpl; intuition discriminate.
    + intros t Hin Hin'. apply filter_In in Hin'.
      destruct Hin' as [_ Hf]. apply negb_true_iff, dict_in_false in Hf.
      exact (Hf Hin).
Qed.

Lemma async_setup_types_witness :
  browser_types
    (async_setup {| zeroconf_types := [(lit "_hap._tcp.local.", []);
                                       (lit "_ipp._tcp.local.", [])];
                    homekit_models := []; ipv6 := true |})
  = [lit "_hap._tcp.local."; lit "_ipp._tcp.local.";
     lit "_home-assistant._tcp.local."; lit "_hap._udp.local."].
Proof.
  rewrite (proj1 (async_setup_types _)). reflexivity.
Defined.

(** ** The listener's handler *)

Definition not_removed (ev : service_event) : bool :=
  negb (ServiceStateChange_eqb (ev_state_change ev) Removed).

Definition task_of (ev : service_event) : HaZeroconf * str * str :=
  (ev_zeroconf ev, ev_service_type ev, ev_name ev).

Lemma deliver_app self evs1 evs2 loop :
  deliver self (evs1 ++ evs2) loop = deliver self evs2 (deliver self evs1 loop).
Proof. unfold deliver. apply fold_left_app. Qed.

Lemma deliver_tasks self events loop :
  deliver self events loop
  = {| tasks := tasks loop ++ map task_of (filter not_removed events);
       created_flows := created_flows loop |}.
Proof.
  revert loop. induction events as [|ev events IH]; intros loop.
  - simpl. rewrite app_nil_r. destruct loop; reflexivity.
  - change (deliver self (ev :: events) loop)
      with (deliver self events
              (async_service_update self (ev_zeroconf ev) (ev_service_type ev)
                 (ev_name ev) (ev_state_change ev) loop)).
    rewrite IH. unfold async_service_update. simpl. unfold not_removed at 2.
    destruct (ServiceStateChange_eqb (ev_state_change ev) Removed); simpl.
    + reflexivity.
    + rewrite <- app_assoc. reflexivity.
Qed.

(** C7: a Removed event leaves the loop as it found it, whatever was
    delivered before: no task is scheduled for it and no flow is created.
    The tasks scheduled by a sequence of events are those of its events that
    are not removals, delivery itself creates no flow, and running the loop
    creates the same flows as for the sequence without its removals. *)
Theorem removed_events_are_ignored {B : Builtins} (self : ZeroconfDiscovery)
    (events : list service_event) (loop : event_loop) :
  (forall zeroconf service_type name,
      async_service_update self zeroconf service_type name Removed
        (deliver self events loop)
      = deliver self events loop)
  /\ tasks (deliver self events loop)
     = tasks loop ++ map task_of (filter not_removed events)
  /\ created_flows (deliver self events loop) = created_flows loop
  /\ deliver self events loop = deliver self (filter not_removed events) loop
  /\ drain self (deliver self events loop)
     = drain self (deliver self (filter not_removed events) loop).
Proof.
  assert (Heq : deliver self events loop
                = deliver self (filter not_removed events) loop).
  { rewrite (deliver_tasks self events), (deliver_tasks self (filter _ _)).
    f_equal. f_equal. f_equal. symmetry.
    induction events as [|ev events IH]; simpl; [reflexivity|].
    destruct (not_removed ev) eqn:E; simpl; rewrite ?E, IH; reflexivity. }
  split; [|split; [|split; [|split]]].
  - reflexivity.
  - rewrite deliver_tasks. reflexivity.
  - rewrite deliver_tasks. reflexivity.
  - exact Heq.
  - rewrite <- Heq. reflexivity.
Qed.

(** ** The HomeKit classifier *)

Lemma in_range_iff lo hi x : in_range lo hi x = true <-> (lo <= x <= hi)%N.
Proof.
  unfold in_range. rewrite andb_true_iff, !N.leb_le. tauto.
Qed.

Lemma ascii_lower_inv (c x : N) :
  ~ (65 <= x <= 90)%N ->
  ascii_lower c = x <-> c = x \/ (c = x - 32 /\ 97 <= x <= 122)%N.
Proof.
  intros Hx. unfold ascii_lower.
  destruct (in_range 65 90 c) eqn:E.
  - apply in_range_iff in E. lia.
  - assert (~ (65 <= c <= 90)%N) by (rewrite <- in_range_iff; congruence). lia.
Qed.

(** On an ASCII key, lower-casing to ["md"] means being one of its four
    spellings. *)
Lemma lower_is_md {B : Builtins} (key : str) :
  is_ascii key ->
  str_lower key = HOMEKIT_MODEL
  <-> In key [lit "md"; lit "Md"; lit "mD"; lit "MD"].
Proof.
  intros Hascii. rewrite (str_lower_ascii Hascii).
  change HOMEKIT_MODEL with [109; 100]%N.
  change [lit "md"; lit "Md"; lit "mD"; lit "MD"]
    with [[109; 100]; [77; 100]; [109; 68]; [77; 68]]%N.
  split.
  - destruct key as [|a [|b [|c key]]]; simpl; try discriminate.
    intros H. injection H as Ha Hb.
    apply ascii_lower_inv in Ha; [|lia]. apply ascii_lower_inv in Hb; [|lia].
    assert (Ha' : a = 109%N \/ a = 77%N) by lia.
    assert (Hb' : b = 100%N \/ b = 68%N) by lia.
    destruct Ha' as [-> | ->], Hb' as [-> | ->]; auto.
  - simpl. intros [<-|[<-|[<-|[<-|[]]]]]; reflexivity.
Qed.

Section Classifier.
Context {B : Builtins}.

(** The advertised model matches a table entry. *)
Definition advertised_matches (model test_model : str) : Prop :=
  model = test_model
  \/ (exists rest, model = test_model ++ lit " " ++ rest)
  \/ (exists rest, model = test_model ++ lit "-" ++ rest)
  \/ fnmatch model test_model = true.

Lemma model_differs_false model test_model :
  model_differs model test_model = false <-> advertised_matches model test_model.
Proof.
  unfold model_differs, advertised_matches.
  assert (Hpre : forall sep, startswith model (test_model ++ sep) = true
                  <-> exists rest, model = test_model ++ sep ++ rest).
  { intros sep. rewrite startswith_iff.
    split; intros [rest H]; exists rest; rewrite H;
      [symmetry|]; apply app_assoc. }
  rewrite <- 2!Hpre.
  destruct (str_eqb model test_model) eqn:E1;
    [apply str_eqb_eq in E1 | apply str_eqb_neq in E1];
    destruct (startswith model (test_model ++ lit " "));
    destruct (startswith model (test_model ++ lit "-"));
    destruct (fnmatch model test_model); simpl; intuition congruence.
Qed.

Lemma model_differs_true model test_model :
  model_differs model test_model = true <-> ~ advertised_matches model test_model.
Proof.
  rewrite <- model_differs_false.
  destruct (model_differs model test_model); split; congruence.
Qed.

Lemma find_model_none props :
  (forall key value, In (key, value) props -> str_lower key <> HOMEKIT_MODEL) ->
  find_model props = None.
Proof.
  induction props as [|[key value] props IH]; simpl; intros H; [reflexivity|].
  destruct (str_eqb (str_lower key) HOMEKIT_MODEL) eqn:E.
  - apply str_eqb_eq in E. exfalso. exact (H key value (or_introl eq_refl) E).
  - apply IH. intros k v Hin. apply (H k v). right. exact Hin.
Qed.

Lemma find_model_first before key value after :
  (forall k v, In (k, v) before -> str_lower k <> HOMEKIT_MODEL) ->
  str_lower key = HOMEKIT_MODEL ->
  find_model (before ++ (key, value) :: after) = Some value.
Proof.
  intros Hbefore Hkey.
  induction before as [|[k v] before IH]; simpl.
  - apply str_eqb_eq in Hkey. rewrite Hkey. reflexivity.
  - destruct (str_eqb (str_lower k) HOMEKIT_MODEL) eqn:E.
    + apply str_eqb_eq in E. exfalso.
      exact (Hbefore k v (or_introl eq_refl) E).
    + apply IH. intros k' v' Hin. apply (Hbefore k' v'). right. exact Hin.
Qed.

Lemma scan_models_some model homekit_models domain :
  scan_models model homekit_models = Some domain
  <-> exists earlier test_model later,
        homekit_models = earlier ++ (test_model, domain) :: later
        /\ (forall t d, In (t, d) earlier -> ~ advertised_matches model t)
        /\ advertised_matches model test_model.
Proof.
  induction homekit_models as [|[t d] models IH]; simpl.
  - split; [discriminate|]. intros (earlier & ? & ? & H & _).
    destruct earlier; discriminate.
  - destruct (model_differs model t) eqn:E.
    + apply model_differs_true in E. rewrite IH. split.
      * intros (earlier & tm & later & -> & Hearlier & Hm).
        exists ((t, d) :: earlier), tm, later. split; [reflexivity|].
        split; [|exact Hm]. intros t' d' [Heq|Hin].
        -- inversion Heq; subst. exact E.
        -- exact (Hearlier t' d' Hin).
      * intros (earlier & tm & later & Heq & Hearlier & Hm).
        destruct earlier as [|e earlier]; simpl in Heq; inversion Heq; subst.
        -- contradiction.
        -- exists earlier, tm, later. split; [reflexivity|].
           split; [|exact Hm]. intros t' d' Hin. apply (Hearlier t' d').
           right. exact Hin.
    + apply model_differs_false in E. split.
      * intros H. inversion H; subst. exists [], t, models.
        split; [reflexivity|]. split; [intros ? ? []|exact E].
      * intros (earlier & tm & later & Heq & Hearlier & Hm).
        destruct earlier as [|e earlier]; simpl in Heq; inversion Heq; subst.
        -- reflexivity.
        -- exfalso. exact (Hearlier t d (or_introl eq_refl) E).
Qed.

Lemma scan_models_none model homekit_models :
  scan_models model homekit_models = None
  <-> forall t d, In (t, d) homekit_models -> ~ advertised_matches model t.
Proof.
  induction homekit_models as [|[t d] models IH]; simpl.
  - split; [intros _ ? ? []|reflexivity].
  - destruct (model_differs model t) eqn:E.
    + apply model_differs_true in E. rewrite IH. split.
      * intros H t' d' [Heq|Hin]; [inversion Heq; subst; exact E|eauto].
      * intros H t' d' Hin. apply (H t' d'). right. exact Hin.
    + apply model_differs_false in E. split; [discriminate|].
      intros H. exfalso. exact (H t d (or_introl eq_refl) E).
Qed.

(** C6: the model is the value under the first property key whose
    lower-cased form is ["md"] (on an ASCII key: one of the spellings md,
    Md, mD, MD); without such a key there is no match.  With the model
    found, the classifier returns a domain exactly when that domain belongs
    to the first table entry, in registration order, that the model equals,
    or extends after a space or a hyphen, or matches as a glob pattern; it
    returns no match when no entry is such. *)
Theorem homekit_discovery_domain (homekit_models : pydict str)
    (props : pydict pyval) :
  (forall key, is_ascii key ->
     (str_lower key = HOMEKIT_MODEL
      <-> In key [lit "md"; lit "Md"; lit "mD"; lit "MD"]))
  /\ ((forall key value, In (key, value) props ->
         str_lower key <> HOMEKIT_MODEL) ->
      async_get_homekit_discovery_domain homekit_models props = Returned None)
  /\ (forall before key model after,
        props = before ++ (key, VStr model) :: after ->
        (forall k v, In (k, v) before -> str_lower k <> HOMEKIT_MODEL) ->
        str_lower key = HOMEKIT_MODEL ->
        (forall domain,
           async_get_homekit_discovery_domain homekit_models props
           = Returned (Some domain)
           <-> exists earlier test_model later,
                 homekit_models = earlier ++ (test_model, domain) :: later
                 /\ (forall t d, In (t, d) earlier ->
                       ~ advertised_matches model t)
                 /\ advertised_matches model test_model)
        /\ (async_get_homekit_discovery_domain homekit_models props
            = Returned None
            <-> forall t d, In (t, d) homekit_models ->
                  ~ advertised_matches model t)).
Proof.
  split; [intros key; apply lower_is_md|]. split.
  - intros H. unfold async_get_homekit_discovery_domain.
    rewrite (find_model_none props H). reflexivity.
  - intros before key model after -> Hbefore Hkey.
    unfold async_get_homekit_discovery_domain.
    rewrite (find_model_first _ _ _ after Hbefore Hkey). split.
    + intros domain. rewrite <- scan_models_some.
      split; [intros H; inversion H; reflexivity | intros ->; reflexivity].
    + rewrite <- scan_models_none.
      split; [intros H; inversion H; reflexivity | intros ->; reflexivity].
Qed.
End Classifier.

(** ** The matcher *)

(** Apart from ["_raw"], the typed bag holds strings. *)
Definition typed_bag (props : pydict pyval) : Prop :=
  forall k v, dict_get props k = Some v -> k <> lit "_raw" ->
              exists s, v = VStr s.

(** The string stored under [k], if any. *)
Definition str_prop (props : pydict pyval) (k : str) : option str :=
  match dict_get props k with
  | Some (VStr s) => Some s
  | _ => None
  end.

Section Matcher.
Context {B : Builtins}.

(** The record's fields after case normalization. *)
Definition normalized_fields (info : ZeroconfServiceInfo.t) : fields :=
  let props := ZeroconfServiceInfo.properties info in
  {| uppercase_mac := option_map str_upper (str_prop props (lit "macaddress"));
     lowercase_name := Some (str_lower (ZeroconfServiceInfo.name info));
     lowercase_manufacturer :=
       option_map str_lower (str_prop props (lit "manufacturer"));
     lowercase_model := option_map str_lower (str_prop props (lit "model")) |}.

(** The filter keys of a rule, each with the field it is matched against. *)
Definition filters (f : fields) : list (str * option str) :=
  [(lit "macaddress", uppercase_mac f);
   (lit "name", lowercase_name f);
   (lit "manufacturer", lowercase_manufacturer f);
   (lit "model", lowercase_model f)].

(** Every filter the rule has finds its field in the record and matches it. *)
Definition filters_pass (f : fields) (matcher : pydict str) : Prop :=
  forall k field pattern,
    In (k, field) (filters f) ->
    dict_get matcher k = Some pattern ->
    exists value, field = Some value /\ fnmatch value pattern = true.

Definition domain_of (matcher : pydict str) : str :=
  match dict_get matcher (lit "domain") with
  | Some domain => domain
  | None => []
  end.

Definition generic_flow (info : ZeroconfServiceInfo.t) (matcher : pydict str)
    : flow :=
  {| flow_domain := domain_of matcher; flow_source := SOURCE_ZEROCONF;
     flow_info := info |}.

Lemma normalized_typed props k f :
  typed_bag props -> k <> lit "_raw" ->
  normalized props k f = Returned (option_map f (str_prop props k)).
Proof.
  intros Hbag Hk. unfold normalized, str_prop.
  destruct (dict_get props k) as [v|] eqn:E; [|reflexivity].
  destruct (Hbag k v E Hk) as [s ->]. reflexivity.
Qed.

Lemma fields_of_typed info :
  typed_bag (ZeroconfServiceInfo.properties info) ->
  fields_of info = Returned (normalized_fields info).
Proof.
  intros Hbag. unfold fields_of.
  rewrite !(normalized_typed _ _ _ Hbag) by discriminate. reflexivity.
Qed.

Lemma filter_fails_false matcher k field :
  filter_fails matcher k field = false
  <-> forall pattern, dict_get matcher k = Some pattern ->
        exists value, field = Some value /\ fnmatch value pattern = true.
Proof.
  unfold filter_fails. destruct (dict_get matcher k) as [pattern|].
  - destruct field as [value|].
    + rewrite negb_false_iff. split.
      * intros H p Hp. inversion Hp; subst. eauto.
      * intros H. destruct (H pattern eq_refl) as (v & Hv & Hm).
        inversion Hv; subst. exact Hm.
    + split; [discriminate|]. intros H.
      destruct (H pattern eq_refl) as (v & Hv & _). discriminate.
  - split; [discriminate|reflexivity].
Qed.

Lemma filters_pass_iff f matcher :
  filters_pass f matcher
  <-> filter_fails matcher (lit "macaddress") (uppercase_mac f) = false
      /\ filter_fails matcher (lit "name") (lowercase_name f) = false
      /\ filter_fails matcher (lit "manufacturer") (lowercase_manufacturer f)
         = false
      /\ filter_fails matcher (lit "model") (lowercase_model f) = false.
Proof.
  rewrite !filter_fails_false. unfold filters_pass, filters. split.
  - intros H. repeat split; intros pattern Hp;
      (eapply H; [|exact Hp]); simpl; auto.
  - intros (H1 & H2 & H3 & H4) k field pattern Hin Hp.
    simpl in Hin. destruct Hin as [E|[E|[E|[E|[]]]]]; inversion E; subst; auto.
Qed.

Lemma lone_domain (matcher : pydict str) k :
  dict_in (lit "domain") matcher = true ->
  (1 <? List.length matcher)%nat = false ->
  k <> lit "domain" -> dict_get matcher k = None.
Proof.
  intros Hd Hlen Hk. apply Nat.ltb_ge in Hlen. unfold dict_in in Hd.
  destruct matcher as [|[k0 v0] [|e matcher]]; simpl in *;
    try lia; try discriminate.
  destruct (str_eq_dec (lit "domain") k0) as [<-|Hne]; [|discriminate].
  destruct (str_eq_dec k (lit "domain")); congruence.
Qed.

Lemma rule_matches_iff f matcher :
  dict_in (lit "domain") matcher = true ->
  rule_matches f matcher = true <-> filters_pass f matcher.
Proof.
  intros Hd. rewrite filters_pass_iff. unfold rule_matches.
  destruct (1 <? List.length matcher)%nat eqn:Hlen.
  - destruct (filter_fails matcher (lit "macaddress") _),
      (filter_fails matcher (lit "name") _),
      (filter_fails matcher (lit "manufacturer") _),
      (filter_fails matcher (lit "model") _); intuition congruence.
  - unfold filter_fails.
    rewrite !(lone_domain matcher _ Hd Hlen) by discriminate. tauto.
Qed.

Lemma rule_without_filters f matcher :
  (forall k field, In (k, field) (filters f) -> dict_get matcher k = None) ->
  rule_matches f matcher = true.
Proof.
  intros H. unfold rule_matches, filter_fails.
  rewrite (H (lit "macaddress") (uppercase_mac f)) by (simpl; auto).
  rewrite (H (lit "name") (lowercase_name f)) by (simpl; auto).
  rewrite (H (lit "manufacturer") (lowercase_manufacturer f)) by (simpl; auto).
  rewrite (H (lit "model") (lowercase_model f)) by (simpl; auto).
  destruct (1 <? List.length matcher)%nat; reflexivity.
Qed.

Lemma match_rules_flows info f matchers :
  (forall matcher, In matcher matchers ->
     dict_in (lit "domain") matcher = true) ->
  match_rules info f matchers
  = (map (generic_flow info) (filter (rule_matches f) matchers), Returned tt).
Proof.
  induction matchers as [|matcher matchers IH]; intros Hd; [reflexivity|].
  simpl. rewrite IH by (intros m Hm; apply Hd; right; exact Hm).
  destruct (rule_matches f matcher); [|reflexivity].
  specialize (Hd matcher (or_introl eq_refl)).
  simpl. unfold dict_item, generic_flow at 2, domain_of. unfold dict_in in Hd.
  destruct (dict_get matcher (lit "domain")); [reflexivity|discriminate].
Qed.

(** C5: the record is matched on its upper-cased MAC address and its
    lower-cased name, manufacturer and model.  A rule without filter keys
    matches; a rule (with its target domain) matches exactly when each
    filter it has finds the field in the record and its pattern matches the
    normalized value, so a filter on an absent field fails the rule.
    Generic matching creates one flow per matching rule of the record's
    service type, in rule order, domains repeated as the rules repeat them. *)
Theorem generic_matching (self : ZeroconfDiscovery) (service_type : str)
    (info : ZeroconfServiceInfo.t) :
  typed_bag (ZeroconfServiceInfo.properties info) ->
  (forall matcher, In matcher (rules_for self service_type) ->
     dict_in (lit "domain") matcher = true) ->
  let f := normalized_fields info in
  fields_of info = Returned f
  /\ (forall matcher,
        (forall k field, In (k, field) (filters f) ->
                         dict_get matcher k = None) ->
        rule_matches f matcher = true)
  /\ (forall matcher, In matcher (rules_for self service_type) ->
        (rule_matches f matcher = true <-> filters_pass f matcher))
  /\ generic_dispatch self service_type info
     = (map (generic_flow info)
            (filter (rule_matches f) (rules_for self service_type)),
        Returned tt).
Proof.
  intros Hbag Hd f. split; [apply fields_of_typed; exact Hbag|].
  split; [apply rule_without_filters|].
  split; [intros matcher Hin; apply rule_matches_iff, Hd, Hin|].
  unfold generic_dispatch. rewrite (fields_of_typed info Hbag).
  apply match_rules_flows. exact Hd.
Qed.
End Matcher.

(** ** The normalizer: address selection *)

(** A candidate the scan passes over: a link-local IPv4 address. *)
Definition link_local_v4 (address : bytes) : Prop :=
  exists ip, ip_address address = Returned ip
             /\ version ip = 4%N /\ is_link_local ip = true.

(** A candidate the scan stops at: IPv6, or not link-local. *)
Definition usable (address : bytes) (ip : ip_addr) : Prop :=
  ip_address address = Returned ip
  /\ (version ip = 6%N \/ is_link_local ip = false).

(** [address] is the first usable candidate of [addresses]. *)
Definition first_usable (addresses : list bytes) (ip : ip_addr) : Prop :=
  exists before address after,
    addresses = before ++ address :: after
    /\ Forall link_local_v4 before
    /\ usable address ip.

Lemma scan_test ip :
  negb (is_link_local ip) || (version ip =? 6)%N = false
  <-> version ip = 4%N /\ is_link_local ip = true.
Proof.
  destruct (is_link_local ip); destruct ip as [n|n]; cbn [version];
    change (4 =? 6)%N with false; change (6 =? 6)%N with true;
    cbn [negb orb]; split; (intros [? ?] || intros ?); try split;
    congruence.
Qed.

Lemma scan_test_true ip :
  negb (is_link_local ip) || (version ip =? 6)%N = true
  <-> version ip = 6%N \/ is_link_local ip = false.
Proof.
  destruct (is_link_local ip); destruct ip as [n|n]; cbn [version];
    change (4 =? 6)%N with false; change (6 =? 6)%N with true;
    cbn [negb orb]; split; auto; intros [?|?]; congruence.
Qed.

Lemma first_address_some addresses host :
  _first_non_link_local_or_v6_address addresses = Returned (Some host)
  <-> exists ip, first_usable addresses ip /\ host = ip_str ip.
Proof.
  induction addresses as [|address rest IH]; simpl.
  - split; [discriminate|].
    intros (ip & (before & a & after & H & _) & _). destruct before; discriminate.
  - destruct (ip_address address) as [ip|e] eqn:Hip; simpl.
    + destruct (negb (is_link_local ip) || (version ip =? 6)%N) eqn:Htest.
      * assert (Huse : usable address ip).
        { split; [exact Hip|]. apply scan_test_true. exact Htest. }
        split.
        -- intros H. inversion H; subst. exists ip. split; [|reflexivity].
           exists [], address, rest. auto.
        -- intros (ip' & (before & a & after & Heq & Hbefore & Ha) & ->).
           destruct before as [|b before]; simpl in Heq; inversion Heq; subst.
           ++ destruct Ha as [Ha _]. congruence.
           ++ inversion Hbefore as [|? ? (ip2 & Hip2 & Hv & Hl) _]; subst.
              assert (ip2 = ip) by congruence. subst ip2.
              assert (Hf : negb (is_link_local ip) || (version ip =? 6)%N = false)
                by (apply scan_test; auto).
              congruence.
      * apply scan_test in Htest. rewrite IH. split.
        -- intros (ip' & (before & a & after & -> & Hbefore & Ha) & ->).
           exists ip'. split; [|reflexivity].
           exists (address :: before), a, after. split; [reflexivity|].
           split; [|exact Ha]. constructor; [|exact Hbefore].
           exists ip. tauto.
        -- intros (ip' & (before & a & after & Heq & Hbefore & Ha) & ->).
           exists ip'. split; [|reflexivity].
           destruct before as [|b before]; simpl in Heq; inversion Heq; subst.
           ++ destruct Ha as [Ha [Hv|Hl]];
                assert (ip' = ip) by congruence; subst; destruct Htest; congruence.
           ++ exists before, a, after. inversion Hbefore; subst. auto.
    + split; [discriminate|].
      intros (ip' & (before & a & after & Heq & Hbefore & Ha) & _).
      destruct before as [|b before]; simpl in Heq; inversion Heq; subst.
      * destruct Ha as [Ha _]. congruence.
      * inversion Hbefore as [|? ? (ip2 & Hip2 & _) _]; subst. congruence.
Qed.

Lemma first_address_none addresses :
  _first_non_link_local_or_v6_address addresses = Returned None
  <-> Forall link_local_v4 addresses.
Proof.
  induction addresses as [|address rest IH]; simpl.
  - split; [constructor|reflexivity].
  - destruct (ip_address address) as [ip|e] eqn:Hip; simpl.
    + destruct (negb (is_link_local ip) || (version ip =? 6)%N) eqn:Htest.
      * split; [discriminate|]. intros H.
        inversion H as [|? ? (ip2 & Hip2 & Hv & Hl) _]; subst.
        assert (ip2 = ip) by congruence. subst ip2.
        assert (Hf : negb (is_link_local ip) || (version ip =? 6)%N = false)
          by (apply scan_test; auto).
        congruence.
      * rewrite IH. apply scan_test in Htest. split.
        -- intros H. constructor; [exists ip; tauto|exact H].
        -- intros H. inversion H; subst. assumption.
    + split; [discriminate|]. intros H.
      inversion H as [|? ? (ip2 & Hip2 & _) _]; subst. congruence.
Qed.

(** The decoded property bags of a record. *)
Definition decoded (service : AsyncServiceInfo.t) : result (pydict pyval) :=
  decode_properties [(lit "_raw", VDict [])]
                    (AsyncServiceInfo.properties service).

Lemma info_from_service_some service info :
  info_from_service service = Returned (Some info)
  <-> exists props ip,
        decoded service = Returned props
        /\ first_usable (AsyncServiceInfo.addresses service) ip
        /\ info = {| ZeroconfServiceInfo.host := ip_str ip;
                     ZeroconfServiceInfo.port := AsyncServiceInfo.port service;
                     ZeroconfServiceInfo.hostname := AsyncServiceInfo.server service;
                     ZeroconfServiceInfo.type := AsyncServiceInfo.type service;
                     ZeroconfServiceInfo.name := AsyncServiceInfo.name service;
                     ZeroconfServiceInfo.properties := props |}.
Proof.
  unfold info_from_service. fold (decoded service).
  destruct (decoded service) as [props|e]; cbn [rbind].
  2:{ split; [discriminate|]. intros (? & ? & H & _). discriminate. }
  destruct (AsyncServiceInfo.addresses service) as [|a rest] eqn:Ha.
  - split; [discriminate|].
    intros (? & ip & _ & (before & ? & ? & H & _) & _). destruct before; discriminate.
  - destruct (_first_non_link_local_or_v6_address (a :: rest)) as [[host|]|e] eqn:E;
      cbn [rbind].
    + apply first_address_some in E. destruct E as (ip & Hip & ->). split.
      * intros H. inversion H; subst. exists props, ip.
        split; [reflexivity|]. split; [exact Hip|reflexivity].
      * intros (props' & ip' & Hp & Hip' & ->). inversion Hp; subst props'.
        assert (Hsame : Returned (Some (ip_str ip')) = Returned (Some (ip_str ip))).
        { rewrite <- (proj2 (first_address_some (a :: rest) (ip_str ip'))) by eauto.
          apply first_address_some. eauto. }
        inversion Hsame as [Hs]. rewrite Hs. reflexivity.
    + split; [discriminate|]. intros (? & ip & _ & Hip & _).
      assert (H : _first_non_link_local_or_v6_address (a :: rest)
                  = Returned (Some (ip_str ip)))
        by (apply first_address_some; eauto).
      congruence.
    + split; [discriminate|]. intros (? & ip & _ & Hip & _).
      assert (H : _first_non_link_local_or_v6_address (a :: rest)
                  = Returned (Some (ip_str ip)))
        by (apply first_address_some; eauto).
      congruence.
Qed.

Lemma info_from_service_none service props :
  decoded service = Returned props ->
  Forall link_local_v4 (AsyncServiceInfo.addresses service) ->
  info_from_service service = Returned None.
Proof.
  intros Hp Hall. unfold info_from_service. fold (decoded service).
  rewrite Hp. cbn [rbind].
  destruct (AsyncServiceInfo.addresses service) as [|a rest]; [reflexivity|].
  apply first_address_none in Hall. rewrite Hall. reflexivity.
Qed.

Lemma first_usable_excludes addresses ip :
  first_usable addresses ip -> ~ Forall link_local_v4 addresses.
Proof.
  intros (before & a & after & -> & _ & Ha & Hu) Hall.
  apply Forall_app in Hall. destruct Hall as [_ Hall].
  inversion Hall as [|? ? (ip2 & Hip2 & Hv & Hl) _]; subst.
  assert (ip2 = ip) by congruence. subst.
  destruct Hu; congruence.
Qed.

(** The normalizer and the list that [service.addresses] returns: a
    ServiceInfo has as host the first address of that list the scan stops
    at, every address before it being link-local IPv4; when the properties
    decode and there is such an address, that ServiceInfo is returned.  With
    an empty list, or link-local IPv4 addresses only, no ServiceInfo is
    produced.  The list holds the IPv4 candidates of the record only. *)
Lemma host_from_service_addresses (service : AsyncServiceInfo.t) :
  (forall info,
     info_from_service service = Returned (Some info) ->
     exists ip, first_usable (AsyncServiceInfo.addresses service) ip
                /\ ZeroconfServiceInfo.host info = ip_str ip)
  /\ (forall props ip,
        decoded service = Returned props ->
        first_usable (AsyncServiceInfo.addresses service) ip ->
        exists info, info_from_service service = Returned (Some info)
                     /\ ZeroconfServiceInfo.host info = ip_str ip)
  /\ (Forall link_local_v4 (AsyncServiceInfo.addresses service) ->
        (forall info, info_from_service service <> Returned (Some info))
        /\ (forall props, decoded service = Returned props ->
                          info_from_service service = Returned None)).
Proof.
  split; [|split].
  - intros info H. apply info_from_service_some in H.
    destruct H as (props & ip & _ & Hip & ->). exists ip. auto.
  - intros props ip Hp Hip. eexists. split.
    + apply info_from_service_some. exists props, ip. eauto.
    + reflexivity.
  - intros Hall. split.
    + intros info H. apply info_from_service_some in H.
      destruct H as (_ & ip & _ & Hip & _).
      exact (first_usable_excludes _ _ Hip Hall).
    + intros props Hp. exact (info_from_service_none service props Hp Hall).
Qed.

(** ** The normalizer: property decoding *)

Lemma to_N_inj (a b : byte) : Byte.to_N a = Byte.to_N b -> a = b.
Proof.
  intros H. assert (E : Some a = Some b)
    by (rewrite <- (Byte.of_to_N a), <- (Byte.of_to_N b), H; reflexivity).
  congruence.
Qed.

Lemma decode_ascii_returned key k :
  decode_ascii key = Returned k -> k = map Byte.to_N key.
Proof.
  unfold decode_ascii. destruct (forallb _ key); congruence.
Qed.

Lemma decode_ascii_inj key key' k :
  decode_ascii key = Returned k -> decode_ascii key' = Returned k -> key = key'.
Proof.
  intros H H'. apply decode_ascii_returned in H, H'. subst k.
  revert key' H'. induction key as [|a key IH]; intros [|b key'] E;
    simpl in E; try discriminate; [reflexivity|].
  injection E as Ea E. f_equal; [apply to_N_inj; exact Ea | apply IH; exact E].
Qed.

Lemma decode_ascii_is_ascii key k : decode_ascii key = Returned k -> is_ascii k.
Proof.
  unfold decode_ascii. destruct (forallb _ key) eqn:E; [|discriminate].
  intros H. inversion H; subst. unfold is_ascii.
  rewrite forallb_forall in E. apply Forall_forall. intros c Hc.
  apply in_map_iff in Hc. destruct Hc as (b & <- & Hb).
  apply N.ltb_lt. exact (E b Hb).
Qed.

Lemma decode_ascii_raw key :
  decode_ascii key = Returned (lit "_raw") -> key = blit "_raw".
Proof.
  intros H. apply (decode_ascii_inj _ _ _ H). reflexivity.
Qed.

(** The typed value of a property: its UTF-8 decoding when the value is
    [bytes] and decodes. *)
Definition typed_value (value : option bytes) : option pyval :=
  match value with
  | Some b =>
      match decode_utf8 b with
      | Returned s => Some (VStr s)
      | Raised _ => None
      end
  | None => None
  end.

Lemma store_property_skip props key value :
  (forall k, decode_ascii key <> Returned k) ->
  store_property props (key, value) = Returned props.
Proof.
  intros H. unfold store_property.
  destruct (decode_ascii key) as [k|e]; [|reflexivity].
  exfalso. exact (H k eq_refl).
Qed.

Lemma store_property_step props raw key value k :
  dict_get props (lit "_raw") = Some (VDict raw) ->
  decode_ascii key = Returned k ->
  k <> lit "_raw" ->
  exists props',
    store_property props (key, value) = Returned props'
    /\ dict_get props' (lit "_raw") = Some (VDict (dict_set raw k value))
    /\ dict_get props' k
       = match typed_value value with
         | Some v => Some v
         | None => dict_get props k
         end
    /\ (forall k', k' <> k -> k' <> lit "_raw" ->
                   dict_get props' k' = dict_get props k').
Proof.
  intros Hraw Hk Hne. unfold store_property. rewrite Hk, Hraw.
  unfold typed_value.
  destruct value as [b|]; [destruct (decode_utf8 b) as [s|e]|];
    eexists; (split; [reflexivity|]).
  - split; [|split].
    + rewrite dict_get_set_other by congruence. apply dict_get_set_same.
    + apply dict_get_set_same.
    + intros k' H1 H2. rewrite !dict_get_set_other by assumption. reflexivity.
  - split; [|split].
    + apply dict_get_set_same.
    + rewrite dict_get_set_other by assumption. reflexivity.
    + intros k' H1 H2. rewrite dict_get_set_other by assumption. reflexivity.
  - split; [|split].
    + apply dict_get_set_same.
    + rewrite dict_get_set_other by assumption. reflexivity.
    + intros k' H1 H2. rewrite dict_get_set_other by assumption. reflexivity.
Qed.

Lemma decode_properties_loop items :
  forall props0 raw0,
    dict_get props0 (lit "_raw") = Some (VDict raw0) ->
    ~ In (blit "_raw") (map fst items) ->
    exists props raw,
      decode_properties props0 items = Returned props
      /\ dict_get props (lit "_raw") = Some (VDict raw)
      /\ (forall k,
            (forall key, In key (map fst items) -> decode_ascii key <> Returned k) ->
            dict_get raw k = dict_get raw0 k
            /\ (k <> lit "_raw" -> dict_get props k = dict_get props0 k))
      /\ (NoDup (map fst items) ->
          forall key value k,
            In (key, value) items -> decode_ascii key = Returned k ->
            dict_get raw k = Some value
            /\ dict_get props k
               = match typed_value value with
                 | Some v => Some v
                 | None => dict_get props0 k
                 end).
Proof.
  induction items as [|[key value] rest IH]; intros props0 raw0 Hraw Hnone.
  - exists props0, raw0. split; [reflexivity|]. split; [exact Hraw|]. split.
    + intros k _. split; [reflexivity|intros _; reflexivity].
    + intros _ key value k [].
  - simpl in Hnone.
    assert (Hkey : key <> blit "_raw") by (intros ->; apply Hnone; auto).
    assert (Hrest : ~ In (blit "_raw") (map fst rest)) by tauto.
    assert (Hrest_raw : forall key' value' k', In (key', value') rest ->
              decode_ascii key' = Returned k' -> k' <> lit "_raw").
    { intros key' value' k' Hin Hd ->. apply decode_ascii_raw in Hd. subst.
      apply Hrest. change (In (fst (blit "_raw", value')) (map fst rest)).
      apply in_map. exact Hin. }
    destruct (decode_ascii key) as [k|e] eqn:Hk.
    + assert (Hne : k <> lit "_raw")
        by (intros ->; apply Hkey, decode_ascii_raw; exact Hk).
      destruct (store_property_step props0 raw0 key value k Hraw Hk Hne)
        as (props1 & Hstore & Hraw1 & Hsame & Hother).
      destruct (IH props1 _ Hraw1 Hrest) as (props & raw & Hrun & Hraw' & Ha & Hb).
      exists props, raw. cbn [decode_properties]. rewrite Hstore. cbn [rbind].
      split; [exact Hrun|]. split; [exact Hraw'|]. split.
      * intros k' Hno.
        assert (Hk' : k' <> k)
          by (intros ->; apply (Hno key); [left; reflexivity|exact Hk]).
        destruct (Ha k') as [Ha1 Ha2];
          [intros key' Hin; apply Hno; right; exact Hin|].
        split.
        -- rewrite Ha1. apply dict_get_set_other. exact Hk'.
        -- intros Hr. rewrite (Ha2 Hr). apply Hother; assumption.
      * intros Hnd key' value' k' [Heq|Hin] Hd;
          inversion Hnd as [|? ? Hfresh Hnd']; subst.
        -- inversion Heq; subst key' value'.
           assert (k' = k) by congruence. subst k'.
           destruct (Ha k) as [Ha1 Ha2].
           { intros key' Hin Hd'. apply Hfresh.
             rewrite (decode_ascii_inj _ _ _ Hk Hd'). exact Hin. }
           split.
           ++ rewrite Ha1. apply dict_get_set_same.
           ++ rewrite (Ha2 Hne). exact Hsame.
        -- destruct (Hb Hnd' key' value' k' Hin Hd) as [Hb1 Hb2].
           split; [exact Hb1|]. rewrite Hb2.
           destruct (typed_value value'); [reflexivity|].
           apply Hother; [|exact (Hrest_raw key' value' k' Hin Hd)].
           intros ->. apply Hfresh. rewrite (decode_ascii_inj _ _ _ Hk Hd).
           change (In (fst (key', value')) (map fst rest)).
           apply in_map. exact Hin.
    + destruct (IH props0 raw0 Hraw Hrest) as (props & raw & Hrun & Hraw' & Ha & Hb).
      exists props, raw. cbn [decode_properties].
      rewrite store_property_skip by (intros k; rewrite Hk; discriminate).
      cbn [rbind]. split; [exact Hrun|]. split; [exact Hraw'|]. split.
      * intros k Hno. apply Ha. intros key' Hin. apply Hno. right. exact Hin.
      * intros Hnd key' value' k' [Heq|Hin] Hd;
          inversion Hnd as [|? ? Hfresh Hnd']; subst.
        -- inversion Heq; subst. congruence.
        -- exact (Hb Hnd' key' value' k' Hin Hd).
Qed.

(** The two bags of a byte-map in which no key is [b"_raw"]: decoding
    returns; a pair whose key is ASCII is in the raw bag under the decoded
    key with its original value, and in the typed bag exactly when the value
    is [bytes] that decode as UTF-8; a name no key decodes to is in neither
    bag. *)
Lemma property_bags (service : AsyncServiceInfo.t) :
  let items := AsyncServiceInfo.properties service in
  NoDup (map fst items) ->
  ~ In (blit "_raw") (map fst items) ->
  exists props raw,
    decoded service = Returned props
    /\ dict_get props (lit "_raw") = Some (VDict raw)
    /\ (forall key value k,
          In (key, value) items -> decode_ascii key = Returned k ->
          dict_get raw k = Some value
          /\ dict_get props k = typed_value value)
    /\ (forall k,
          (forall key, In key (map fst items) -> decode_ascii key <> Returned k) ->
          dict_get raw k = None
          /\ (k <> lit "_raw" -> dict_get props k = None)).
Proof.
  intros items Hnd Hnone.
  destruct (decode_properties_loop items [(lit "_raw", VDict [])] []
              eq_refl Hnone) as (props & raw & Hrun & Hraw & Ha & Hb).
  exists props, raw. split; [exact Hrun|]. split; [exact Hraw|]. split.
  - intros key value k Hin Hd. destruct (Hb Hnd key value k Hin Hd) as [H1 H2].
    split; [exact H1|]. rewrite H2. destruct (typed_value value); [reflexivity|].
    simpl. destruct (str_eq_dec k (lit "_raw")) as [->|]; [|reflexivity].
    exfalso. apply Hnone. apply decode_ascii_raw in Hd. subst key.
    change (In (fst (blit "_raw", value)) (map fst items)).
    apply in_map. exact Hin.
  - intros k Hno. destruct (Ha k Hno) as [H1 H2]. split; [exact H1|].
    intros Hr. rewrite (H2 Hr). simpl.
    destruct (str_eq_dec k (lit "_raw")); congruence.
Qed.

Lemma store_property_typed props item props' :
  typed_bag props -> store_property props item = Returned props' ->
  typed_bag props'.
Proof.
  intros Hbag. destruct item as [key value]. unfold store_property.
  destruct (decode_ascii key) as [k|e]; [|intros H; inversion H; subst; exact Hbag].
  destruct (dict_get props (lit "_raw")) as [[s|raw]|]; try discriminate.
  assert (Hbag1 : typed_bag (dict_set props (lit "_raw")
                               (VDict (dict_set raw k value)))).
  { intros k' v Hget Hne. rewrite dict_get_set_other in Hget by exact Hne.
    exact (Hbag k' v Hget Hne). }
  destruct value as [b|]; [destruct (decode_utf8 b) as [s|e]|];
    intros H; inversion H; subst; try exact Hbag1.
  intros k' v Hget Hne. destruct (str_eq_dec k' k) as [->|Hk].
  - rewrite dict_get_set_same in Hget. inversion Hget. eauto.
  - rewrite dict_get_set_other in Hget by exact Hk. exact (Hbag1 k' v Hget Hne).
Qed.

Lemma decode_properties_typed items :
  forall props props',
    typed_bag props -> decode_properties props items = Returned props' ->
    typed_bag props'.
Proof.
  induction items as [|item rest IH]; simpl; intros props props' Hbag H.
  - inversion H; subst. exact Hbag.
  - destruct (store_property props item) as [props1|e] eqn:E; [|discriminate].
    simpl in H. exact (IH props1 props' (store_property_typed _ _ _ Hbag E) H).
Qed.

(** Every ServiceInfo built by the normalizer has strings under every key
    of its typed bag other than ["_raw"]. *)
Lemma info_from_service_typed service info :
  info_from_service service = Returned (Some info) ->
  typed_bag (ZeroconfServiceInfo.properties info).
Proof.
  intros H. apply info_from_service_some in H.
  destruct H as (props & ip & Hp & _ & ->). simpl.
  refine (decode_properties_typed _ _ _ _ Hp).
  intros k v Hget Hne. simpl in Hget.
  destruct (str_eq_dec k (lit "_raw")); congruence.
Qed.

(** ** The task body: HomeKit records *)

Section Pairing.
Context {B : Builtins}.

Lemma homekit_type_test service_type :
  existsb (str_eqb service_type) HOMEKIT_TYPES = true
  <-> In service_type HOMEKIT_TYPES.
Proof.
  rewrite existsb_exists. split.
  - intros (t & Hin & Heq). apply str_eqb_eq in Heq. subst. exact Hin.
  - intros Hin. exists service_type. split; [exact Hin|]. apply str_eqb_eq.
    reflexivity.
Qed.

Lemma str_prop_get props k s :
  str_prop props k = Some s -> dict_get props k = Some (VStr s).
Proof.
  unfold str_prop. destruct (dict_get props k) as [[s'|raw]|]; congruence.
Qed.

(** What the task does for a HomeKit record whose classifier found a
    domain and whose typed bag has the pairing status. *)
Lemma homekit_task self zeroconf service_type name info domain status :
  In service_type HOMEKIT_TYPES ->
  info_from_service (zeroconf service_type name) = Returned (Some info) ->
  async_get_homekit_discovery_domain (homekit_models self)
    (ZeroconfServiceInfo.properties info) = Returned (Some domain) ->
  domain <> [] ->
  str_prop (ZeroconfServiceInfo.properties info) HOMEKIT_PAIRED_STATUS_FLAG
  = Some status ->
  _process_service_update self zeroconf service_type name
  = if match int_of_str status with Some 0%Z => true | _ => false end
    then (homekit_flow domain info
            :: fst (generic_dispatch self service_type info),
          snd (generic_dispatch self service_type info))
    else ([homekit_flow domain info], Returned tt).
Proof.
  intros Htype Hinfo Hdomain Hne Hstatus. unfold _process_service_update.
  rewrite Hinfo. rewrite (proj2 (homekit_type_test service_type) Htype).
  rewrite Hdomain. apply str_prop_get in Hstatus.
  unfold dict_in, dict_item. rewrite Hstatus.
  destruct domain as [|c domain]; [congruence|]. simpl.
  destruct (int_of_str status) as [[|p|p]|]; simpl; try reflexivity.
  destruct (generic_dispatch self service_type info). reflexivity.
Qed.

(** C2: for a HomeKit record with a resolved domain whose pairing status
    parses to zero, the task creates the HomeKit flow and goes on to generic
    matching: its flows are the HomeKit flow followed by those of the
    generic rules, and it ends as generic matching ends. *)
Theorem paired_record_is_forwarded (self : ZeroconfDiscovery)
    (zeroconf : HaZeroconf) (service_type name : str)
    (info : ZeroconfServiceInfo.t) (domain status : str) :
  In service_type HOMEKIT_TYPES ->
  info_from_service (zeroconf service_type name) = Returned (Some info) ->
  async_get_homekit_discovery_domain (homekit_models self)
    (ZeroconfServiceInfo.properties info) = Returned (Some domain) ->
  domain <> [] ->
  str_prop (ZeroconfServiceInfo.properties info) HOMEKIT_PAIRED_STATUS_FLAG
  = Some status ->
  int_of_str status = Some 0%Z ->
  _process_service_update self zeroconf service_type name
  = (homekit_flow domain info :: fst (generic_dispatch self service_type info),
     snd (generic_dispatch self service_type info)).
Proof.
  intros Htype Hinfo Hdomain Hne Hstatus Hzero.
  rewrite (homekit_task self zeroconf service_type name info domain status)
    by assumption.
  rewrite Hzero. reflexivity.
Qed.

(** C1 (amended): for a HomeKit record with a resolved domain whose pairing
    status is a non-zero integer or does not parse, the task creates the
    HomeKit flow and returns: the generic rules are not evaluated and no
    generic flow is created. *)
Theorem unpaired_record_skips_generic_matching (self : ZeroconfDiscovery)
    (zeroconf : HaZeroconf) (service_type name : str)
    (info : ZeroconfServiceInfo.t) (domain status : str) :
  In service_type HOMEKIT_TYPES ->
  info_from_service (zeroconf service_type name) = Returned (Some info) ->
  async_get_homekit_discovery_domain (homekit_models self)
    (ZeroconfServiceInfo.properties info) = Returned (Some domain) ->
  domain <> [] ->
  str_prop (ZeroconfServiceInfo.properties info) HOMEKIT_PAIRED_STATUS_FLAG
  = Some status ->
  int_of_str status <> Some 0%Z ->
  _process_service_update self zeroconf service_type name
  = ([homekit_flow domain info], Returned tt).
Proof.
  intros Htype Hinfo Hdomain Hne Hstatus Hnz.
  rewrite (homekit_task self zeroconf service_type name info domain status)
    by assumption.
  destruct (int_of_str status) as [[|p|p]|]; congruence.
Qed.

(** Outside the HomeKit types the task is generic matching alone. *)
Lemma other_types_generic self zeroconf service_type name info :
  ~ In service_type HOMEKIT_TYPES ->
  info_from_service (zeroconf service_type name) = Returned (Some info) ->
  _process_service_update self zeroconf service_type name
  = generic_dispatch self service_type info.
Proof.
  intros Htype Hinfo. unfold _process_service_update. rewrite Hinfo.
  destruct (existsb (str_eqb service_type) HOMEKIT_TYPES) eqn:E; [|reflexivity].
  apply homekit_type_test in E. contradiction.
Qed.
End Pairing.

(** ** Concrete records *)

Definition hap_tcp : str := lit "_hap._tcp.local.".

(** The packed addresses 10.0.0.5, 169.254.0.5 and fe80::1. *)
Definition addr_10_0_0_5 : bytes := [x0a; x00; x00; x05].
Definition addr_169_254_0_5 : bytes := [xa9; xfe; x00; x05].
Definition addr_fe80_1 : bytes :=
  [xfe; x80; x00; x00; x00; x00; x00; x00;
   x00; x00; x00; x00; x00; x00; x00; x01].

Definition lock_service (properties : list (bytes * option bytes))
    (addresses : list bytes) : AsyncServiceInfo.t :=
  {| AsyncServiceInfo.type := hap_tcp;
     AsyncServiceInfo.name := lit "Lock._hap._tcp.local.";
     AsyncServiceInfo.server := lit "lock.local.";
     AsyncServiceInfo.port := Some 80%Z;
     AsyncServiceInfo._addresses := addresses;
     AsyncServiceInfo.properties := properties |}.

(** A network that answers every request with the lock, advertising model
    SmartLock and the given pairing status. *)
Definition lock_network (status : string) : HaZeroconf :=
  fun _ _ =>
    lock_service [(blit "md", Some (blit "SmartLock"));
                  (blit "sf", Some (blit status))]
                 [addr_10_0_0_5].

Definition lock_info (status : string) : ZeroconfServiceInfo.t :=
  {| ZeroconfServiceInfo.host := lit "10.0.0.5";
     ZeroconfServiceInfo.port := Some 80%Z;
     ZeroconfServiceInfo.hostname := lit "lock.local.";
     ZeroconfServiceInfo.type := hap_tcp;
     ZeroconfServiceInfo.name := lit "Lock._hap._tcp.local.";
     ZeroconfServiceInfo.properties :=
       [(lit "_raw", VDict [(lit "md", Some (blit "SmartLock"));
                            (lit "sf", Some (blit status))]);
        (lit "md", VStr (lit "SmartLock"));
        (lit "sf", VStr (lit status))] |}.

(** One generic rule without filters for the HomeKit TCP type, and the
    model SmartLock mapped to a domain. *)
Definition lock_discovery : ZeroconfDiscovery :=
  {| zeroconf_types := [(hap_tcp, [[(lit "domain", lit "homekit_controller")]])];
     homekit_models := [(lit "SmartLock", lit "lockvendor")];
     ipv6 := true |}.

Example lock_info_normalized status :
  status = "0"%string \/ status = "1"%string \/ status = "unknown"%string ->
  info_from_service (lock_network status hap_tcp (lit "Lock._hap._tcp.local."))
  = Returned (Some (lock_info status)).
Proof. intros [->|[->| ->]]; vm_compute; reflexivity. Qed.

Lemma paired_record_is_forwarded_witness :
  _process_service_update lock_discovery (lock_network "0") hap_tcp
    (lit "Lock._hap._tcp.local.")
  = (homekit_flow (lit "lockvendor") (lock_info "0")
       :: fst (generic_dispatch lock_discovery hap_tcp (lock_info "0")),
     snd (generic_dispatch lock_discovery hap_tcp (lock_info "0"))).
Proof.
  apply (paired_record_is_forwarded lock_discovery (lock_network "0") hap_tcp
           (lit "Lock._hap._tcp.local.") (lock_info "0")
           (lit "lockvendor") (lit "0")).
  - left. reflexivity.
  - vm_compute. reflexivity.
  - vm_compute. reflexivity.
  - discriminate.
  - vm_compute. reflexivity.
  - vm_compute. reflexivity.
Defined.

(** The paired lock gets both flows. *)
Example paired_lock_flows :
  map (fun fl => (flow_domain fl, flow_source fl))
      (fst (_process_service_update lock_discovery (lock_network "0") hap_tcp
              (lit "Lock._hap._tcp.local.")))
  = [(lit "lockvendor", SOURCE_HOMEKIT);
     (lit "homekit_controller", SOURCE_ZEROCONF)].
Proof. vm_compute. reflexivity. Qed.

Lemma unpaired_record_skips_generic_matching_witness :
  _process_service_update lock_discovery (lock_network "1") hap_tcp
    (lit "Lock._hap._tcp.local.")
  = ([homekit_flow (lit "lockvendor") (lock_info "1")], Returned tt).
Proof.
  apply (unpaired_record_skips_generic_matching lock_discovery
           (lock_network "1") hap_tcp (lit "Lock._hap._tcp.local.")
           (lock_info "1") (lit "lockvendor") (lit "1")).
  - left. reflexivity.
  - vm_compute. reflexivity.
  - vm_compute. reflexivity.
  - discriminate.
  - vm_compute. reflexivity.
  - vm_compute. discriminate.
Defined.

(** A status that is not a number ends the task the same way. *)
Example unknown_status_lock_flows :
  _process_service_update lock_discovery (lock_network "unknown") hap_tcp
    (lit "Lock._hap._tcp.local.")
  = ([homekit_flow (lit "lockvendor") (lock_info "unknown")], Returned tt).
Proof.
  apply (unpaired_record_skips_generic_matching lock_discovery
           (lock_network "unknown") hap_tcp (lit "Lock._hap._tcp.local.")
           (lock_info "unknown") (lit "lockvendor") (lit "unknown")).
  - left. reflexivity.
  - vm_compute. reflexivity.
  - vm_compute. reflexivity.
  - discriminate.
  - vm_compute. reflexivity.
  - vm_compute. discriminate.
Qed.

(** C1 as stated fails on the lock with pairing status ["1"]: the record is
    of a HomeKit type, its domain resolves, its status is the non-zero
    integer 1, a rule without filters is registered for its type and
    matches it, and yet the task creates the HomeKit flow only. *)
Lemma unpaired_lock_gets_no_generic_flow :
  In hap_tcp HOMEKIT_TYPES
  /\ info_from_service (lock_network "1" hap_tcp (lit "Lock._hap._tcp.local."))
     = Returned (Some (lock_info "1"))
  /\ async_get_homekit_discovery_domain (homekit_models lock_discovery)
       (ZeroconfServiceInfo.properties (lock_info "1"))
     = Returned (Some (lit "lockvendor"))
  /\ str_prop (ZeroconfServiceInfo.properties (lock_info "1"))
       HOMEKIT_PAIRED_STATUS_FLAG = Some (lit "1")
  /\ int_of_str (lit "1") = Some 1%Z
  /\ In [(lit "domain", lit "homekit_controller")]
        (rules_for lock_discovery hap_tcp)
  /\ rule_matches (normalized_fields (lock_info "1"))
       [(lit "domain", lit "homekit_controller")] = true
  /\ ~ In (generic_flow (lock_info "1")
             [(lit "domain", lit "homekit_controller")])
          (fst (_process_service_update lock_discovery (lock_network "1")
                  hap_tcp (lit "Lock._hap._tcp.local.")))
  /\ forall fl,
       In fl (fst (_process_service_update lock_discovery (lock_network "1")
                     hap_tcp (lit "Lock._hap._tcp.local."))) ->
       flow_source fl = SOURCE_HOMEKIT.
Proof.
  assert (Hrun : _process_service_update lock_discovery (lock_network "1")
                   hap_tcp (lit "Lock._hap._tcp.local.")
                 = ([homekit_flow (lit "lockvendor") (lock_info "1")],
                    Returned tt)) by (vm_compute; reflexivity).
  rewrite Hrun.
  split; [left; reflexivity|].
  split; [vm_compute; reflexivity|].
  split; [vm_compute; reflexivity|].
  split; [vm_compute; reflexivity|].
  split; [vm_compute; reflexivity|].
  split; [vm_compute; left; reflexivity|].
  split; [vm_compute; reflexivity|].
  split.
  - simpl. intros [H|[]]. discriminate H.
  - simpl. intros fl [<-|[]]. reflexivity.
Qed.

(** ** The defect of the raw bag

    The typed bag keeps the raw bag under its own key ["_raw"]; a property
    advertised under the key [b"_raw"] with a value that decodes replaces
    the raw bag by a string. *)

(** C10 on the record advertising [_raw=x]: the ServiceInfo is returned
    with ["_raw"] bound to the string ["x"], not to a mapping. *)
Theorem raw_key_replaces_raw_bag :
  exists info,
    info_from_service (lock_service [(blit "_raw", Some (blit "x"))]
                                    [addr_10_0_0_5])
    = Returned (Some info)
    /\ ZeroconfServiceInfo.properties info = [(lit "_raw", VStr (lit "x"))]
    /\ forall raw,
         dict_get (ZeroconfServiceInfo.properties info) (lit "_raw")
         <> Some (VDict raw).
Proof.
  eexists. split; [vm_compute; reflexivity|]. split; [reflexivity|].
  intros raw. vm_compute. discriminate.
Qed.

(** C9 on the record advertising [_raw=x] and then [id=1]: storing the
    second property in the raw bag raises [TypeError], and the normalizer
    raises it to its caller; the task dies with it. *)
Theorem raw_key_raises_type_error :
  info_from_service (lock_service [(blit "_raw", Some (blit "x"));
                                   (blit "id", Some (blit "1"))]
                                  [addr_10_0_0_5])
  = Raised TypeError
  /\ _process_service_update lock_discovery
       (fun _ _ => lock_service [(blit "_raw", Some (blit "x"));
                                 (blit "id", Some (blit "1"))]
                                [addr_10_0_0_5])
       hap_tcp (lit "Lock._hap._tcp.local.")
     = ([], Raised TypeError).
Proof. split; vm_compute; reflexivity. Qed.

(** C4 on the byte-map [{b"id": b"1", b"_raw": b"x"}]: both keys are ASCII,
    yet after decoding there is no raw bag left that holds [id] with its
    original value [b"1"]: ["_raw"] is bound to the string ["x"]. *)
Theorem raw_bag_loses_pairs :
  let items := [(blit "id", Some (blit "1")); (blit "_raw", Some (blit "x"))] in
  NoDup (map fst items)
  /\ decode_ascii (blit "id") = Returned (lit "id")
  /\ decode_ascii (blit "_raw") = Returned (lit "_raw")
  /\ decoded (lock_service items [addr_10_0_0_5])
     = Returned [(lit "_raw", VStr (lit "x")); (lit "id", VStr (lit "1"))]
  /\ forall props raw,
       decoded (lock_service items [addr_10_0_0_5]) = Returned props ->
       dict_get props (lit "_raw") = Some (VDict raw) ->
       dict_get raw (lit "id") = Some (Some (blit "1")) ->
       False.
Proof.
  intros items. split.
  - repeat constructor; simpl; intuition discriminate.
  - split; [reflexivity|]. split; [reflexivity|].
    assert (H : decoded (lock_service items [addr_10_0_0_5])
                = Returned [(lit "_raw", VStr (lit "x"));
                            (lit "id", VStr (lit "1"))])
      by (vm_compute; reflexivity).
    split; [exact H|]. intros props raw Hp. rewrite H in Hp.
    inversion Hp; subst. vm_compute. discriminate.
Qed.

(** Outside that defect the normalizer returns: with no key [b"_raw"] and
    packed addresses of 4 or 16 bytes, keys that are not ASCII and values
    that are not UTF-8 raise nothing. *)
Definition packed (address : bytes) : Prop :=
  List.length address = 4%nat \/ List.length address = 16%nat.

Lemma ip_address_packed address :
  packed address -> exists ip, ip_address address = Returned ip.
Proof.
  unfold ip_address. intros [H|H]; rewrite H; simpl; eauto.
Qed.

Lemma first_address_returns addresses :
  Forall packed addresses ->
  exists host, _first_non_link_local_or_v6_address addresses = Returned host.
Proof.
  induction 1 as [|address rest Hp _ IH]; simpl; [eauto|].
  destruct (ip_address_packed address Hp) as [ip ->]. simpl.
  destruct (negb (is_link_local ip) || (version ip =? 6)%N); eauto.
Qed.

Lemma info_from_service_returns service :
  ~ In (blit "_raw") (map fst (AsyncServiceInfo.properties service)) ->
  Forall packed (AsyncServiceInfo.addresses service) ->
  exists outcome, info_from_service service = Returned outcome.
Proof.
  intros Hnone Hpacked. unfold info_from_service.
  destruct (decode_properties_loop (AsyncServiceInfo.properties service)
              [(lit "_raw", VDict [])] [] eq_refl Hnone)
    as (props & raw & -> & _). cbn [rbind].
  destruct (AsyncServiceInfo.addresses service) as [|a rest]; [eauto|].
  destruct (first_address_returns (a :: rest) Hpacked) as [[host|] ->];
    cbn [rbind]; eauto.
Qed.

Example undecodable_properties_are_elided :
  exists info,
    info_from_service
      (lock_service [([xff], Some (blit "q"));
                     (blit "bad", Some [xc3; x28]);
                     (blit "flag", None);
                     (blit "md", Some (blit "SmartLock"))]
                    [addr_10_0_0_5])
    = Returned (Some info)
    /\ ZeroconfServiceInfo.properties info
       = [(lit "_raw", VDict [(lit "bad", Some [xc3; x28]);
                              (lit "flag", None);
                              (lit "md", Some (blit "SmartLock"))]);
          (lit "md", VStr (lit "SmartLock"))].
Proof. eexists. split; vm_compute; reflexivity. Qed.

(** C3: IPv6 candidates never reach the scan.  The scan itself does what
    its name and docstring say: run on the candidates 169.254.0.5, fe80::1
    and 10.0.0.5 it passes over the first and stops at fe80::1.  The
    normalizer hands it [service.addresses], which holds the IPv4
    candidates only: the record advertising these three candidates gets the
    host 10.0.0.5, and a record whose only candidate is fe80::1 is
    rejected. *)
Theorem ipv6_candidates_never_reach_the_scan :
  let candidates := [addr_169_254_0_5; addr_fe80_1; addr_10_0_0_5] in
  _first_non_link_local_or_v6_address candidates
  = Returned (Some (lit "fe80::1"))
  /\ AsyncServiceInfo.addresses (lock_service [] candidates)
     = [addr_169_254_0_5; addr_10_0_0_5]
  /\ info_from_service (lock_service [] candidates)
     = Returned (Some
         {| ZeroconfServiceInfo.host := lit "10.0.0.5";
            ZeroconfServiceInfo.port := Some 80%Z;
            ZeroconfServiceInfo.hostname := lit "lock.local.";
            ZeroconfServiceInfo.type := hap_tcp;
            ZeroconfServiceInfo.name := lit "Lock._hap._tcp.local.";
            ZeroconfServiceInfo.properties := [(lit "_raw", VDict [])] |})
  /\ AsyncServiceInfo.addresses (lock_service [] [addr_fe80_1]) = []
  /\ info_from_service (lock_service [] [addr_fe80_1]) = Returned None.
Proof. repeat split; vm_compute; reflexivity. Qed.

Example link_local_only_is_rejected :
  info_from_service (lock_service [] [addr_169_254_0_5; addr_169_254_0_5])
  = Returned None
  /\ info_from_service (lock_service [] []) = Returned None.
Proof. split; vm_compute; reflexivity. Qed.

(** A printer, and three rules for its type: on the name, without filter,
    and on a MAC address the record does not have. *)
Definition ipp_tcp : str := lit "_ipp._tcp.local.".

Definition printer_info : ZeroconfServiceInfo.t :=
  {| ZeroconfServiceInfo.host := lit "10.0.0.5";
     ZeroconfServiceInfo.port := Some 631%Z;
     ZeroconfServiceInfo.hostname := lit "printer.local.";
     ZeroconfServiceInfo.type := ipp_tcp;
     ZeroconfServiceInfo.name := lit "Brother HL._ipp._tcp.local.";
     ZeroconfServiceInfo.properties :=
       [(lit "_raw", VDict [(lit "manufacturer", Some (blit "Acme Corp"))]);
        (lit "manufacturer", VStr (lit "Acme Corp"))] |}.

Definition printer_discovery : ZeroconfDiscovery :=
  {| zeroconf_types :=
       [(ipp_tcp,
         [[(lit "domain", lit "brother"); (lit "name", lit "brother*")];
          [(lit "domain", lit "ipp")];
          [(lit "domain", lit "axis"); (lit "macaddress", lit "00408C*")];
          [(lit "domain", lit "acme"); (lit "manufacturer", lit "acme*")];
          [(lit "domain", lit "ipp")]])];
     homekit_models := [];
     ipv6 := true |}.

Lemma generic_matching_witness :
  generic_dispatch printer_discovery ipp_tcp printer_info
  = (map (fun domain =>
            {| flow_domain := domain; flow_source := SOURCE_ZEROCONF;
               flow_info := printer_info |})
         [lit "brother"; lit "ipp"; lit "acme"; lit "ipp"],
     Returned tt).
Proof.
  destruct (generic_matching printer_discovery ipp_tcp printer_info)
    as (_ & _ & _ & H).
  - intros k v Hget Hne. unfold printer_info in Hget.
    cbn [ZeroconfServiceInfo.properties dict_get] in Hget.
    destruct (str_eq_dec k (lit "_raw")) as [|_]; [contradiction|].
    destruct (str_eq_dec k (lit "manufacturer")) as [_|_];
      [|discriminate]. inversion Hget. eauto.
  - intros matcher Hin. vm_compute in Hin.
    destruct Hin as [<-|[<-|[<-|[<-|[<-|[]]]]]]; reflexivity.
  - rewrite H. vm_compute. reflexivity.
Defined.

Example hub_models :
  let table := [(lit "Hub", lit "hubvendor")] in
  async_get_homekit_discovery_domain table [(lit "MD", VStr (lit "Hub 2000"))]
  = Returned (Some (lit "hubvendor"))
  /\ async_get_homekit_discovery_domain table [(lit "md", VStr (lit "Hub-2"))]
     = Returned (Some (lit "hubvendor"))
  /\ async_get_homekit_discovery_domain table [(lit "md", VStr (lit "HubX"))]
     = Returned None
  /\ async_get_homekit_discovery_domain [(lit "Hub*", lit "globbed")]
       [(lit "md", VStr (lit "HubX"))]
     = Returned (Some (lit "globbed"))
  /\ async_get_homekit_discovery_domain table [(lit "id", VStr (lit "Hub"))]
     = Returned None.
Proof. repeat split; vm_compute; reflexivity. Qed.

(** ** UTF-8: encoding, and decoding what was cut *)

From Stdlib Require Import ZifyBool.

Ltac Zify.zify_post_hook ::= Z.to_euclidean_division_equations.

(** A code point that can be encoded: not a surrogate, at most U+10FFFF. *)
Definition scalar (c : N) : Prop := (c < 55296 \/ 57344 <= c < 1114112)%N.

(** The number of bytes of a code point in UTF-8. *)
Definition width (c : N) : nat :=
  if (c <? 128)%N then 1
  else if (c <? 2048)%N then 2
  else if (c <? 65536)%N then 3
  else 4.

Definition encoded_length (s : str) : nat := list_sum (map width s).

(** The longest prefix of [s], in whole code points, that takes at most
    [n] bytes. *)
Fixpoint fit (n : nat) (s : str) : str :=
  match s with
  | [] => []
  | c :: rest =>
      if (width c <=? n)%nat then c :: fit (n - width c) rest else []
  end.

Lemma encoded_length_cons c s :
  encoded_length (c :: s) = (width c + encoded_length s)%nat.
Proof. reflexivity. Qed.

Lemma encoded_length_nil : encoded_length [] = 0%nat.
Proof. reflexivity. Qed.

Lemma land_31 a : N.land a 31 = (a mod 32)%N.
Proof. change 31%N with (N.ones 5). apply N.land_ones. Qed.

Lemma land_15 a : N.land a 15 = (a mod 16)%N.
Proof. change 15%N with (N.ones 4). apply N.land_ones. Qed.

Lemma land_7 a : N.land a 7 = (a mod 8)%N.
Proof. change 7%N with (N.ones 3). apply N.land_ones. Qed.

Lemma low6_mod a : low6 a = (a mod 64)%N.
Proof. unfold low6. change 63%N with (N.ones 6). apply N.land_ones. Qed.

Ltac branch :=
  match goal with
  | |- context [if (?x =? ?y)%N then _ else _] =>
      let E := fresh "E" in destruct (x =? y)%N eqn:E; cbv iota
  | |- context [if ?b then _ else _] =>
      let E := fresh "E" in destruct b eqn:E; cbv iota
  end.

Ltac byte_ranges := unfold cont, second_of_three, second_of_four, in_range.

Lemma encode_point_width c bs :
  encode_point c = Some bs -> scalar c /\ List.length bs = width c.
Proof.
  unfold encode_point, width, scalar, in_range.
  destruct (c <? 128)%N eqn:E1; [intros H; inversion H; split; [lia|reflexivity]|].
  destruct (c <? 2048)%N eqn:E2; [intros H; inversion H; split; [lia|reflexivity]|].
  destruct (c <? 65536)%N eqn:E3.
  - destruct ((55296 <=? c) && (c <=? 57343))%N eqn:E4; [discriminate|].
    intros H; inversion H; split; [lia|reflexivity].
  - destruct (c <? 1114112)%N eqn:E4; [|discriminate].
    intros H; inversion H; split; [lia|reflexivity].
Qed.

Lemma encode_point_scalar c : scalar c -> exists bs, encode_point c = Some bs.
Proof.
  unfold encode_point, scalar, in_range. intros Hc.
  destruct (c <? 128)%N eqn:E1; [eauto|].
  destruct (c <? 2048)%N eqn:E2; [eauto|].
  destruct (c <? 65536)%N eqn:E3.
  - destruct ((55296 <=? c) && (c <=? 57343))%N eqn:E4; [lia|eauto].
  - destruct (c <? 1114112)%N eqn:E4; [eauto|lia].
Qed.

Lemma two_byte_facts c :
  (128 <= c < 2048)%N ->
  let b0 := (192 + c / 64)%N in
  let b1 := (128 + c mod 64)%N in
  (194 <= b0 <= 223)%N /\ (128 <= b1 <= 191)%N
  /\ (N.land b0 31 * 64 + low6 b1)%N = c.
Proof.
  intros Hc b0 b1. rewrite land_31, low6_mod. subst b0 b1.
  split; [lia|]. split; lia.
Qed.

Lemma three_byte_facts c :
  (2048 <= c < 65536)%N -> ~ (55296 <= c <= 57343)%N ->
  let b0 := (224 + c / 4096)%N in
  let b1 := (128 + (c / 64) mod 64)%N in
  let b2 := (128 + c mod 64)%N in
  (224 <= b0 <= 239)%N /\ (128 <= b1 <= 191)%N /\ (128 <= b2 <= 191)%N
  /\ (b0 = 224%N -> 160 <= b1)%N /\ (b0 = 237%N -> b1 <= 159)%N
  /\ (N.land b0 15 * 4096 + low6 b1 * 64 + low6 b2)%N = c.
Proof.
  intros Hc Hs b0 b1 b2. rewrite land_15, !low6_mod. subst b0 b1 b2.
  split; [lia|]. split; [lia|]. split; [lia|]. split; [lia|]. split; lia.
Qed.

Lemma four_byte_facts c :
  (65536 <= c < 1114112)%N ->
  let b0 := (240 + c / 262144)%N in
  let b1 := (128 + (c / 4096) mod 64)%N in
  let b2 := (128 + (c / 64) mod 64)%N in
  let b3 := (128 + c mod 64)%N in
  (240 <= b0 <= 244)%N /\ (128 <= b1 <= 191)%N /\ (128 <= b2 <= 191)%N
  /\ (128 <= b3 <= 191)%N
  /\ (b0 = 240%N -> 144 <= b1)%N /\ (b0 = 244%N -> b1 <= 143)%N
  /\ (N.land b0 7 * 262144 + low6 b1 * 4096 + low6 b2 * 64 + low6 b3)%N = c.
Proof.
  intros Hc b0 b1 b2 b3. rewrite land_7, !low6_mod. subst b0 b1 b2 b3.
  split; [lia|]. split; [lia|]. split; [lia|]. split; [lia|].
  split; [lia|]. split; lia.
Qed.

(** The shapes of an encoded code point. *)
Definition two_bytes (c b0 b1 : N) : Prop :=
  (194 <= b0 <= 223)%N /\ (128 <= b1 <= 191)%N
  /\ (N.land b0 31 * 64 + low6 b1)%N = c.

Definition three_bytes (c b0 b1 b2 : N) : Prop :=
  (224 <= b0 <= 239)%N /\ (128 <= b1 <= 191)%N /\ (128 <= b2 <= 191)%N
  /\ (b0 = 224%N -> 160 <= b1)%N /\ (b0 = 237%N -> b1 <= 159)%N
  /\ (N.land b0 15 * 4096 + low6 b1 * 64 + low6 b2)%N = c.

Definition four_bytes (c b0 b1 b2 b3 : N) : Prop :=
  (240 <= b0 <= 244)%N /\ (128 <= b1 <= 191)%N /\ (128 <= b2 <= 191)%N
  /\ (128 <= b3 <= 191)%N
  /\ (b0 = 240%N -> 144 <= b1)%N /\ (b0 = 244%N -> b1 <= 143)%N
  /\ (N.land b0 7 * 262144 + low6 b1 * 4096 + low6 b2 * 64 + low6 b3)%N = c.

Lemma encode_point_cases c bs :
  encode_point c = Some bs ->
  ((c < 128)%N /\ bs = [c])
  \/ (exists b0 b1, bs = [b0; b1] /\ two_bytes c b0 b1)
  \/ (exists b0 b1 b2, bs = [b0; b1; b2] /\ three_bytes c b0 b1 b2)
  \/ (exists b0 b1 b2 b3, bs = [b0; b1; b2; b3] /\ four_bytes c b0 b1 b2 b3).
Proof.
  unfold encode_point, in_range.
  destruct (c <? 128)%N eqn:E1.
  { intros H. left. split; [lia|congruence]. }
  destruct (c <? 2048)%N eqn:E2.
  { intros H. right. left. exists (192 + c / 64)%N, (128 + c mod 64)%N.
    split; [congruence|]. apply two_byte_facts. lia. }
  destruct (c <? 65536)%N eqn:E3.
  { destruct ((55296 <=? c) && (c <=? 57343))%N eqn:E4; [discriminate|].
    intros H. right. right. left.
    exists (224 + c / 4096)%N, (128 + (c / 64) mod 64)%N, (128 + c mod 64)%N.
    split; [congruence|]. apply three_byte_facts; lia. }
  destruct (c <? 1114112)%N eqn:E4; [|discriminate].
  intros H. right. right. right.
  exists (240 + c / 262144)%N, (128 + (c / 4096) mod 64)%N,
         (128 + (c / 64) mod 64)%N, (128 + c mod 64)%N.
  split; [congruence|]. apply four_byte_facts; lia.
Qed.

Ltac Zify.zify_post_hook ::= idtac.

(** One step of the decoder, the decoding of what follows left folded. *)
Lemma decode_ignore_cons b0 r0 :
  decode_utf8_ignore (b0 :: r0)
  = if (b0 <? 128)%N then b0 :: decode_utf8_ignore r0
    else if (b0 <? 194)%N then decode_utf8_ignore r0
    else if (b0 <? 224)%N then
      match r0 with
      | [] => []
      | b1 :: r1 =>
          if cont b1
          then (N.land b0 31 * 64 + low6 b1)%N :: decode_utf8_ignore r1
          else decode_utf8_ignore r0
      end
    else if (b0 <? 240)%N then
      match r0 with
      | [] => []
      | b1 :: r1 =>
          if second_of_three b0 b1 then
            match r1 with
            | [] => []
            | b2 :: r2 =>
                if cont b2
                then (N.land b0 15 * 4096 + low6 b1 * 64 + low6 b2)%N
                     :: decode_utf8_ignore r2
                else decode_utf8_ignore r1
            end
          else decode_utf8_ignore r0
      end
    else if (b0 <? 245)%N then
      match r0 with
      | [] => []
      | b1 :: r1 =>
          if second_of_four b0 b1 then
            match r1 with
            | [] => []
            | b2 :: r2 =>
                if cont b2 then
                  match r2 with
                  | [] => []
                  | b3 :: r3 =>
                      if cont b3
                      then (N.land b0 7 * 262144 + low6 b1 * 4096
                            + low6 b2 * 64 + low6 b3)%N
                           :: decode_utf8_ignore r3
                      else decode_utf8_ignore r2
                  end
                else decode_utf8_ignore r1
            end
          else decode_utf8_ignore r0
      end
    else decode_utf8_ignore r0.
Proof. reflexivity. Qed.

(** Decoding the bytes of a code point gives the code point back, whatever
    follows. *)
Lemma decode_ignore_point c bs rest :
  encode_point c = Some bs ->
  decode_utf8_ignore (bs ++ rest) = c :: decode_utf8_ignore rest.
Proof.
  intros H. apply encode_point_cases in H.
  destruct H as [[Hc ->]|[(b0 & b1 & -> & R0 & R1 & Rc)
                  |[(b0 & b1 & b2 & -> & R0 & R1 & R2 & Ra & Rb & Rc)
                   |(b0 & b1 & b2 & b3 & -> & R0 & R1 & R2 & R3 & Ra & Rb & Rc)]]];
    try subst c; cbn [app]; rewrite decode_ignore_cons; cbv iota;
    try byte_ranges; repeat (branch; try lia); reflexivity.
Qed.

(** A code point cut short decodes to nothing. *)
Lemma decode_ignore_cut c bs k :
  encode_point c = Some bs -> (k < List.length bs)%nat ->
  decode_utf8_ignore (firstn k bs) = [].
Proof.
  intros H Hk. apply encode_point_cases in H.
  destruct H as [[Hc ->]|[(b0 & b1 & -> & R0 & R1 & Rc)
                  |[(b0 & b1 & b2 & -> & R0 & R1 & R2 & Ra & Rb & Rc)
                   |(b0 & b1 & b2 & b3 & -> & R0 & R1 & R2 & R3 & Ra & Rb & Rc)]]];
    try clear Rc; cbn [List.length] in Hk;
    repeat (destruct k as [|k]; [|try lia]);
    cbn [firstn]; try reflexivity; rewrite decode_ignore_cons; cbv iota;
    try byte_ranges; repeat (branch; try reflexivity; try lia).
Qed.

Lemma encode_utf8_cons c rest b :
  encode_utf8 (c :: rest) = Some b
  <-> exists head tail,
        encode_point c = Some head /\ encode_utf8 rest = Some tail
        /\ b = head ++ tail.
Proof.
  cbn [encode_utf8].
  destruct (encode_point c) as [head|], (encode_utf8 rest) as [tail|]; split;
    try discriminate;
    try (intros (h & t & H1 & H2 & _); discriminate).
  - intros H. inversion H. eauto.
  - intros (h & t & H1 & H2 & ->). congruence.
Qed.

Lemma encode_utf8_length s b :
  encode_utf8 s = Some b -> List.length b = encoded_length s.
Proof.
  revert b. induction s as [|c rest IH]; intros b H.
  - inversion H. reflexivity.
  - apply encode_utf8_cons in H. destruct H as (head & tail & Hc & Hr & ->).
    rewrite length_app, (IH tail Hr), encoded_length_cons.
    apply encode_point_width in Hc. destruct Hc as [_ ->]. reflexivity.
Qed.

(** A name encodes exactly when it has no surrogate. *)
Lemma encode_utf8_scalar s :
  Forall scalar s <-> exists b, encode_utf8 s = Some b.
Proof.
  induction s as [|c rest IH].
  - split; [exists []; reflexivity|constructor].
  - split.
    + intros H. inversion H as [|? ? Hc Hrest]; subst.
      destruct (encode_point_scalar c Hc) as [head Hhead].
      destruct (proj1 IH Hrest) as [tail Htail].
      exists (head ++ tail). apply encode_utf8_cons. eauto.
    + intros [b H]. apply encode_utf8_cons in H.
      destruct H as (head & tail & Hc & Hr & _). constructor.
      * apply (encode_point_width c head Hc).
      * apply IH. eauto.
Qed.

Lemma width_bounds c : (1 <= width c <= 4)%nat.
Proof.
  unfold width.
  destruct (c <? 128)%N, (c <? 2048)%N, (c <? 65536)%N; lia.
Qed.

(** Cutting the encoded bytes at [n] and decoding what is left, dropping
    what does not decode, keeps the code points that fit in [n] bytes. *)
Lemma decode_ignore_firstn s :
  forall b n,
    encode_utf8 s = Some b ->
    decode_utf8_ignore (firstn n b) = fit n s.
Proof.
  induction s as [|c rest IH]; intros b n H.
  - inversion H. rewrite firstn_nil. reflexivity.
  - apply encode_utf8_cons in H. destruct H as (head & tail & Hc & Hr & ->).
    pose proof (encode_point_width c head Hc) as [_ Hw].
    cbn [fit]. rewrite firstn_app, Hw.
    destruct (width c <=? n)%nat eqn:E.
    + apply Nat.leb_le in E. rewrite firstn_all2 by lia.
      rewrite (decode_ignore_point c head _ Hc), (IH tail _ Hr). reflexivity.
    + apply Nat.leb_gt in E.
      replace (n - width c)%nat with 0%nat by lia.
      rewrite firstn_O, app_nil_r.
      apply (decode_ignore_cut c head n Hc). lia.
Qed.

Lemma fit_prefix n s : exists rest, s = fit n s ++ rest.
Proof.
  revert n. induction s as [|c s IH]; intros n; [exists []; reflexivity|].
  cbn [fit]. destruct (width c <=? n)%nat.
  - destruct (IH (n - width c)%nat) as [rest Hrest].
    exists rest. cbn [app]. congruence.
  - exists (c :: s). reflexivity.
Qed.

Lemma fit_length n s : (encoded_length (fit n s) <= n)%nat.
Proof.
  revert n. induction s as [|c s IH]; intros n; cbn [fit].
  - rewrite encoded_length_nil. lia.
  - destruct (width c <=? n)%nat eqn:E.
    + apply Nat.leb_le in E. specialize (IH (n - width c)%nat).
      rewrite encoded_length_cons. lia.
    + rewrite encoded_length_nil. lia.
Qed.

Lemma fit_maximal n s c rest :
  s = fit n s ++ c :: rest -> (n < encoded_length (fit n s) + width c)%nat.
Proof.
  revert n. induction s as [|d s IH]; intros n; cbn [fit].
  - cbn [app]. intros H. discriminate H.
  - destruct (width d <=? n)%nat eqn:E.
    + apply Nat.leb_le in E. cbn [app]. intros H. injection H as H.
      specialize (IH (n - width d)%nat H).
      rewrite encoded_length_cons. lia.
    + apply Nat.leb_gt in E. cbn [app]. intros H. injection H as <- _.
      rewrite encoded_length_nil. lia.
Qed.

Lemma fit_all n s : (encoded_length s <= n)%nat -> fit n s = s.
Proof.
  revert n. induction s as [|c s IH]; intros n H; [reflexivity|].
  rewrite encoded_length_cons in H. cbn [fit].
  destruct (width c <=? n)%nat eqn:E.
  - rewrite IH; [reflexivity|]. lia.
  - apply Nat.leb_gt in E. lia.
Qed.

Lemma fit_scalar n s : Forall scalar s -> Forall scalar (fit n s).
Proof.
  intros H. destruct (fit_prefix n s) as [rest Hrest].
  rewrite Hrest in H. apply Forall_app in H. tauto.
Qed.

Lemma truncate_is_fit location_name :
  _truncate_location_name_to_valid location_name
  = match encode_utf8 location_name with
    | Some _ => Some (fit MAX_NAME_LEN location_name)
    | None => None
    end.
Proof.
  unfold _truncate_location_name_to_valid.
  destruct (encode_utf8 location_name) as [b|] eqn:E; [|reflexivity].
  destruct (List.length b <? MAX_NAME_LEN)%nat eqn:El.
  - apply Nat.ltb_lt in El. rewrite fit_all; [reflexivity|].
    rewrite <- (encode_utf8_length _ _ E). lia.
  - rewrite (decode_ignore_firstn _ _ _ E). reflexivity.
Qed.

(** ** The announced location name *)

(** X1: the name returned is the longest prefix of the location name, in whole
    characters, whose UTF-8 encoding takes at most 63 bytes: it leaves out
    nothing that would still fit, never ends in a partial character, and is
    the name itself when the name takes 63 bytes or less. *)
Theorem truncated_name_fits (location_name valid : str) :
  _truncate_location_name_to_valid location_name = Some valid ->
  (exists rest,
      location_name = valid ++ rest
      /\ match rest with
         | [] => True
         | c :: _ => (MAX_NAME_LEN < encoded_length valid + width c)%nat
         end)
  /\ (exists b, encode_utf8 valid = Some b
                /\ (List.length b <= MAX_NAME_LEN)%nat)
  /\ ((encoded_length location_name <= MAX_NAME_LEN)%nat ->
      valid = location_name).
Proof.
  rewrite truncate_is_fit.
  destruct (encode_utf8 location_name) as [b|] eqn:E; [|discriminate].
  intros H. injection H as <-. split; [|split].
  - destruct (fit_prefix MAX_NAME_LEN location_name) as [rest Hrest].
    exists rest. split; [exact Hrest|]. destruct rest as [|c rest]; [exact I|].
    exact (fit_maximal _ _ _ _ Hrest).
  - assert (Hs : Forall scalar location_name)
      by (apply encode_utf8_scalar; eauto).
    destruct (proj1 (encode_utf8_scalar _) (fit_scalar MAX_NAME_LEN _ Hs))
      as [b' Hb'].
    exists b'. split; [exact Hb'|].
    rewrite (encode_utf8_length _ _ Hb'). apply fit_length.
  - apply fit_all.
Qed.

Lemma truncated_name_fits_witness :
  (exists rest,
      repeat 8364%N 22 = repeat 8364%N 21 ++ rest
      /\ match rest with
         | [] => True
         | c :: _ =>
             (MAX_NAME_LEN < encoded_length (repeat 8364%N 21) + width c)%nat
         end)
  /\ (exists b, encode_utf8 (repeat 8364%N 21) = Some b
                /\ (List.length b <= MAX_NAME_LEN)%nat)
  /\ ((encoded_length (repeat 8364%N 22) <= MAX_NAME_LEN)%nat ->
      repeat 8364%N 21 = repeat 8364%N 22).
Proof.
  apply (truncated_name_fits (repeat 8364%N 22) (repeat 8364%N 21)).
  vm_compute. reflexivity.
Defined.

(** X2: truncation raises (the encoder's error) exactly when the location name
    holds a surrogate; otherwise it returns a name. *)
Theorem truncate_returns_iff_encodable (location_name : str) :
  Forall scalar location_name
  <-> exists valid, _truncate_location_name_to_valid location_name = Some valid.
Proof.
  rewrite truncate_is_fit, encode_utf8_scalar.
  destruct (encode_utf8 location_name) as [b|]; split.
  - intros _. eauto.
  - intros _. eauto.
  - intros [b H]. discriminate.
  - intros [valid H]. discriminate.
Qed.

(** X3: a location name that is not empty is never truncated to the empty
    name. *)
Theorem truncated_name_not_empty (location_name valid : str) :
  location_name <> [] ->
  _truncate_location_name_to_valid location_name = Some valid ->
  valid <> [].
Proof.
  intros Hne. rewrite truncate_is_fit.
  destruct (encode_utf8 location_name) as [b|]; [|discriminate].
  intros H. injection H as <-.
  destruct location_name as [|c rest]; [congruence|]. cbn [fit].
  pose proof (width_bounds c) as Hw.
  destruct (width c <=? MAX_NAME_LEN)%nat eqn:E; [discriminate|].
  apply Nat.leb_gt in E. unfold MAX_NAME_LEN in E. lia.
Qed.

Lemma truncated_name_not_empty_witness :
  repeat 128512%N 15 <> [].
Proof.
  apply (truncated_name_not_empty (repeat 128512%N 16) (repeat 128512%N 15)).
  - discriminate.
  - vm_compute. reflexivity.
Defined.

(** ** Suppressing property values that are too long *)

(** What becomes of a value: a string of more than 230 bytes is replaced
    by the empty string. *)
Definition suppressed (value : param) : param :=
  match value with
  | PStr s =>
      if (MAX_PROPERTY_VALUE_LEN <? encoded_length s)%nat then PStr [] else PStr s
  | PBool b => PBool b
  end.

Definition encodable (value : param) : Prop :=
  match value with
  | PStr s => Forall scalar s
  | PBool _ => True
  end.

Lemma dict_keys_set V (d : pydict V) k v :
  In k (dict_keys d) -> dict_keys (dict_set d k v) = dict_keys d.
Proof.
  induction d as [|[k' v'] d IH]; cbn [dict_keys map fst dict_set In];
    [tauto|].
  intros H. destruct (str_eq_dec k k') as [->|Hne]; [reflexivity|].
  cbn [map fst]. f_equal. apply IH. destruct H; [congruence|assumption].
Qed.

Lemma dict_ext V (a b : pydict V) :
  dict_keys a = dict_keys b -> NoDup (dict_keys a) ->
  (forall k, dict_get a k = dict_get b k) -> a = b.
Proof.
  revert b. induction a as [|[k v] a IH]; intros [|[k' v'] b] Hkeys Hnd Hget;
    try discriminate; [reflexivity|].
  injection Hkeys as -> Hkeys. inversion Hnd as [|? ? Hfresh Hnd']; subst.
  pose proof (Hget k') as Hk. cbn [dict_get] in Hk.
  destruct (str_eq_dec k' k') as [_|]; [|congruence].
  injection Hk as ->. f_equal. apply IH; [exact Hkeys|exact Hnd'|].
  intros k. specialize (Hget k). cbn [dict_get] in Hget.
  destruct (str_eq_dec k k') as [->|_]; [|exact Hget].
  replace (dict_get a k') with (@None V).
  - symmetry. destruct (dict_get b k') eqn:E; [|reflexivity].
    exfalso. apply Hfresh. fold (dict_keys a). rewrite Hkeys.
    apply dict_get_in_keys. congruence.
  - symmetry. destruct (dict_get a k') eqn:E; [|reflexivity].
    exfalso. apply Hfresh. apply dict_get_in_keys. congruence.
Qed.

Lemma suppress_property_spec properties prop value :
  suppress_property properties (prop, value)
  = match value with
    | PBool _ => Some properties
    | PStr s =>
        match encode_utf8 s with
        | None => None
        | Some _ =>
            if (MAX_PROPERTY_VALUE_LEN <? encoded_length s)%nat
            then Some (dict_set properties prop (PStr []))
            else Some properties
        end
    end.
Proof.
  unfold suppress_property. destruct value as [s|b]; [|reflexivity].
  destruct (encode_utf8 s) as [e|] eqn:E; [|reflexivity].
  rewrite (encode_utf8_length _ _ E). reflexivity.
Qed.

Definition too_long (value : param) : bool :=
  match value with
  | PStr s => (MAX_PROPERTY_VALUE_LEN <? encoded_length s)%nat
  | PBool _ => false
  end.

Lemma suppressed_too_long value :
  suppressed value = if too_long value then PStr [] else value.
Proof.
  destruct value as [s|b]; [|reflexivity]. cbn [suppressed too_long].
  destruct (MAX_PROPERTY_VALUE_LEN <? encoded_length s)%nat; reflexivity.
Qed.

Lemma suppress_items_spec items :
  forall properties result : pydict param,
    suppress_items properties items = Some result ->
    (forall k, In k (map fst items) -> In k (dict_keys properties)) ->
    dict_keys result = dict_keys properties
    /\ (forall k, ~ In k (map fst items) ->
                  dict_get result k = dict_get properties k)
    /\ (NoDup (map fst items) ->
        forall k v, In (k, v) items ->
          dict_get result k
          = if too_long v then Some (PStr []) else dict_get properties k).
Proof.
  induction items as [|[prop value] rest IH]; intros properties result Hrun Hin.
  - injection Hrun as <-. split; [reflexivity|]. split; [reflexivity|].
    intros _ k v [].
  - cbn [suppress_items] in Hrun. rewrite suppress_property_spec in Hrun.
    assert (Hprop : In prop (dict_keys properties))
      by (apply Hin; left; reflexivity).
    assert (Hrest : forall p : pydict param,
              dict_keys p = dict_keys properties ->
              forall k, In k (map fst rest) -> In k (dict_keys p)).
    { intros p Hp k Hk. rewrite Hp. apply Hin. right. exact Hk. }
    assert (Hstep : exists next : pydict param,
              suppress_items next rest = Some result
              /\ dict_keys next = dict_keys properties
              /\ dict_get next prop
                 = (if too_long value then Some (PStr [])
                    else dict_get properties prop)
              /\ (forall k, k <> prop ->
                            dict_get next k = dict_get properties k)).
    { destruct value as [s|b]; cbn [too_long].
      - destruct (encode_utf8 s) as [e|]; [|discriminate].
        destruct (MAX_PROPERTY_VALUE_LEN <? encoded_length s)%nat.
        + exists (dict_set properties prop (PStr [])).
          split; [exact Hrun|]. split; [apply dict_keys_set; exact Hprop|].
          split; [apply dict_get_set_same|].
          intros k Hk. apply dict_get_set_other. exact Hk.
        + exists properties. auto.
      - exists properties. auto. }
    destruct Hstep as (next & Hnext & Hkeys & Hsame & Hother).
    destruct (IH next result Hnext (Hrest next Hkeys)) as (Hk & Ha & Hb).
    split; [congruence|]. split.
    + intros k Hout. rewrite Ha by (intros H; apply Hout; right; exact H).
      apply Hother. intros ->. apply Hout. left. reflexivity.
    + intros Hnd k v [Heq|Hv]; inversion Hnd as [|? ? Hfresh Hnd']; subst.
      * injection Heq as <- <-. rewrite Ha by exact Hfresh. exact Hsame.
      * rewrite (Hb Hnd' k v Hv). destruct (too_long v); [reflexivity|].
        apply Hother. intros ->. apply Hfresh.
        change (In (fst (prop, v)) (map fst rest)).
        apply in_map. exact Hv.
Qed.

Definition suppress_value (item : str * param) : str * param :=
  (fst item, suppressed (snd item)).

Lemma dict_get_suppress_value properties k :
  dict_get (map suppress_value properties) k
  = option_map suppressed (dict_get properties k).
Proof.
  induction properties as [|[k' v] properties IH]; [reflexivity|].
  cbn [map suppress_value fst snd dict_get].
  destruct (str_eq_dec k k'); [reflexivity|exact IH].
Qed.

Lemma dict_keys_suppress_value properties :
  dict_keys (map suppress_value properties) = dict_keys properties.
Proof.
  unfold dict_keys. rewrite map_map. apply map_ext. intros [k v]. reflexivity.
Qed.

Lemma suppress_is_map properties result :
  NoDup (dict_keys properties) ->
  _suppress_invalid_properties properties = Some result ->
  result = map suppress_value properties.
Proof.
  intros Hnd Hrun. unfold _suppress_invalid_properties in Hrun.
  destruct (suppress_items_spec properties properties result Hrun
              (fun k H => H)) as (Hkeys & Ha & Hb).
  apply dict_ext.
  - rewrite dict_keys_suppress_value. exact Hkeys.
  - rewrite Hkeys. exact Hnd.
  - intros k. rewrite dict_get_suppress_value.
    destruct (dict_get properties k) as [v|] eqn:E.
    + rewrite (Hb Hnd k v (dict_get_In _ _ _ _ E)), E.
      cbn [option_map]. rewrite suppressed_too_long.
      destruct (too_long v); reflexivity.
    + rewrite Ha, E; [reflexivity|].
      intros H. apply dict_get_in_keys in H. congruence.
Qed.

Lemma suppress_items_returns items :
  forall properties : pydict param,
    Forall (fun item => encodable (snd item)) items
    <-> exists result, suppress_items properties items = Some result.
Proof.
  induction items as [|[prop value] rest IH]; intros properties.
  - split; [intros _; exists properties; reflexivity|constructor].
  - cbn [suppress_items]. rewrite suppress_property_spec. split.
    + intros H. inversion H as [|? ? Hv Hrest]; subst. cbn [snd] in Hv.
      destruct value as [s|b]; [|apply IH; exact Hrest].
      apply encode_utf8_scalar in Hv. destruct Hv as [e ->].
      destruct (MAX_PROPERTY_VALUE_LEN <? encoded_length s)%nat;
        apply IH; exact Hrest.
    + intros [result H]. destruct value as [s|b].
      * destruct (encode_utf8 s) as [e|] eqn:E; [|discriminate].
        constructor; [apply encode_utf8_scalar; eauto|].
        destruct (MAX_PROPERTY_VALUE_LEN <? encoded_length s)%nat;
          eapply IH; eauto.
      * constructor; [exact I|]. eapply IH; eauto.
Qed.

(** X4: after suppression the dictionary has the same keys in the same order;
    the value under a key is the empty string if it was a string of more
    than 230 bytes and is untouched otherwise (in particular if it is not a
    string); so no string value takes more than 230 bytes. *)
Theorem suppressed_properties (properties result : pydict param) :
  NoDup (dict_keys properties) ->
  _suppress_invalid_properties properties = Some result ->
  dict_keys result = dict_keys properties
  /\ (forall k v, dict_get properties k = Some v ->
                  dict_get result k
                  = Some (if too_long v then PStr [] else v))
  /\ (forall k s, dict_get result k = Some (PStr s) ->
                  (encoded_length s <= MAX_PROPERTY_VALUE_LEN)%nat).
Proof.
  intros Hnd Hrun. rewrite (suppress_is_map _ _ Hnd Hrun).
  split; [apply dict_keys_suppress_value|]. split.
  - intros k v Hv. rewrite dict_get_suppress_value, Hv.
    cbn [option_map]. rewrite suppressed_too_long. reflexivity.
  - intros k s. rewrite dict_get_suppress_value.
    destruct (dict_get properties k) as [[s'|b]|]; cbn [option_map suppressed];
      try discriminate.
    destruct (MAX_PROPERTY_VALUE_LEN <? encoded_length s')%nat eqn:E;
      intros H; injection H as <-.
    + rewrite encoded_length_nil. lia.
    + apply Nat.ltb_ge in E. exact E.
Qed.

Definition long_value : str := repeat 97%N 231.

Lemma suppressed_properties_witness :
  let properties := [(lit "location_name", PStr long_value);
                     (lit "requires_api_password", PBool true);
                     (lit "uuid", PStr (lit "abc"))] in
  let result := [(lit "location_name", PStr []);
                 (lit "requires_api_password", PBool true);
                 (lit "uuid", PStr (lit "abc"))] in
  dict_keys result = dict_keys properties
  /\ (forall k v, dict_get properties k = Some v ->
                  dict_get result k
                  = Some (if too_long v then PStr [] else v))
  /\ (forall k s, dict_get result k = Some (PStr s) ->
                  (encoded_length s <= MAX_PROPERTY_VALUE_LEN)%nat).
Proof.
  intros properties result.
  apply (suppressed_properties properties result).
  - repeat constructor; simpl; intuition discriminate.
  - vm_compute. reflexivity.
Defined.

(** X5: suppression raises (the encoder's error) exactly when some string
    value holds a surrogate. *)
Theorem suppress_returns_iff_encodable (properties : pydict param) :
  Forall (fun item => encodable (snd item)) properties
  <-> exists result, _suppress_invalid_properties properties = Some result.
Proof. apply suppress_items_returns. Qed.

Lemma suppressed_idempotent value : suppressed (suppressed value) = suppressed value.
Proof.
  destruct value as [s|b]; [|reflexivity]. cbn [suppressed].
  destruct (MAX_PROPERTY_VALUE_LEN <? encoded_length s)%nat eqn:E;
    cbn [suppressed]; [reflexivity|rewrite E; reflexivity].
Qed.

Lemma suppressed_encodable value : encodable value -> encodable (suppressed value).
Proof.
  destruct value as [s|b]; [|trivial]. cbn [suppressed encodable].
  destruct (MAX_PROPERTY_VALUE_LEN <? encoded_length s)%nat;
    [constructor|trivial].
Qed.

(** X6: suppressing twice changes nothing more: what suppression returns is
    returned unchanged by a second pass. *)
Theorem suppress_twice (properties result : pydict param) :
  NoDup (dict_keys properties) ->
  _suppress_invalid_properties properties = Some result ->
  _suppress_invalid_properties result = Some result.
Proof.
  intros Hnd Hrun.
  assert (Henc : Forall (fun item => encodable (snd item)) properties)
    by (apply (suppress_items_returns properties properties); eauto).
  pose proof (suppress_is_map _ _ Hnd Hrun) as ->.
  assert (Henc' : Forall (fun item => encodable (snd item))
                         (map suppress_value properties)).
  { apply Forall_map. revert Henc. apply Forall_impl.
    intros [k v]. apply suppressed_encodable. }
  apply (suppress_items_returns _ (map suppress_value properties)) in Henc'.
  destruct Henc' as [again Hagain]. fold (_suppress_invalid_properties
    (map suppress_value properties)) in Hagain.
  rewrite Hagain. f_equal.
  assert (Hnd' : NoDup (dict_keys (map suppress_value properties)))
    by (rewrite dict_keys_suppress_value; exact Hnd).
  rewrite (suppress_is_map _ _ Hnd' Hagain).
  rewrite map_map. apply map_ext. intros [k v]. unfold suppress_value.
  cbn [fst snd]. rewrite suppressed_idempotent. reflexivity.
Qed.

Lemma suppress_twice_witness :
  _suppress_invalid_properties
    [(lit "location_name", PStr []); (lit "uuid", PStr (lit "abc"))]
  = Some [(lit "location_name", PStr []); (lit "uuid", PStr (lit "abc"))].
Proof.
  apply (suppress_twice [(lit "location_name", PStr long_value);
                         (lit "uuid", PStr (lit "abc"))]).
  - repeat constructor; simpl; intuition discriminate.
  - vm_compute. reflexivity.
Defined.

(** ** The shared instance *)

Lemma get_instances_stored hass aio_zc calls :
  data_zeroconf hass = Some aio_zc ->
  get_instances hass calls = (repeat aio_zc (List.length calls), hass).
Proof.
  intros Hdata. induction calls as [|zcargs rest IH]; [reflexivity|].
  cbn [get_instances]. unfold _async_get_instance. rewrite Hdata, IH.
  reflexivity.
Qed.

(** X7: whatever the calls and their arguments, one instance is shared: if
    [hass.data] holds an instance every call returns it and nothing
    changes; otherwise the first call builds the instance with its own
    arguments, registers one stop listener and stores it, and every later
    call returns that instance, its arguments being ignored. *)
Theorem one_shared_instance (hass : hass_state)
    (calls : list (option zc_args)) :
  match data_zeroconf hass, calls with
  | Some aio_zc, _ =>
      get_instances hass calls = (repeat aio_zc (List.length calls), hass)
  | None, [] => get_instances hass calls = ([], hass)
  | None, zcargs :: _ =>
      let aio_zc := {| built_with := zcargs; serial := built hass |} in
      get_instances hass calls
      = (repeat aio_zc (List.length calls),
         {| data_zeroconf := Some aio_zc;
            built := S (built hass);
            stop_listeners := stop_listeners hass ++ [aio_zc] |})
  end.
Proof.
  destruct (data_zeroconf hass) as [aio_zc|] eqn:Hdata.
  - apply get_instances_stored. exact Hdata.
  - destruct calls as [|zcargs rest]; [reflexivity|].
    cbn [get_instances]. unfold _async_get_instance at 1. rewrite Hdata.
    erewrite get_instances_stored by reflexivity. reflexivity.
Qed.

(** ** The arguments of the zeroconf instance *)

Section ZeroconfArguments.
Variable is_global : ip_addr -> bool.
Variable async_only_default_interface_enabled : list Adapter.t -> bool.

Definition has_enabled_ipv6 (adapters : list Adapter.t) : bool :=
  existsb (fun adapter => Adapter.enabled adapter
                          && nonempty (Adapter.ipv6 adapter)) adapters.

Definition has_enabled_ipv4 (adapters : list Adapter.t) : bool :=
  existsb (fun adapter => Adapter.enabled adapter
                          && nonempty (Adapter.ipv4 adapter)) adapters.

Lemma zc_args_version platform adapters enabled_source_ips :
  let out := async_setup_zc_args is_global
               async_only_default_interface_enabled
               platform adapters enabled_source_ips in
  ip_version (fst out)
  = (if _async_zc_has_functional_dual_stack platform
     then if has_enabled_ipv6 adapters then All else V4Only
     else if has_enabled_ipv4 adapters then V4Only else V6Only)
  /\ snd out = negb (IPVersion_eqb (ip_version (fst out)) V4Only).
Proof.
  unfold async_setup_zc_args, has_enabled_ipv6, has_enabled_ipv4.
  destruct (_async_zc_has_functional_dual_stack platform);
    destruct (existsb _ adapters); cbn [negb andb];
    destruct (async_only_default_interface_enabled adapters);
    cbn [fst snd ip_version]; split; reflexivity.
Qed.

(** X8: the IP version asked of zeroconf and the [ipv6] flag of the discovery
    agree: the flag is set exactly when the version is not IPv4-only.  On
    FreeBSD and macOS the version is never [All]: it is IPv6-only exactly
    when no enabled adapter has an IPv4 address.  Elsewhere it is never
    IPv6-only: it is [All] exactly when an enabled adapter has an IPv6
    address.  The default interface is chosen only with IPv4-only. *)
Theorem zc_args_ip_version (platform : str) (adapters : list Adapter.t)
    (enabled_source_ips : list ip_addr) :
  let out := async_setup_zc_args is_global
               async_only_default_interface_enabled
               platform adapters enabled_source_ips in
  let dual := _async_zc_has_functional_dual_stack platform in
  (snd out = true <-> ip_version (fst out) <> V4Only)
  /\ (dual = false ->
      ip_version (fst out) <> All
      /\ (ip_version (fst out) = V6Only <-> has_enabled_ipv4 adapters = false))
  /\ (dual = true ->
      ip_version (fst out) <> V6Only
      /\ (ip_version (fst out) = All <-> has_enabled_ipv6 adapters = true))
  /\ (interfaces (fst out) = InterfaceChoice_Default ->
      ip_version (fst out) = V4Only
      /\ async_only_default_interface_enabled adapters = true).
Proof.
  intros out dual.
  destruct (zc_args_version platform adapters enabled_source_ips)
    as [Hv Hflag].
  fold out in Hv, Hflag. fold dual in Hv.
  split; [|split; [|split]].
  - rewrite Hflag. destruct (ip_version (fst out)); cbn; split;
      congruence.
  - intros Hd. rewrite Hd in Hv. rewrite Hv.
    destruct (has_enabled_ipv4 adapters); split; try split; congruence.
  - intros Hd. rewrite Hd in Hv. rewrite Hv.
    destruct (has_enabled_ipv6 adapters); split; try split; congruence.
  - subst out dual. unfold async_setup_zc_args.
    destruct (_async_zc_has_functional_dual_stack platform);
      destruct (existsb _ adapters); cbn [negb andb];
      destruct (async_only_default_interface_enabled adapters);
      cbn [fst snd ip_version interfaces]; intros H;
      try discriminate H; split; reflexivity.
Qed.

(** The source addresses zeroconf is bound to, when they are listed. *)
Definition bound_sources (version0 : IPVersion)
    (enabled_source_ips : list ip_addr) : list ip_addr :=
  filter
    (fun source_ip =>
       negb (is_loopback source_ip)
       && negb ((version source_ip =? 6)%N && is_global source_ip)
       && negb ((version source_ip =? 6)%N && IPVersion_eqb version0 V4Only)
       && negb ((version source_ip =? 4)%N && IPVersion_eqb version0 V6Only))
    enabled_source_ips.

Lemma version_cases a : version a = 4%N \/ version a = 6%N.
Proof. destruct a; auto. Qed.

(** X9: when the interfaces are listed, they are the enabled source addresses,
    in their order, that are not loopback and not global IPv6 and that
    belong to a family the chosen IP version covers: no IPv6 source with
    IPv4-only, no IPv4 source with IPv6-only. *)
Theorem zc_args_interfaces (platform : str) (adapters : list Adapter.t)
    (enabled_source_ips : list ip_addr) (sources : list str) :
  let out := async_setup_zc_args is_global
               async_only_default_interface_enabled
               platform adapters enabled_source_ips in
  interfaces (fst out) = Interfaces sources ->
  exists kept,
    sources = map ip_str kept
    /\ kept = bound_sources (ip_version (fst out)) enabled_source_ips
    /\ (forall ip, In ip kept <->
          In ip enabled_source_ips
          /\ is_loopback ip = false
          /\ (version ip = 6%N ->
              is_global ip = false /\ ip_version (fst out) <> V4Only)
          /\ (version ip = 4%N -> ip_version (fst out) <> V6Only))
    /\ (ip_version (fst out) = V4Only ->
        Forall (fun ip => version ip = 4%N) kept)
    /\ (ip_version (fst out) = V6Only ->
        Forall (fun ip => version ip = 6%N) kept).
Proof.
  intros out Hint.
  assert (Hmem : forall v ip,
            In ip (bound_sources v enabled_source_ips) <->
            In ip enabled_source_ips
            /\ is_loopback ip = false
            /\ (version ip = 6%N -> is_global ip = false /\ v <> V4Only)
            /\ (version ip = 4%N -> v <> V6Only)).
  { intros v ip. unfold bound_sources. rewrite filter_In.
    destruct (version_cases ip) as [Hv|Hv]; rewrite Hv;
      destruct (is_loopback ip), (is_global ip), v; cbn;
      intuition congruence. }
  exists (bound_sources (ip_version (fst out)) enabled_source_ips).
  split; [|split; [reflexivity|split; [apply Hmem|split]]].
  - subst out. revert Hint. unfold async_setup_zc_args, bound_sources.
    destruct (_async_zc_has_functional_dual_stack platform);
      destruct (existsb _ adapters); cbn [negb andb];
      destruct (async_only_default_interface_enabled adapters);
      cbn [fst snd ip_version interfaces]; intros H;
      try discriminate H; injection H as <-; reflexivity.
  - intros Hv. apply Forall_forall. intros ip Hip. apply Hmem in Hip.
    destruct Hip as (_ & _ & H6 & _).
    destruct (version_cases ip) as [H|H]; [exact H|].
    destruct (H6 H) as [_ Hne]. congruence.
  - intros Hv. apply Forall_forall. intros ip Hip. apply Hmem in Hip.
    destruct Hip as (_ & _ & _ & H4).
    destruct (version_cases ip) as [H|H]; [|exact H].
    specialize (H4 H). congruence.
Qed.
End ZeroconfArguments.

Definition linux_adapters : list Adapter.t :=
  [{| Adapter.enabled := true;
      Adapter.ipv6 := [lit "fe80::1"];
      Adapter.ipv4 := [lit "10.0.0.5"] |};
   {| Adapter.enabled := false;
      Adapter.ipv6 := [];
      Adapter.ipv4 := [lit "192.168.1.9"] |}].

Definition linux_source_ips : list ip_addr :=
  [IPv4Address 167772165; IPv4Address 2130706433;
   IPv6Address 338288524927261089654018896841347694593].

Lemma zc_args_interfaces_witness :
  exists kept,
    [lit "10.0.0.5"; lit "fe80::1"] = map ip_str kept
    /\ kept = bound_sources (fun _ => false) All linux_source_ips
    /\ (forall ip, In ip kept <->
          In ip linux_source_ips
          /\ is_loopback ip = false
          /\ (version ip = 6%N -> false = false /\ All <> V4Only)
          /\ (version ip = 4%N -> All <> V6Only))
    /\ (All = V4Only -> Forall (fun ip => version ip = 4%N) kept)
    /\ (All = V6Only -> Forall (fun ip => version ip = 6%N) kept).
Proof.
  apply (zc_args_interfaces (fun _ => false) (fun _ => false) (lit "linux")
           linux_adapters linux_source_ips [lit "10.0.0.5"; lit "fe80::1"]).
  vm_compute. reflexivity.
Defined.

(** ** Packed addresses *)

Lemma to_N_byte_of_N n : Byte.to_N (byte_of_N n) = (n mod 256)%N.
Proof.
  unfold byte_of_N. destruct (Byte.of_N (n mod 256)) as [b|] eqn:E.
  - apply Byte.to_of_N. exact E.
  - apply Byte.of_N_None_iff in E.
    pose proof (N.mod_upper_bound n 256 ltac:(discriminate)) as Hb.
    exfalso. revert E Hb. generalize (n mod 256)%N. intros m. lia.
Qed.

Lemma int_from_bytes_snoc l b :
  int_from_bytes (l ++ [b]) = (int_from_bytes l * 256 + Byte.to_N b)%N.
Proof. unfold int_from_bytes. rewrite fold_left_app. reflexivity. Qed.

Lemma to_bytes_length k n : List.length (to_bytes k n) = k.
Proof.
  revert n. induction k as [|k IH]; intros n; [reflexivity|].
  cbn [to_bytes]. rewrite length_app, IH. cbn [List.length]. lia.
Qed.

Lemma int_from_to_bytes k n :
  int_from_bytes (to_bytes k n) = (n mod 256 ^ N.of_nat k)%N.
Proof.
  revert n. induction k as [|k IH]; intros n.
  - cbn [to_bytes]. change (256 ^ N.of_nat 0)%N with 1%N.
    rewrite N.mod_1_r. reflexivity.
  - cbn [to_bytes]. rewrite int_from_bytes_snoc, IH, to_N_byte_of_N.
    rewrite Nat2N.inj_succ, N.pow_succ_r'.
    rewrite (N.Div0.mod_mul_r n 256 (256 ^ N.of_nat k)). lia.
Qed.

(** An address that fits its family: below [2^32], or below [2^128]. *)
Definition in_family (a : ip_addr) : Prop :=
  match a with
  | IPv4Address ip => (ip < 2 ^ 32)%N
  | IPv6Address ip => (ip < 2 ^ 128)%N
  end.

(** X10: packing an address and reading the packed bytes gives the address
    back: the 4 or 16 bytes of [packed] are what [ip_address] accepts. *)
Theorem packed_address_round_trip (a : ip_addr) :
  in_family a -> ip_address (packed_address a) = Returned a.
Proof.
  destruct a as [ip|ip]; cbn [in_family packed_address]; intros Hip;
    unfold ip_address; rewrite to_bytes_length; cbn [Nat.eqb];
    rewrite int_from_to_bytes; f_equal; f_equal; apply N.mod_small;
    exact Hip.
Qed.

Lemma packed_address_round_trip_witness :
  ip_address (packed_address (IPv4Address 167772165))
  = Returned (IPv4Address 167772165).
Proof.
  apply (packed_address_round_trip (IPv4Address 167772165)).
  cbn [in_family]. reflexivity.
Defined.

(** ** The announced addresses *)

Section Announced.
Variable ip_address_of_text : str -> result ip_addr.

Lemma NoDup_remove_all (x : bytes) (l : list bytes) :
  NoDup l -> NoDup (remove bytes_eq_dec x l).
Proof.
  induction 1 as [|y l Hy Hl IH]; cbn [remove]; [constructor|].
  destruct (bytes_eq_dec x y); [exact IH|].
  constructor; [|exact IH]. intros H. apply in_remove in H. tauto.
Qed.

Lemma parse_all_In texts addrs :
  parse_all ip_address_of_text texts = Returned addrs ->
  forall addr, In addr addrs <->
    exists text, In text texts /\ ip_address_of_text text = Returned addr.
Proof.
  revert addrs. induction texts as [|text rest IH]; intros addrs H addr.
  - injection H as <-. split; [intros []|intros (? & [] & _)].
  - cbn [parse_all] in H.
    destruct (ip_address_of_text text) as [a|e] eqn:Ea; [|discriminate].
    cbn [rbind] in H.
    destruct (parse_all ip_address_of_text rest) as [others|e] eqn:Er;
      [|discriminate].
    injection H as <-. cbn [In]. rewrite (IH others eq_refl addr). split.
    + intros [<-|(t & Ht & Hp)]; [exists text; auto|exists t; auto].
    + intros (t & [<-|Ht] & Hp); [left; congruence|right; eauto].
Qed.

(** An address to announce: the packed form of an address of an enabled
    adapter that is neither unspecified nor loopback. *)
Definition announceable (adapters : list Adapter.t) (address : bytes) : Prop :=
  exists adapter text addr,
    In adapter adapters /\ Adapter.enabled adapter = true
    /\ In text (Adapter.ipv6 adapter ++ Adapter.ipv4 adapter)
    /\ ip_address_of_text text = Returned addr
    /\ is_unspecified addr = false /\ is_loopback addr = false
    /\ address = packed_address addr.

Lemma adapter_addresses_In adapters addrs :
  adapter_addresses ip_address_of_text adapters = Returned addrs ->
  forall address,
    In address
       (map packed_address
          (filter (fun addr => negb (is_unspecified addr || is_loopback addr))
                  addrs))
    <-> announceable adapters address.
Proof.
  intros H address. unfold adapter_addresses in H.
  pose proof (parse_all_In _ _ H) as Hin.
  rewrite in_map_iff. unfold announceable. split.
  - intros (addr & <- & Hf). apply filter_In in Hf. destruct Hf as [Ha Hok].
    apply Hin in Ha. destruct Ha as (text & Ht & Hp).
    apply in_flat_map in Ht. destruct Ht as (adapter & Had & Htext).
    apply filter_In in Had. destruct Had as [Had Hen].
    apply negb_true_iff, orb_false_iff in Hok.
    exists adapter, text, addr. tauto.
  - intros (adapter & text & addr & Had & Hen & Htext & Hp & Hu & Hl & ->).
    exists addr. split; [reflexivity|]. apply filter_In. split.
    + apply Hin. exists text. split; [|exact Hp].
      apply in_flat_map. exists adapter. split; [|exact Htext].
      apply filter_In. auto.
    + rewrite Hu, Hl. reflexivity.
Qed.

Lemma announced_addresses_spec (adapters : list Adapter.t)
    (first_ip : option bytes) (address_list : list bytes) :
  _get_announced_addresses ip_address_of_text adapters first_ip
  = Returned address_list ->
  NoDup address_list
  /\ (forall address,
        In address address_list <->
        (first_ip = Some address /\ address <> [])
        \/ announceable adapters address)
  /\ (forall first, first_ip = Some first -> first <> [] ->
        exists rest, address_list = first :: rest /\ ~ In first rest).
Proof.
  unfold _get_announced_addresses.
  destruct (adapter_addresses ip_address_of_text adapters) as [addrs|e] eqn:Ea;
    [|discriminate].
  cbn [rbind]. pose proof (adapter_addresses_In _ _ Ea) as Hin.
  set (found := map packed_address _) in *.
  assert (Hset : forall address,
            In address (nodup bytes_eq_dec found) <-> announceable adapters address).
  { intros address. rewrite nodup_In. apply Hin. }
  assert (Hnd : NoDup (nodup bytes_eq_dec found)) by apply NoDup_nodup.
  destruct first_ip as [[|b r]|].
  - intros H. injection H as <-. split; [exact Hnd|]. split.
    + intros address. rewrite Hset. split; [auto|].
      intros [[H Hne]|H]; [|exact H]. injection H as <-. congruence.
    + intros first H. injection H as <-. congruence.
  - intros H. injection H as <-. split; [|split].
    + constructor; [apply remove_In|apply NoDup_remove_all; exact Hnd].
    + intros address. cbn [In]. split.
      * intros [<-|H]; [left; split; [reflexivity|discriminate]|].
        apply in_remove in H. right. apply Hset. tauto.
      * intros [[H _]|H]; [left; congruence|].
        destruct (bytes_eq_dec (b :: r) address) as [->|Hne]; [left; reflexivity|].
        right. apply in_in_remove; [congruence|]. apply Hset. exact H.
    + intros first H _. injection H as <-. eexists. split; [reflexivity|].
      apply remove_In.
  - intros H. injection H as <-. split; [exact Hnd|]. split.
    + intros address. rewrite Hset. split; [auto|].
      intros [[H _]|H]; [discriminate|exact H].
    + intros first H. discriminate.
Qed.

(** X11: the list of addresses to announce has no duplicates and holds
    exactly the announceable addresses and, when a first address is given
    (and not empty), that address, which then comes first and only once. *)
Theorem announced_addresses (adapters : list Adapter.t)
    (first_ip : option bytes) (address_list : list bytes) :
  _get_announced_addresses ip_address_of_text adapters first_ip
  = Returned address_list ->
  NoDup address_list
  /\ (forall address,
        In address address_list <->
        (first_ip = Some address /\ address <> [])
        \/ announceable adapters address)
  /\ (forall first, first_ip = Some first -> first <> [] ->
        exists rest, address_list = first :: rest /\ ~ In first rest).
Proof. apply announced_addresses_spec. Qed.
End Announced.

(** ** Property values that are UTF-8 *)

(** One step of the strict decoder. *)
Lemma utf8_points_cons b0 r0 :
  utf8_points (b0 :: r0)
  = if (b0 <? 128)%N then option_map (cons b0) (utf8_points r0)
    else if in_range 194 223 b0 then
      match r0 with
      | b1 :: r1 =>
          if cont b1
          then option_map (cons (N.land b0 31 * 64 + low6 b1)%N) (utf8_points r1)
          else None
      | _ => None
      end
    else if in_range 224 239 b0 then
      match r0 with
      | b1 :: b2 :: r2 =>
          if in_range (if (b0 =? 224)%N then 160 else 128)
                      (if (b0 =? 237)%N then 159 else 191) b1 && cont b2
          then option_map
                 (cons (N.land b0 15 * 4096 + low6 b1 * 64 + low6 b2)%N)
                 (utf8_points r2)
          else None
      | _ => None
      end
    else if in_range 240 244 b0 then
      match r0 with
      | b1 :: b2 :: b3 :: r3 =>
          if in_range (if (b0 =? 240)%N then 144 else 128)
                      (if (b0 =? 244)%N then 143 else 191) b1
             && cont b2 && cont b3
          then option_map
                 (cons (N.land b0 7 * 262144 + low6 b1 * 4096
                        + low6 b2 * 64 + low6 b3)%N)
                 (utf8_points r3)
          else None
      | _ => None
      end
    else None.
Proof. reflexivity. Qed.

Lemma utf8_points_point c bs rest :
  encode_point c = Some bs ->
  utf8_points (bs ++ rest) = option_map (cons c) (utf8_points rest).
Proof.
  intros H. apply encode_point_cases in H.
  destruct H as [[Hc ->]|[(b0 & b1 & -> & R0 & R1 & Rc)
                  |[(b0 & b1 & b2 & -> & R0 & R1 & R2 & Ra & Rb & Rc)
                   |(b0 & b1 & b2 & b3 & -> & R0 & R1 & R2 & R3 & Ra & Rb & Rc)]]];
    try subst c; cbn [app]; rewrite utf8_points_cons; cbv iota;
    try byte_ranges; repeat (branch; try lia); reflexivity.
Qed.

(** The strict decoder gives back what the encoder was given. *)
Lemma utf8_points_encode s b :
  encode_utf8 s = Some b -> utf8_points b = Some s.
Proof.
  revert b. induction s as [|c rest IH]; intros b H.
  - injection H as <-. reflexivity.
  - apply encode_utf8_cons in H. destruct H as (head & tail & Hc & Hr & ->).
    rewrite (utf8_points_point c head tail Hc), (IH tail Hr). reflexivity.
Qed.

(** X12: a property advertised under an ASCII key (in a byte-map without the
    key [b"_raw"]) whose value is the UTF-8 encoding of a string comes out
    of the normalizer as that string in the typed bag, and as the bytes
    advertised in the raw bag. *)
Theorem utf8_property_round_trip (service : AsyncServiceInfo.t)
    (key value : bytes) (k s : str) :
  let items := AsyncServiceInfo.properties service in
  NoDup (map fst items) ->
  ~ In (blit "_raw") (map fst items) ->
  In (key, Some value) items ->
  decode_ascii key = Returned k ->
  encode_utf8 s = Some (map Byte.to_N value) ->
  exists props raw,
    decoded service = Returned props
    /\ dict_get props (lit "_raw") = Some (VDict raw)
    /\ dict_get raw k = Some (Some value)
    /\ dict_get props k = Some (VStr s).
Proof.
  intros items Hnd Hnone Hin Hk Hs.
  destruct (decode_properties_loop items [(lit "_raw", VDict [])] []
              eq_refl Hnone) as (props & raw & Hrun & Hraw & _ & Hb).
  exists props, raw. split; [exact Hrun|]. split; [exact Hraw|].
  destruct (Hb Hnd key (Some value) k Hin Hk) as [H1 H2].
  split; [exact H1|]. rewrite H2. unfold typed_value, decode_utf8.
  rewrite (utf8_points_encode s _ Hs). reflexivity.
Qed.

Lemma utf8_property_round_trip_witness :
  exists props raw,
    decoded (lock_service [(blit "name", Some [xc3; xa9; xe2; x82; xac])]
                          [addr_10_0_0_5])
    = Returned props
    /\ dict_get props (lit "_raw") = Some (VDict raw)
    /\ dict_get raw (lit "name") = Some (Some [xc3; xa9; xe2; x82; xac])
    /\ dict_get props (lit "name") = Some (VStr [233; 8364]%N).
Proof.
  apply (utf8_property_round_trip
           (lock_service [(blit "name", Some [xc3; xa9; xe2; x82; xac])]
                         [addr_10_0_0_5])
           (blit "name") [xc3; xa9; xe2; x82; xac] (lit "name")
           [233; 8364]%N).
  - repeat constructor. simpl. tauto.
  - simpl. intros [H|[]]. discriminate H.
  - left. reflexivity.
  - reflexivity.
  - reflexivity.
Defined.

(** ** The task body: the flows it creates *)

Section Flows.
Context {B : Builtins}.

Lemma match_rules_flow info f matchers fl :
  In fl (fst (match_rules info f matchers)) ->
  flow_source fl = SOURCE_ZEROCONF /\ flow_info fl = info
  /\ exists matcher,
       In matcher matchers /\ rule_matches f matcher = true
       /\ dict_get matcher (lit "domain") = Some (flow_domain fl).
Proof.
  induction matchers as [|matcher rest IH]; cbn [match_rules]; [intros []|].
  destruct (rule_matches f matcher) eqn:Hm.
  - unfold dict_item.
    destruct (dict_get matcher (lit "domain")) as [domain|] eqn:Hd;
      [|intros []].
    destruct (match_rules info f rest) as [flows r]. cbn [fst In] in *.
    intros [<-|Hin].
    + cbn. split; [reflexivity|]. split; [reflexivity|].
      exists matcher. split; [left; reflexivity|auto].
    + destruct (IH Hin) as (H1 & H2 & m & Hm1 & Hm2 & Hm3).
      split; [exact H1|]. split; [exact H2|]. exists m.
      split; [right; exact Hm1|auto].
  - intros Hin. destruct (IH Hin) as (H1 & H2 & m & Hm1 & Hm2 & Hm3).
    split; [exact H1|]. split; [exact H2|]. exists m.
    split; [right; exact Hm1|auto].
Qed.

Lemma generic_dispatch_flow self service_type info fl :
  In fl (fst (generic_dispatch self service_type info)) ->
  flow_source fl = SOURCE_ZEROCONF /\ flow_info fl = info
  /\ exists f matcher,
       fields_of info = Returned f
       /\ In matcher (rules_for self service_type)
       /\ rule_matches f matcher = true
       /\ dict_get matcher (lit "domain") = Some (flow_domain fl).
Proof.
  unfold generic_dispatch.
  destruct (fields_of info) as [f|e] eqn:Hf; [|intros []].
  intros Hin.
  destruct (match_rules_flow _ _ _ _ Hin) as (H1 & H2 & m & Hm & Hr & Hd).
  split; [exact H1|]. split; [exact H2|]. exists f, m. auto.
Qed.

(** A flow of the HomeKit kind, for the record of this task. *)
Definition homekit_flow_of (self : ZeroconfDiscovery) (zeroconf : HaZeroconf)
    (service_type name : str) (fl : flow) : Prop :=
  flow_source fl = SOURCE_HOMEKIT
  /\ In service_type HOMEKIT_TYPES
  /\ info_from_service (zeroconf service_type name)
     = Returned (Some (flow_info fl))
  /\ flow_domain fl <> []
  /\ async_get_homekit_discovery_domain (homekit_models self)
       (ZeroconfServiceInfo.properties (flow_info fl))
     = Returned (Some (flow_domain fl)).

(** A flow of the generic kind, for the record of this task. *)
Definition generic_flow_of (self : ZeroconfDiscovery) (zeroconf : HaZeroconf)
    (service_type name : str) (fl : flow) : Prop :=
  flow_source fl = SOURCE_ZEROCONF
  /\ info_from_service (zeroconf service_type name)
     = Returned (Some (flow_info fl))
  /\ exists f matcher,
       fields_of (flow_info fl) = Returned f
       /\ In matcher (rules_for self service_type)
       /\ rule_matches f matcher = true
       /\ dict_get matcher (lit "domain") = Some (flow_domain fl).

(** X13: the flows of a task, in the order they are created: at most one
    HomeKit flow, only for a HomeKit service type and to the non-empty
    domain the classifier returned, then the generic flows, each to the
    domain of a rule registered for the service type that matches the
    record; every flow carries the ServiceInfo the normalizer returned for
    the record. *)
Theorem task_flows (self : ZeroconfDiscovery) (zeroconf : HaZeroconf)
    (service_type name : str) :
  exists homekit generic,
    fst (_process_service_update self zeroconf service_type name)
    = homekit ++ generic
    /\ (List.length homekit <= 1)%nat
    /\ (forall fl, In fl homekit ->
                   homekit_flow_of self zeroconf service_type name fl)
    /\ (forall fl, In fl generic ->
                   generic_flow_of self zeroconf service_type name fl).
Proof.
  unfold _process_service_update.
  destruct (info_from_service (zeroconf service_type name))
    as [[info|]|e] eqn:Hinfo;
    try (exists [], []; cbn; repeat split; (lia || intros ? [])).
  assert (Hgen : forall fl,
            In fl (fst (generic_dispatch self service_type info)) ->
            generic_flow_of self zeroconf service_type name fl).
  { intros fl Hin. destruct (generic_dispatch_flow _ _ _ _ Hin) as (H1 & H2 & H3).
    subst info. split; [exact H1|]. split; [exact Hinfo|exact H3]. }
  destruct (existsb (str_eqb service_type) HOMEKIT_TYPES) eqn:Htype.
  2:{ exists [], (fst (generic_dispatch self service_type info)).
      split; [reflexivity|]. split; [cbn; lia|]. split; [intros ? []|exact Hgen]. }
  apply homekit_type_test in Htype.
  destruct (async_get_homekit_discovery_domain (homekit_models self)
              (ZeroconfServiceInfo.properties info)) as [domain|e] eqn:Hdomain.
  2:{ exists [], []. cbn. repeat split; (lia || intros ? []). }
  set (created := match domain with
                  | Some d => if truthy domain then [homekit_flow d info] else []
                  | None => []
                  end).
  assert (Hlen : (List.length created <= 1)%nat).
  { subst created. destruct domain as [d|]; [|cbn; lia].
    destruct (truthy (Some d)); cbn; lia. }
  assert (Hhk : forall fl, In fl created ->
                  homekit_flow_of self zeroconf service_type name fl).
  { subst created. intros fl Hin. destruct domain as [d|]; [|destruct Hin].
    destruct (truthy (Some d)) eqn:Ht; [|destruct Hin].
    destruct Hin as [<-|[]]. unfold homekit_flow_of. cbn.
    split; [reflexivity|]. split; [exact Htype|]. split; [exact Hinfo|].
    split; [|exact Hdomain]. destruct d; [discriminate Ht|discriminate]. }
  assert (Hboth : exists homekit generic,
            fst (let (flows, r) := generic_dispatch self service_type info in
                 (created ++ flows, r)) = homekit ++ generic
            /\ (List.length homekit <= 1)%nat
            /\ (forall fl, In fl homekit ->
                  homekit_flow_of self zeroconf service_type name fl)
            /\ (forall fl, In fl generic ->
                  generic_flow_of self zeroconf service_type name fl)).
  { exists created, (fst (generic_dispatch self service_type info)).
    destruct (generic_dispatch self service_type info) as [flows r].
    cbn [fst] in *. auto. }
  assert (Honly : forall r : result unit, exists homekit generic,
            fst (created, r) = homekit ++ generic
            /\ (List.length homekit <= 1)%nat
            /\ (forall fl, In fl homekit ->
                  homekit_flow_of self zeroconf service_type name fl)
            /\ (forall fl, In fl generic ->
                  generic_flow_of self zeroconf service_type name fl)).
  { intros r. exists created, []. cbn [fst]. rewrite app_nil_r.
    split; [reflexivity|]. split; [exact Hlen|]. split; [exact Hhk|intros ? []]. }
  fold created.
  destruct (truthy domain && dict_in HOMEKIT_PAIRED_STATUS_FLAG
                                (ZeroconfServiceInfo.properties info));
    [|exact Hboth].
  destruct (rbind (dict_item (ZeroconfServiceInfo.properties info)
                     HOMEKIT_PAIRED_STATUS_FLAG) int_of) as [n|e].
  - destruct (n =? 0)%Z; [exact Hboth|apply Honly].
  - destruct e; apply Honly.
Qed.

(** X14: a HomeKit record for which the classifier returned no domain (or the
    empty one), or whose typed bag has no pairing status, goes through
    generic matching: the pairing status is looked at only when both are
    there. *)
Theorem homekit_record_without_status (self : ZeroconfDiscovery)
    (zeroconf : HaZeroconf) (service_type name : str)
    (info : ZeroconfServiceInfo.t) (domain : option str) :
  In service_type HOMEKIT_TYPES ->
  info_from_service (zeroconf service_type name) = Returned (Some info) ->
  async_get_homekit_discovery_domain (homekit_models self)
    (ZeroconfServiceInfo.properties info) = Returned domain ->
  truthy domain = false
  \/ dict_in HOMEKIT_PAIRED_STATUS_FLAG (ZeroconfServiceInfo.properties info)
     = false ->
  _process_service_update self zeroconf service_type name
  = (match domain with
     | Some (c :: d) => [homekit_flow (c :: d) info]
     | _ => []
     end ++ fst (generic_dispatch self service_type info),
     snd (generic_dispatch self service_type info)).
Proof.
  intros Htype Hinfo Hdomain Hcase. unfold _process_service_update.
  rewrite Hinfo, (proj2 (homekit_type_test service_type) Htype), Hdomain.
  assert (Hskip : truthy domain
                  && dict_in HOMEKIT_PAIRED_STATUS_FLAG
                       (ZeroconfServiceInfo.properties info) = false).
  { destruct Hcase as [-> | ->]; [reflexivity|apply andb_false_r]. }
  rewrite Hskip.
  destruct (generic_dispatch self service_type info) as [flows r].
  destruct domain as [[|c d]|]; reflexivity.
Qed.

(** X15: a record without a usable address creates no flow, of either kind. *)
Theorem unusable_record_creates_no_flow (self : ZeroconfDiscovery)
    (zeroconf : HaZeroconf) (service_type name : str) (props : pydict pyval) :
  decoded (zeroconf service_type name) = Returned props ->
  Forall link_local_v4
    (AsyncServiceInfo.addresses (zeroconf service_type name)) ->
  _process_service_update self zeroconf service_type name = ([], Returned tt).
Proof.
  intros Hp Hall. unfold _process_service_update.
  rewrite (info_from_service_none _ props Hp Hall). reflexivity.
Qed.

(** X16: a matching rule without a ["domain"] key stops generic matching with
    [KeyError]: the flows of the matching rules before it have been
    created, the rules after it are not looked at. *)
Theorem rule_without_domain_raises (info : ZeroconfServiceInfo.t)
    (f : fields) (before after : list (pydict str)) (rule : pydict str) :
  (forall matcher, In matcher before ->
     dict_in (lit "domain") matcher = true) ->
  rule_matches f rule = true ->
  dict_get rule (lit "domain") = None ->
  match_rules info f (before ++ rule :: after)
  = (map (generic_flow info) (filter (rule_matches f) before),
     Raised KeyError).
Proof.
  intros Hbefore Hrule Hnone.
  induction before as [|matcher before IH]; cbn [app match_rules].
  - rewrite Hrule. unfold dict_item. rewrite Hnone. reflexivity.
  - rewrite IH by (intros m Hm; apply Hbefore; right; exact Hm).
    cbn [filter].
    destruct (rule_matches f matcher); [|reflexivity].
    specialize (Hbefore matcher (or_introl eq_refl)).
    unfold dict_in in Hbefore. unfold dict_item. cbn [map].
    unfold generic_flow at 2, domain_of.
    destruct (dict_get matcher (lit "domain")); [reflexivity|discriminate].
Qed.

(** X17: a candidate address that is not 4 or 16 bytes long, met before any
    usable one, makes the scan and the normalizer raise [ValueError]. *)
Theorem malformed_address_raises (service : AsyncServiceInfo.t)
    (props : pydict pyval) (before after : list bytes) (address : bytes) :
  AsyncServiceInfo.addresses service = before ++ address :: after ->
  Forall link_local_v4 before ->
  List.length address <> 4%nat -> List.length address <> 16%nat ->
  decoded service = Returned props ->
  _first_non_link_local_or_v6_address (before ++ address :: after)
  = Raised ValueError
  /\ info_from_service service = Raised ValueError.
Proof.
  intros Haddr Hbefore H4 H16 Hp.
  assert (Hscan : _first_non_link_local_or_v6_address
                    (before ++ address :: after) = Raised ValueError).
  { clear Haddr. induction Hbefore as [|a before (ip & Hip & Hv & Hl) _ IH];
      cbn [app _first_non_link_local_or_v6_address].
    - unfold ip_address.
      destruct (Nat.eqb_spec (List.length address) 4); [contradiction|].
      destruct (Nat.eqb_spec (List.length address) 16); [contradiction|].
      reflexivity.
    - rewrite Hip. cbn [rbind].
      rewrite (proj2 (scan_test ip) (conj Hv Hl)). exact IH. }
  split; [exact Hscan|]. unfold info_from_service. fold (decoded service).
  rewrite Hp. cbn [rbind]. rewrite Haddr.
  destruct (before ++ address :: after) eqn:E;
    [destruct before; discriminate|].
  rewrite Hscan. reflexivity.
Qed.
End Flows.

(** A table of textual addresses, enough to run the announcement. *)
Definition address_table (text : str) : result ip_addr :=
  if str_eqb text (lit "10.0.0.5") then Returned (IPv4Address 167772165)
  else if str_eqb text (lit "127.0.0.1") then Returned (IPv4Address 2130706433)
  else if str_eqb text (lit "192.168.1.9") then Returned (IPv4Address 3232235785)
  else if str_eqb text (lit "fe80::1")
  then Returned (IPv6Address 338288524927261089654018896841347694593)
  else Raised ValueError.

Definition pton_table (text : str) : result bytes :=
  match address_table text with
  | Returned (IPv4Address ip) => Returned (to_bytes 4 ip)
  | _ => Raised ValueError
  end.

Lemma announced_addresses_witness :
  let address_list :=
    [addr_10_0_0_5; addr_fe80_1] in
  NoDup address_list
  /\ (forall address,
        In address address_list <->
        (Some addr_10_0_0_5 = Some address /\ address <> [])
        \/ announceable address_table linux_adapters address)
  /\ (forall first, Some addr_10_0_0_5 = Some first -> first <> [] ->
        exists rest, address_list = first :: rest /\ ~ In first rest).
Proof.
  apply (announced_addresses address_table linux_adapters
           (Some addr_10_0_0_5) [addr_10_0_0_5; addr_fe80_1]).
  vm_compute. reflexivity.
Defined.

(** ** The registered record *)

Section Registered.
Variable ip_address_of_text : str -> result ip_addr.
Variable inet_pton : str -> result bytes.

Definition param_keys : list str :=
  [lit "location_name"; lit "uuid"; lit "version"; lit "external_url";
   lit "internal_url"; lit "base_url"; lit "requires_api_password"].

Lemma str_or_not_empty a b : b <> [] -> str_or a b <> [].
Proof. destruct a as [[|c s]|]; cbn; intros H; congruence. Qed.

(** X21: the record registered for the instance has the host-announcement
    type; its name is a non-empty prefix of the location name (of "Home"
    when there is none), of at most 63 bytes, followed by a dot and the
    type; its server is the uuid under [.local.]; its properties are the
    seven known keys in their order, no string value of more than 230
    bytes among them and [requires_api_password] still true; its addresses
    have no duplicates and start with the packed source address when one
    was found. *)
Theorem registered_record (location_name : option str) (uuid version : str)
    (external_url internal_url : option str) (adapters : list Adapter.t)
    (host_ip : option str) (server_port : Z) (info : Announcement.t) :
  _async_register_hass_zc_service ip_address_of_text inet_pton
    location_name uuid version external_url internal_url adapters host_ip
    server_port = Returned info ->
  Announcement.type info = ZEROCONF_TYPE
  /\ (exists valid rest,
        str_or location_name (lit "Home") = valid ++ rest
        /\ valid <> []
        /\ (encoded_length valid <= MAX_NAME_LEN)%nat
        /\ Announcement.name info = valid ++ lit "." ++ ZEROCONF_TYPE)
  /\ Announcement.server info = uuid ++ lit ".local."
  /\ Announcement.port info = server_port
  /\ dict_keys (Announcement.properties info) = param_keys
  /\ (forall k s,
        dict_get (Announcement.properties info) k = Some (PStr s) ->
        (encoded_length s <= MAX_PROPERTY_VALUE_LEN)%nat)
  /\ dict_get (Announcement.properties info) (lit "requires_api_password")
     = Some (PBool true)
  /\ NoDup (Announcement.addresses info)
  /\ (forall c text, host_ip = Some (c :: text) ->
        exists p, inet_pton (c :: text) = Returned p
                  /\ (p <> [] ->
                      exists rest, Announcement.addresses info = p :: rest)).
Proof.
  unfold _async_register_hass_zc_service.
  set (wanted := str_or location_name (lit "Home")).
  rewrite truncate_is_fit.
  destruct (encode_utf8 wanted) as [encoded|] eqn:Eenc; [|discriminate].
  cbn [encoded_or_raise rbind].
  set (params := dict_set _ (lit "base_url") _).
  assert (Hkeys : dict_keys params = param_keys).
  { subst params. destruct external_url as [[|c e]|], internal_url as [[|d i]|];
      reflexivity. }
  assert (Hflag : dict_get params (lit "requires_api_password")
                  = Some (PBool true)).
  { subst params. destruct external_url as [[|c e]|], internal_url as [[|d i]|];
      reflexivity. }
  assert (Hnd : NoDup (dict_keys params)).
  { rewrite Hkeys. unfold param_keys.
    repeat constructor; simpl; intuition discriminate. }
  destruct (match host_ip with
            | Some (c :: text) =>
                rbind (inet_pton (c :: text)) (fun p => Returned (Some p))
            | _ => Returned None
            end) as [host_ip_pton|e] eqn:Ehost; [|discriminate].
  cbn [rbind].
  destruct (_get_announced_addresses ip_address_of_text adapters host_ip_pton)
    as [address_list|e] eqn:Eaddr; [|discriminate].
  cbn [rbind].
  destruct (_suppress_invalid_properties params) as [suppressed_params|] eqn:Esup;
    [|discriminate].
  cbn [encoded_or_raise rbind]. intros H. injection H as <-.
  pose proof (suppress_is_map _ _ Hnd Esup) as Hmap.
  destruct (announced_addresses_spec ip_address_of_text _ _ _ Eaddr)
    as (Hnodup & _ & Hfirst).
  cbn [Announcement.type Announcement.name Announcement.server
       Announcement.port Announcement.properties Announcement.addresses].
  split; [reflexivity|]. split.
  { destruct (fit_prefix MAX_NAME_LEN wanted) as [rest Hrest].
    exists (fit MAX_NAME_LEN wanted), rest.
    split; [exact Hrest|]. split; [|split; [apply fit_length|reflexivity]].
    assert (Hw : wanted <> [])
      by (apply str_or_not_empty; discriminate).
    destruct wanted as [|c w]; [congruence|]. cbn [fit].
    pose proof (width_bounds c) as Hb.
    destruct (width c <=? MAX_NAME_LEN)%nat eqn:E; [discriminate|].
    apply Nat.leb_gt in E. unfold MAX_NAME_LEN in E. lia. }
  split; [reflexivity|]. split; [reflexivity|].
  split; [rewrite Hmap, dict_keys_suppress_value; exact Hkeys|].
  split.
  { intros k s. rewrite Hmap, dict_get_suppress_value.
    destruct (dict_get params k) as [[s'|b]|]; cbn [option_map suppressed];
      try discriminate.
    destruct (MAX_PROPERTY_VALUE_LEN <? encoded_length s')%nat eqn:E;
      intros H; injection H as <-.
    - rewrite encoded_length_nil. lia.
    - apply Nat.ltb_ge in E. exact E. }
  split; [rewrite Hmap, dict_get_suppress_value, Hflag; reflexivity|].
  split; [exact Hnodup|].
  intros c text ->.
  destruct (inet_pton (c :: text)) as [p|e] eqn:Ep; [|discriminate].
  cbn [rbind] in Ehost. injection Ehost as <-.
  exists p. split; [reflexivity|]. intros Hp.
  destruct (Hfirst p eq_refl Hp) as (rest & -> & _). eauto.
Qed.
End Registered.

Lemma registered_record_witness :
  exists info,
    _async_register_hass_zc_service address_table pton_table
      None (lit "abc") (lit "2021.12") (Some (lit "https://example.org"))
      None linux_adapters (Some (lit "10.0.0.5")) 8123
    = Returned info
    /\ Announcement.name info = lit "Home._home-assistant._tcp.local."
    /\ Announcement.addresses info = [addr_10_0_0_5; addr_fe80_1]
    /\ dict_keys (Announcement.properties info) = param_keys
    /\ dict_get (Announcement.properties info) (lit "base_url")
       = Some (PStr (lit "https://example.org")).
Proof.
  eexists. split; [vm_compute; reflexivity|].
  match goal with
  | |- context [Announcement.properties ?i] =>
      pose proof (registered_record address_table pton_table
        None (lit "abc") (lit "2021.12") (Some (lit "https://example.org"))
        None linux_adapters (Some (lit "10.0.0.5")) 8123 i
        ltac:(vm_compute; reflexivity)) as (_ & _ & _ & _ & Hkeys & _)
  end.
  split; [vm_compute; reflexivity|]. split; [vm_compute; reflexivity|].
  split; [exact Hkeys|]. vm_compute. reflexivity.
Defined.

(** ** The normalizer: what it returns *)

Lemma scan_outcome addresses :
  Forall packed addresses ->
  Forall link_local_v4 addresses \/ exists ip, first_usable addresses ip.
Proof.
  induction 1 as [|address rest Hp _ IH]; [left; constructor|].
  destruct (ip_address_packed address Hp) as [ip Hip].
  destruct (negb (is_link_local ip) || (version ip =? 6)%N) eqn:Htest.
  - right. exists ip. exists [], address, rest.
    split; [reflexivity|]. split; [constructor|].
    split; [exact Hip|]. apply scan_test_true. exact Htest.
  - apply scan_test in Htest.
    assert (Hll : link_local_v4 address) by (exists ip; tauto).
    destruct IH as [Hall|(ip' & before & a & after & -> & Hbefore & Ha)].
    + left. constructor; assumption.
    + right. exists ip', (address :: before), a, after.
      split; [reflexivity|]. split; [constructor; assumption|exact Ha].
Qed.

(** A candidate that does not stop the normalizer: IPv6, which
    [service.addresses] leaves out, or link-local IPv4, which the scan
    passes over. *)
Definition passed_over (address : bytes) : Prop :=
  List.length address = 16%nat \/ link_local_v4 address.

(** [ip] is the first candidate, in advertisement order, that is IPv4 and
    not link-local. *)
Definition first_routable_v4 (candidates : list bytes) (ip : ip_addr) : Prop :=
  exists before address after,
    candidates = before ++ address :: after
    /\ Forall passed_over before
    /\ ip_address address = Returned ip
    /\ version ip = 4%N /\ is_link_local ip = false.

Lemma ip_address_v4 address :
  List.length address = 4%nat ->
  exists ip, ip_address address = Returned ip /\ version ip = 4%N.
Proof.
  intros H. unfold ip_address. rewrite H. cbn [Nat.eqb].
  eexists. split; reflexivity.
Qed.

(** What the candidates decide, and what it means for the list the scan
    is given. *)
Lemma candidates_outcome candidates :
  Forall packed candidates ->
  let addresses :=
    filter (fun a => negb (AsyncServiceInfo._is_v6_address a)) candidates in
  (Forall passed_over candidates /\ Forall link_local_v4 addresses)
  \/ (exists ip, first_routable_v4 candidates ip /\ first_usable addresses ip).
Proof.
  induction 1 as [|address rest Hp _ IH]; cbn zeta; [left; split; constructor|].
  cbn zeta in IH. cbn [filter].
  destruct Hp as [H4|H16].
  - assert (Hv6 : AsyncServiceInfo._is_v6_address address = false)
      by (unfold AsyncServiceInfo._is_v6_address; rewrite H4; reflexivity).
    rewrite Hv6. cbn [negb].
    destruct (ip_address_v4 address H4) as (ip & Hip & Hv).
    destruct (is_link_local ip) eqn:Hl.
    + assert (Hll : link_local_v4 address) by (exists ip; auto).
      destruct IH as [[Hall Hscan]
                     |(ip' & (before & a & after & -> & Hbefore & Ha)
                           & (before' & a' & after' & Heq & Hbefore' & Ha'))].
      * left. split; constructor; solve [assumption | right; assumption].
      * right. exists ip'. split.
        -- exists (address :: before), a, after.
           split; [reflexivity|].
           split; [constructor; [right; exact Hll|exact Hbefore]|exact Ha].
        -- exists (address :: before'), a', after'.
           split; [rewrite Heq; reflexivity|].
           split; [constructor; assumption|exact Ha'].
    + right. exists ip. split.
      * exists [], address, rest. split; [reflexivity|].
        split; [constructor|]. auto.
      * exists [], address, (filter (fun a => negb (AsyncServiceInfo._is_v6_address a)) rest).
        split; [reflexivity|]. split; [constructor|].
        split; [exact Hip|right; exact Hl].
  - assert (Hv6 : AsyncServiceInfo._is_v6_address address = true)
      by (unfold AsyncServiceInfo._is_v6_address; rewrite H16; reflexivity).
    rewrite Hv6. cbn [negb].
    destruct IH as [[Hall Hscan]
                   |(ip' & (before & a & after & -> & Hbefore & Ha) & Hscan)].
    + left. split; [constructor; [left; exact H16|exact Hall]|exact Hscan].
    + right. exists ip'. split; [|exact Hscan].
      exists (address :: before), a, after.
      split; [reflexivity|].
      split; [constructor; [left; exact H16|exact Hbefore]|exact Ha].
Qed.

(** X19: for a record without the property key [b"_raw"] and with packed
    candidates of 4 or 16 bytes, the normalizer returns.  It rejects the
    record when every candidate is IPv6 or link-local IPv4 (or there is
    none); otherwise it returns a ServiceInfo whose host is the first
    candidate, in advertisement order, that is IPv4 and not link-local. *)
Theorem normalizer_outcome (service : AsyncServiceInfo.t) :
  ~ In (blit "_raw") (map fst (AsyncServiceInfo.properties service)) ->
  Forall packed (AsyncServiceInfo._addresses service) ->
  (Forall passed_over (AsyncServiceInfo._addresses service)
   /\ info_from_service service = Returned None)
  \/ (exists info ip,
        first_routable_v4 (AsyncServiceInfo._addresses service) ip
        /\ info_from_service service = Returned (Some info)
        /\ ZeroconfServiceInfo.host info = ip_str ip).
Proof.
  intros Hnone Hpacked.
  destruct (decode_properties_loop (AsyncServiceInfo.properties service)
              [(lit "_raw", VDict [])] [] eq_refl Hnone)
    as (props & raw & Hrun & _).
  fold (decoded service) in Hrun.
  destruct (candidates_outcome _ Hpacked) as [[Hall Hscan]|(ip & Hip & Hscan)].
  - left. split; [exact Hall|].
    exact (info_from_service_none service props Hrun Hscan).
  - right. eexists _, ip. split; [exact Hip|]. split.
    + apply info_from_service_some. exists props, ip. eauto.
    + reflexivity.
Qed.

Lemma normalizer_outcome_witness :
  let service :=
    lock_service [([xff], Some [xff])]
                 [addr_169_254_0_5; addr_fe80_1; addr_10_0_0_5] in
  (Forall passed_over [addr_169_254_0_5; addr_fe80_1; addr_10_0_0_5]
   /\ info_from_service service = Returned None)
  \/ (exists info ip,
        first_routable_v4 [addr_169_254_0_5; addr_fe80_1; addr_10_0_0_5] ip
        /\ info_from_service service = Returned (Some info)
        /\ ZeroconfServiceInfo.host info = ip_str ip).
Proof.
  intros service. apply (normalizer_outcome service).
  - simpl. intros [H|[]]. discriminate H.
  - repeat constructor; solve [left; reflexivity | right; reflexivity].
Defined.

(** X18: the two bags of a byte-map in which no key is [b"_raw"]: a pair
    whose key is ASCII is in the raw bag under the decoded key with its
    original value, and in the typed bag exactly when the value is [bytes]
    that decode as UTF-8 (then as the decoded string); a name that no key
    decodes to is in neither bag. *)
Theorem bags_without_raw_key (service : AsyncServiceInfo.t) :
  let items := AsyncServiceInfo.properties service in
  NoDup (map fst items) ->
  ~ In (blit "_raw") (map fst items) ->
  exists props raw,
    decoded service = Returned props
    /\ dict_get props (lit "_raw") = Some (VDict raw)
    /\ (forall key value k,
          In (key, value) items -> decode_ascii key = Returned k ->
          dict_get raw k = Some value
          /\ dict_get props k = typed_value value)
    /\ (forall k,
          (forall key, In key (map fst items) -> decode_ascii key <> Returned k) ->
          dict_get raw k = None
          /\ (k <> lit "_raw" -> dict_get props k = None)).
Proof. exact (property_bags service). Qed.

Lemma bags_without_raw_key_witness :
  let items := [(blit "md", Some (blit "SmartLock")); ([xff], Some (blit "q"));
                (blit "bad", Some [xc3; x28]); (blit "flag", None)] in
  exists props raw,
    decoded (lock_service items []) = Returned props
    /\ dict_get props (lit "_raw") = Some (VDict raw)
    /\ (forall key value k,
          In (key, value) items -> decode_ascii key = Returned k ->
          dict_get raw k = Some value
          /\ dict_get props k = typed_value value)
    /\ (forall k,
          (forall key, In key (map fst items) -> decode_ascii key <> Returned k) ->
          dict_get raw k = None
          /\ (k <> lit "_raw" -> dict_get props k = None)).
Proof.
  intros items. apply (bags_without_raw_key (lock_service items [])).
  - repeat constructor; simpl; intuition discriminate.
  - simpl. intuition discriminate.
Defined.

Lemma dict_get_set_present V (d : pydict V) k k' v :
  dict_get d k <> None -> dict_get (dict_set d k' v) k <> None.
Proof.
  intros H. destruct (str_eq_dec k k') as [->|Hne].
  - rewrite dict_get_set_same. discriminate.
  - rewrite dict_get_set_other by exact Hne. exact H.
Qed.

Lemma store_property_keeps_raw props item props' :
  dict_get props (lit "_raw") <> None ->
  store_property props item = Returned props' ->
  dict_get props' (lit "_raw") <> None.
Proof.
  intros Hraw. destruct item as [key value]. unfold store_property.
  destruct (decode_ascii key) as [k|e]; [|intros H; injection H as <-; exact Hraw].
  destruct (dict_get props (lit "_raw")) as [[s|raw]|] eqn:E; try discriminate.
  destruct value as [b|]; [destruct (decode_utf8 b) as [s|e]|];
    intros H; injection H as <-;
    repeat apply dict_get_set_present; rewrite E; discriminate.
Qed.

Lemma decode_properties_keeps_raw items :
  forall props props',
    dict_get props (lit "_raw") <> None ->
    decode_properties props items = Returned props' ->
    dict_get props' (lit "_raw") <> None.
Proof.
  induction items as [|item rest IH]; cbn [decode_properties];
    intros props props' Hraw H.
  - injection H as <-. exact Hraw.
  - destruct (store_property props item) as [props1|e] eqn:E; [|discriminate].
    cbn [rbind] in H.
    exact (IH props1 props' (store_property_keeps_raw _ _ _ Hraw E) H).
Qed.

(** X20: a ServiceInfo returned by the normalizer carries the record's
    type, name and port unchanged and its server as hostname; its typed
    bag always has the key ["_raw"], and under every other key a string. *)
Theorem service_info_fields (service : AsyncServiceInfo.t)
    (info : ZeroconfServiceInfo.t) :
  info_from_service service = Returned (Some info) ->
  ZeroconfServiceInfo.type info = AsyncServiceInfo.type service
  /\ ZeroconfServiceInfo.name info = AsyncServiceInfo.name service
  /\ ZeroconfServiceInfo.hostname info = AsyncServiceInfo.server service
  /\ ZeroconfServiceInfo.port info = AsyncServiceInfo.port service
  /\ decoded service = Returned (ZeroconfServiceInfo.properties info)
  /\ dict_in (lit "_raw") (ZeroconfServiceInfo.properties info) = true
  /\ typed_bag (ZeroconfServiceInfo.properties info).
Proof.
  intros H. apply info_from_service_some in H.
  destruct H as (props & ip & Hp & _ & ->).
  cbn [ZeroconfServiceInfo.type ZeroconfServiceInfo.name
       ZeroconfServiceInfo.hostname ZeroconfServiceInfo.port
       ZeroconfServiceInfo.properties].
  repeat (split; [reflexivity|]). split; [exact Hp|]. split.
  - unfold dict_in.
    destruct (dict_get props (lit "_raw")) eqn:E; [reflexivity|].
    exfalso. revert E.
    refine (decode_properties_keeps_raw _ _ _ _ Hp). discriminate.
  - refine (decode_properties_typed _ _ _ _ Hp).
    intros k v Hget Hne. cbn [dict_get] in Hget.
    destruct (str_eq_dec k (lit "_raw")); congruence.
Qed.

Lemma service_info_fields_witness :
  ZeroconfServiceInfo.type (lock_info "1")
  = AsyncServiceInfo.type
      (lock_network "1" hap_tcp (lit "Lock._hap._tcp.local.")).
Proof.
  apply (service_info_fields
           (lock_network "1" hap_tcp (lit "Lock._hap._tcp.local."))
           (lock_info "1")).
  vm_compute. reflexivity.
Defined.

(** ** Concrete tasks *)

(** The lock advertising its model and no pairing status. *)
Definition lock_without_status : HaZeroconf :=
  fun _ _ => lock_service [(blit "md", Some (blit "SmartLock"))] [addr_10_0_0_5].

Definition lock_info_without_status : ZeroconfServiceInfo.t :=
  {| ZeroconfServiceInfo.host := lit "10.0.0.5";
     ZeroconfServiceInfo.port := Some 80%Z;
     ZeroconfServiceInfo.hostname := lit "lock.local.";
     ZeroconfServiceInfo.type := hap_tcp;
     ZeroconfServiceInfo.name := lit "Lock._hap._tcp.local.";
     ZeroconfServiceInfo.properties :=
       [(lit "_raw", VDict [(lit "md", Some (blit "SmartLock"))]);
        (lit "md", VStr (lit "SmartLock"))] |}.

Lemma homekit_record_without_status_witness :
  _process_service_update lock_discovery lock_without_status hap_tcp
    (lit "Lock._hap._tcp.local.")
  = ([homekit_flow (lit "lockvendor") lock_info_without_status]
       ++ fst (generic_dispatch lock_discovery hap_tcp lock_info_without_status),
     snd (generic_dispatch lock_discovery hap_tcp lock_info_without_status)).
Proof.
  apply (homekit_record_without_status lock_discovery lock_without_status
           hap_tcp (lit "Lock._hap._tcp.local.") lock_info_without_status
           (Some (lit "lockvendor"))).
  - left. reflexivity.
  - vm_compute. reflexivity.
  - vm_compute. reflexivity.
  - right. vm_compute. reflexivity.
Defined.

Lemma link_local_169_254_0_5 : link_local_v4 addr_169_254_0_5.
Proof.
  exists (IPv4Address 2851995653). split; [reflexivity|].
  split; reflexivity.
Qed.

Lemma unusable_record_creates_no_flow_witness :
  _process_service_update lock_discovery
    (fun _ _ => lock_service [(blit "md", Some (blit "SmartLock"))]
                             [addr_169_254_0_5])
    hap_tcp (lit "Lock._hap._tcp.local.")
  = ([], Returned tt).
Proof.
  apply (unusable_record_creates_no_flow lock_discovery
           (fun _ _ => lock_service [(blit "md", Some (blit "SmartLock"))]
                                    [addr_169_254_0_5])
           hap_tcp (lit "Lock._hap._tcp.local.")
           [(lit "_raw", VDict [(lit "md", Some (blit "SmartLock"))]);
            (lit "md", VStr (lit "SmartLock"))]).
  - vm_compute. reflexivity.
  - constructor; [exact link_local_169_254_0_5|constructor].
Defined.

Lemma rule_without_domain_raises_witness :
  match_rules printer_info (normalized_fields printer_info)
    ([[(lit "domain", lit "brother"); (lit "name", lit "brother*")]]
       ++ [(lit "name", lit "brother*")] :: [[(lit "domain", lit "ipp")]])
  = (map (generic_flow printer_info)
         (filter (rule_matches (normalized_fields printer_info))
                 [[(lit "domain", lit "brother"); (lit "name", lit "brother*")]]),
     Raised KeyError).
Proof.
  apply (rule_without_domain_raises printer_info
           (normalized_fields printer_info)
           [[(lit "domain", lit "brother"); (lit "name", lit "brother*")]]
           [[(lit "domain", lit "ipp")]]
           [(lit "name", lit "brother*")]).
  - intros matcher [<-|[]]. reflexivity.
  - reflexivity.
  - reflexivity.
Defined.

Lemma malformed_address_raises_witness :
  _first_non_link_local_or_v6_address
    ([addr_169_254_0_5] ++ [x01; x02] :: [addr_10_0_0_5])
  = Raised ValueError
  /\ info_from_service
       (lock_service [] [addr_169_254_0_5; [x01; x02]; addr_10_0_0_5])
     = Raised ValueError.
Proof.
  apply (malformed_address_raises
           (lock_service [] [addr_169_254_0_5; [x01; x02]; addr_10_0_0_5])
           [(lit "_raw", VDict [])] [addr_169_254_0_5] [addr_10_0_0_5]
           [x01; x02]).
  - reflexivity.
  - constructor; [exact link_local_169_254_0_5|constructor].
  - discriminate.
  - discriminate.
  - reflexivity.
Defined.

(** ** The host of a ServiceInfo *)

Lemma join_not_empty sep p q rest :
  sep <> [] -> join sep (p :: q :: rest) <> [].
Proof.
  intros Hsep. cbn [join]. intros H.
  apply app_eq_nil in H. destruct H as [_ H].
  apply app_eq_nil in H. destruct H as [H _]. contradiction.
Qed.

Definition run_bounds (st : zero_run * Z) : Prop :=
  (0 <= snd st)%Z
  /\ (-1 <= doublecolon_start (fst st))%Z
  /\ (0 <= best_doublecolon_len (fst st))%Z
  /\ (0 < best_doublecolon_len (fst st) ->
      0 <= best_doublecolon_start (fst st))%Z.

Lemma zero_run_step_bounds st hextet :
  run_bounds st -> run_bounds (zero_run_step st hextet).
Proof.
  destruct st as [r index]. unfold run_bounds, zero_run_step.
  cbn [fst snd]. intros (Hi & Hs & Hl & Hb).
  destruct (str_eqb hextet (lit "0")); cbn [fst snd].
  - destruct (doublecolon_start r =? -1)%Z eqn:E1;
      destruct (_ >? best_doublecolon_len r)%Z eqn:E2;
      cbn [best_doublecolon_start best_doublecolon_len doublecolon_start
           doublecolon_len]; lia.
  - cbn [best_doublecolon_start best_doublecolon_len doublecolon_start
         doublecolon_len]. lia.
Qed.

Lemma fold_run_bounds hs st :
  run_bounds st -> run_bounds (fold_left zero_run_step hs st).
Proof.
  revert st. induction hs as [|h hs IH]; intros st H; [exact H|].
  cbn [fold_left]. apply IH, zero_run_step_bounds, H.
Qed.

Lemma compress_hextets_length hs :
  (2 <= List.length hs)%nat -> (2 <= List.length (_compress_hextets hs))%nat.
Proof.
  intros Hlen. unfold _compress_hextets.
  set (start := {| best_doublecolon_start := -1; best_doublecolon_len := 0;
                   doublecolon_start := -1; doublecolon_len := 0 |}).
  assert (Hb : run_bounds (fold_left zero_run_step hs (start, 0%Z))).
  { apply fold_run_bounds. unfold run_bounds. cbn. lia. }
  destruct (fold_left zero_run_step hs (start, 0%Z)) as [r index].
  destruct Hb as (_ & _ & Hl & Hs). cbn [fst snd] in *.
  destruct (best_doublecolon_len r >? 1)%Z eqn:E; [|exact Hlen].
  assert (Hpos : (0 <= best_doublecolon_start r)%Z) by lia.
  set (hs1 := if (_ =? _)%Z then hs ++ [[]] else hs).
  assert (Hlen1 : (2 <= List.length hs1)%nat).
  { subst hs1. destruct (_ =? _)%Z; [rewrite length_app|]; lia. }
  destruct (best_doublecolon_start r =? 0)%Z eqn:E0.
  - cbn [List.length]. rewrite !length_app. cbn [List.length]. lia.
  - rewrite !length_app, length_firstn. cbn [List.length].
    assert (1 <= Z.to_nat (best_doublecolon_start r))%nat by lia. lia.
Qed.

Lemma ip_str_not_empty ip : ip_str ip <> [].
Proof.
  destruct ip as [n|n]; cbn [ip_str].
  - unfold octets. cbn [map]. apply join_not_empty. discriminate.
  - pose proof (compress_hextets_length (hextets n)) as H.
    unfold hextets at 1 in H. cbn [map List.length] in H.
    specialize (H ltac:(lia)).
    destruct (_compress_hextets (hextets n)) as [|p [|q rest]];
      cbn [List.length] in H; try lia.
    apply join_not_empty. discriminate.
Qed.

(** X22: the host of a ServiceInfo is never the empty string. *)
Theorem host_not_empty (service : AsyncServiceInfo.t)
    (info : ZeroconfServiceInfo.t) :
  info_from_service service = Returned (Some info) ->
  ZeroconfServiceInfo.host info <> [].
Proof.
  intros H. apply info_from_service_some in H.
  destruct H as (props & ip & _ & _ & ->).
  cbn [ZeroconfServiceInfo.host]. apply ip_str_not_empty.
Qed.

Lemma host_not_empty_witness :
  ZeroconfServiceInfo.host (lock_info "1") <> [].
Proof.
  apply (host_not_empty
           (lock_network "1" hap_tcp (lit "Lock._hap._tcp.local."))
           (lock_info "1")).
  vm_compute. reflexivity.
Defined.
